(** * Automated quiz solver: the output parser and the sequence controller

    A shallow embedding of [src/code_executor.py] (the output parser
    [CodeExecutor._parse_submission_result] and [CodeExecutor.execute_code]),
    of [src/quiz_handler.py] (the per-question controller
    [QuizHandler.solve_single_quiz], its two retry helpers,
    [QuizHandler.submit_fallback] and the chain loop
    [QuizHandler.solve_quiz_sequence]), of [src/llm_solver.py]
    ([LLMSolver._clean_code], [LLMSolver._build_prompt] and the two methods
    that call the model), of [config.validate_settings] and of
    [main.handle_quiz], followed by the properties of the specification
    that concern them and by further properties of the program.

    Conventions.
    - Python values are the inductive type [pyval]; the dictionary
      [submission], which the program builds itself with string keys, is a
      [gmap string pyval].
    - A Python computation that mutates a state and may raise is a function
      [S -> Res A * S]: the state survives an exception, as it does in Python
      when the exception is caught further up.
    - The library functions the parser calls ([re], [json], [ast], [int])
      are a parameter of the parser; the browser, the model, the executed
      program, the clock and the network are a parameter of the
      controller.  The properties are proved for every value of these
      parameters, and evaluated on concrete ones in the examples.
    - Time is counted in microseconds, the resolution of [datetime]; the
      rounding of [timedelta.total_seconds()] to a float is not modelled.
    - The controller is embedded on generated programs that end, normally
      or with an instance of [Exception], and leave the captured output
      readable; the module [CodeExecutor] embeds [execute_code] on every
      program.
    - Calls to [logger] have no effect on any value and are left out. *)

From Stdlib Require Import ZArith Ascii String List Bool Lia.
From Stdlib Require Import Floats.PrimFloat Floats.SpecFloat Floats.FloatOps.
From stdpp Require Import base option list gmap strings fin_maps.

Set Warnings "-register-all,-clear-no-such-hyp".
Local Open Scope Z_scope.
Local Open Scope string_scope.
Local Open Scope list_scope.

(* ===================================================================== *)
(** ** Python values                                                      *)
(* ===================================================================== *)

(** The values [json.loads], [ast.literal_eval] and [Response.json] can
    return.  A dictionary keeps its items in insertion order; its keys are
    pairwise distinct, as in Python. *)
Inductive pyval : Type :=
| PNone
| PEllipsis
| PBool (b : bool)
| PInt (n : Z)
| PFloat (x : float)
| PComplex (re im : float)
| PStr (s : string)
| PBytes (s : string)
| PList (l : list pyval)
| PTuple (l : list pyval)
| PSet (l : list pyval)
| PDict (items : list (pyval * pyval)).

Definition float_nonzero (x : float) : bool := negb (PrimFloat.eqb x PrimFloat.zero).

Definition nonempty {A} (l : list A) : bool :=
  match l with [] => false | _ :: _ => true end.

(** [bool(v)]: Python truthiness. *)
Definition truthy (v : pyval) : bool :=
  match v with
  | PNone => false
  | PEllipsis => true
  | PBool b => b
  | PInt n => negb (Z.eqb n 0)
  | PFloat x => float_nonzero x
  | PComplex re im => float_nonzero re || float_nonzero im
  | PStr s | PBytes s => negb (String.eqb s "")
  | PList l | PTuple l | PSet l => nonempty l
  | PDict items => nonempty items
  end.

(** [v is None] and [v is False]: identity with the two singletons. *)
Definition is_None (v : pyval) : bool :=
  match v with PNone => true | _ => false end.

Definition is_False (v : pyval) : bool :=
  match v with PBool false => true | _ => false end.

(** [a or b]. *)
Definition py_or (a b : pyval) : pyval := if truthy a then a else b.

(* ===================================================================== *)
(** ** Exceptions and the state-and-exception monad                       *)
(* ===================================================================== *)

(** An exception: the name of its class and [str(e)]. *)
Record exn : Type := Exn { exn_type : string; exn_msg : string }.

Definition AttributeError (msg : string) : exn := Exn "AttributeError" msg.
Definition KeyError (msg : string) : exn := Exn "KeyError" msg.
Definition TypeError (msg : string) : exn := Exn "TypeError" msg.

(** [isinstance(e, json.JSONDecodeError)]. *)
Definition is_JSONDecodeError (e : exn) : bool :=
  String.eqb (exn_type e) "JSONDecodeError".

Inductive Res (A : Type) : Type :=
| Ok (a : A)
| Raise (e : exn).
Arguments Ok {A} a.
Arguments Raise {A} e.

Definition SE (S A : Type) : Type := S -> Res A * S.

Definition se_ret {S A} (a : A) : SE S A := fun s => (Ok a, s).

Definition se_bind {S A B} (f : A -> SE S B) (c : SE S A) : SE S B :=
  fun s => match c s with
           | (Ok a, s') => f a s'
           | (Raise e, s') => (Raise e, s')
           end.

#[global] Instance SE_ret {S} : MRet (SE S) := @se_ret S.
#[global] Instance SE_bind {S} : MBind (SE S) := @se_bind S.

Definition raise {S A} (e : exn) : SE S A := fun s => (Raise e, s).

(** A pure library call that returns or raises. *)
Definition lift {S A} (r : Res A) : SE S A := fun s => (r, s).

(** [try: c  except <classes accepted by sel> as e: h e]. *)
Definition try_except_if {S A} (c : SE S A) (sel : exn -> bool) (h : exn -> SE S A)
  : SE S A :=
  fun s => match c s with
           | (Ok a, s') => (Ok a, s')
           | (Raise e, s') => if sel e then h e s' else (Raise e, s')
           end.

(** [try: c  except Exception as e: h e], also the bare [except:]. *)
Definition try_except {S A} (c : SE S A) (h : exn -> SE S A) : SE S A :=
  try_except_if c (fun _ => true) h.

Definition get_state {S} : SE S S := fun s => (Ok s, s).
Definition modify {S} (f : S -> S) : SE S unit := fun s => (Ok tt, f s).

(* ===================================================================== *)
(** ** Dictionary operations                                               *)
(* ===================================================================== *)

(** [d.get(key)] on an arbitrary value: [AttributeError] when [d] is not a
    dictionary, [None] when the key is missing.  Only a [str] key is equal
    to a [str]. *)
Fixpoint items_get (items : list (pyval * pyval)) (key : string) : pyval :=
  match items with
  | [] => PNone
  | (PStr k, v) :: rest => if String.eqb k key then v else items_get rest key
  | _ :: rest => items_get rest key
  end.

Definition py_get (d : pyval) (key : string) : Res pyval :=
  match d with
  | PDict items => Ok (items_get items key)
  | _ => Raise (AttributeError "object has no attribute 'get'")
  end.

(** [submission[key] = v] and [submission[key]]. *)
Definition setitem (key : string) (v : pyval) : SE (gmap string pyval) unit :=
  modify (fun submission => <[key := v]> submission).

Definition getitem (key : string) : SE (gmap string pyval) pyval :=
  fun submission =>
    match submission !! key with
    | Some v => (Ok v, submission)
    | None => (Raise (KeyError key), submission)
    end.

(** [submission.get(key)], with the default [None]. *)
Definition dict_get (submission : gmap string pyval) (key : string) : pyval :=
  default PNone (submission !! key).

(* ===================================================================== *)
(** ** The library functions the parser calls                              *)
(* ===================================================================== *)

Inductive re_flag : Type := IGNORECASE | DOTALL.

(** The functions of [re], [json], [ast] and the builtin [int] that
    [_parse_submission_result] calls.  [re_search pattern flags text] is
    [group(1)] of the match object of [re.search], [None] when there is no
    match; [re_findall pattern text] is the list [re.findall] returns for a
    pattern without groups.  The three parsing functions return or raise. *)
Record PyLib : Type := {
  re_search : string -> list re_flag -> string -> option string;
  re_findall : string -> string -> list string;
  json_loads : string -> Res pyval;
  ast_literal_eval : string -> Res pyval;
  py_int : string -> Res Z
}.

(** The character 34, which a pattern or an output may contain. *)
Definition dq : string := String "034"%char "".

(** [r'(?:Status|STATUS|REQUEST_STATUS)(?:\s+Code)?:\s*(\d+)'] *)
Definition STATUS_RE : string :=
  "(?:Status|STATUS|REQUEST_STATUS)(?:\s+Code)?:\s*(\d+)".

(** [r'(?:Response|RESPONSE|SERVER_RESPONSE)(?:\s+Body)?:\s*(\{.*?\})'] *)
Definition RESPONSE_RE : string :=
  "(?:Response|RESPONSE|SERVER_RESPONSE)(?:\s+Body)?:\s*(\{.*?\})".

(** The scavenger's pattern: an opening brace, [[^{}]*], a quote of either
    kind, the word correct, a quote of either kind, [[^{}]*], a closing
    brace; [dq] stands where the source has the double quote. *)
Definition CORRECT_BLOB_RE : string :=
  "\{[^{}]*[\" +:+ dq +:+ "\']correct[\" +:+ dq +:+ "\'][^{}]*\}".

(* ===================================================================== *)
(** ** The output parser: [CodeExecutor._parse_submission_result]          *)
(* ===================================================================== *)

Section OutputParser.
Variable lib : PyLib.

(** The dictionary the parser starts from. *)
Definition empty_submission : gmap string pyval :=
  <["status_code" := PNone]>
    (<["reason" := PNone]>
       (<["next_url" := PNone]>
          (<["correct" := PNone]> ∅))).

(** The three assignments that copy a parsed object into [submission];
    the same lines follow the primary extraction and the scavenger. *)
Definition extract_fields (data : pyval) : SE (gmap string pyval) unit :=
  correct ← lift (py_get data "correct");
  setitem "correct" correct;;
  url ← lift (py_get data "url");
  next_url ← (if truthy url then mret url
              else lift (py_get data "next_url"));
  setitem "next_url" next_url;;
  reason ← lift (py_get data "reason");
  setitem "reason" reason.

(** 1. Parse STATUS CODE. *)
Definition parse_status_code (output : string) : SE (gmap string pyval) unit :=
  match re_search lib STATUS_RE [IGNORECASE] output with
  | Some digits =>
      n ← lift (py_int lib digits);
      setitem "status_code" (PInt n)
  | None => mret tt
  end.

(** The strict parse, then the permissive one when the strict parse
    raised [json.JSONDecodeError]; [None] when both failed. *)
Definition load_response (dict_str : string) : SE (gmap string pyval) pyval :=
  try_except_if (lift (json_loads lib dict_str)) is_JSONDecodeError
    (fun _ => try_except (lift (ast_literal_eval lib dict_str))
                (fun _ => mret PNone)).

(** 2. Parse RESPONSE BODY. *)
Definition parse_response_body (output : string) : SE (gmap string pyval) unit :=
  match re_search lib RESPONSE_RE [DOTALL; IGNORECASE] output with
  | Some dict_str =>
      response_data ← load_response dict_str;
      if truthy response_data then extract_fields response_data
      else mret tt
  | None => mret tt
  end.

(** The two nested [try] blocks of the scavenger loop: [Some data] when
    one of the parses returned, [None] for [continue]. *)
Definition load_blob (blob : string) : SE (gmap string pyval) (option pyval) :=
  try_except (data ← lift (json_loads lib blob); mret (Some data))
    (fun _ => try_except (data ← lift (ast_literal_eval lib blob); mret (Some data))
                (fun _ => mret None)).

(** [for match in fallback_matches: ...], left by [break] after the first
    blob that parses. *)
Fixpoint scavenge (fallback_matches : list string) : SE (gmap string pyval) unit :=
  match fallback_matches with
  | [] => mret tt
  | blob :: rest =>
      data ← load_blob blob;
      match data with
      | None => scavenge rest
      | Some data => extract_fields data
      end
  end.

(** 3. Fallback Mechanism (Scavenger Hunt). *)
Definition scavenger (output : string) : SE (gmap string pyval) unit :=
  correct ← getitem "correct";
  if is_None correct then scavenge (re_findall lib CORRECT_BLOB_RE output)
  else mret tt.

(** The body of the outer [try]. *)
Definition parse_steps (output : string) : SE (gmap string pyval) unit :=
  parse_status_code output;;
  parse_response_body output;;
  scavenger output.

(** The whole method as a computation on [submission]: the outer
    [except Exception] only logs, then [return submission]. *)
Definition parse_submission (output : string)
  : SE (gmap string pyval) (gmap string pyval) :=
  try_except (parse_steps output) (fun _ => mret tt);;
  get_state.

Definition _parse_submission_result (output : string) : Res (gmap string pyval) :=
  fst (parse_submission output empty_submission).

End OutputParser.

(* ===================================================================== *)
(** ** A reference interpreter of the library functions                    *)
(* ===================================================================== *)

(** The properties of the parser below hold for every [PyLib].  To run the
    parser on concrete outputs, [RefLib] interprets the five functions,
    after CPython 3.11, on strings whose characters are code points below
    256:
    - the three patterns of the program, with the backtracking semantics
      of [re] (ordered alternation, greedy and lazy repetition, leftmost
      match) and the Unicode classes of a [str] pattern restricted to
      that range;
    - [int] on a run of decimal digits;
    - [json.loads] and [ast.literal_eval] on a fragment of their syntax:
      outside of it (escapes that name a code point above 255, and for
      [ast.literal_eval] complex numbers, integers that are not decimal,
      string prefixes, adjacent or triple-quoted strings, comments and
      operators) they raise [NotImplementedError], which the examples
      never meet. *)
Module RefLib.

(** *** Regular expressions *)

Inductive regex : Type :=
| RChar (p : ascii -> bool)                 (* one character of a class *)
| RSeq (r1 r2 : regex)
| RAlt (r1 r2 : regex)                      (* ordered alternation *)
| REps
| RStar (greedy : bool) (p : ascii -> bool). (* class* and class*? *)

Section Match.
Context {A : Type}.

Fixpoint star_greedy (p : ascii -> bool) (s : list ascii)
    (k : list ascii -> option A) : option A :=
  match s with
  | c :: s' =>
      if p c then
        match star_greedy p s' k with
        | Some x => Some x
        | None => k s
        end
      else k s
  | [] => k s
  end.

Fixpoint star_lazy (p : ascii -> bool) (s : list ascii)
    (k : list ascii -> option A) : option A :=
  match k s with
  | Some x => Some x
  | None =>
      match s with
      | c :: s' => if p c then star_lazy p s' k else None
      | [] => None
      end
  end.

(** [rmatch r s k]: the first way, in backtracking order, to match [r]
    at the head of [s] such that [k] accepts the rest. *)
Fixpoint rmatch (r : regex) (s : list ascii)
    (k : list ascii -> option A) : option A :=
  match r with
  | RChar p =>
      match s with
      | c :: s' => if p c then k s' else None
      | [] => None
      end
  | RSeq r1 r2 => rmatch r1 s (fun s' => rmatch r2 s' k)
  | RAlt r1 r2 =>
      match rmatch r1 s k with
      | Some x => Some x
      | None => rmatch r2 s k
      end
  | REps => k s
  | RStar true p => star_greedy p s k
  | RStar false p => star_lazy p s k
  end.
End Match.

Definition code (c : ascii) : N := N_of_ascii c.

(** [\s] of a [str] pattern: the characters with [str.isspace()]. *)
Definition is_space (c : ascii) : bool :=
  let n := code c in
  ((9 <=? n) && (n <=? 13) || (28 <=? n) && (n <=? 32)
   || (n =? 133) || (n =? 160))%N.

(** [\d] of a [str] pattern: the decimal digits. *)
Definition is_digit (c : ascii) : bool :=
  let n := code c in ((48 <=? n) && (n <=? 57))%N.

Definition lower (c : ascii) : ascii :=
  let n := code c in
  if ((65 <=? n) && (n <=? 90))%N then ascii_of_N (n + 32) else c.

Definition is_char (c : ascii) : ascii -> bool := fun x => Ascii.eqb x c.
Definition is_char_nocase (c : ascii) : ascii -> bool :=
  fun x => Ascii.eqb (lower x) (lower c).
Definition any_char : ascii -> bool := fun _ => true.
Definition not_newline : ascii -> bool := fun x => negb (Ascii.eqb x "010").
Definition not_brace : ascii -> bool :=
  fun x => negb (Ascii.eqb x "{" || Ascii.eqb x "}").
Definition is_quote : ascii -> bool :=
  fun x => Ascii.eqb x "034" || Ascii.eqb x "'".

(** A literal word, letter by letter. *)
Fixpoint word (nocase : bool) (w : string) : regex :=
  match w with
  | EmptyString => REps
  | String c w' =>
      RSeq (RChar (if nocase then is_char_nocase c else is_char c))
           (word nocase w')
  end.

Definition has_flag (f : re_flag) (flags : list re_flag) : bool :=
  existsb (fun g => match f, g with
                    | IGNORECASE, IGNORECASE | DOTALL, DOTALL => true
                    | _, _ => false
                    end) flags.

Definition plus (p : ascii -> bool) : regex := RSeq (RChar p) (RStar true p).
Definition opt (r : regex) : regex := RAlt r REps.

(** [(?:Status|STATUS|REQUEST_STATUS)(?:\s+Code)?:\s*] and its group
    [(\d+)]. *)
Definition status_prefix (i : bool) : regex :=
  RSeq (RAlt (word i "Status") (RAlt (word i "STATUS") (word i "REQUEST_STATUS")))
    (RSeq (opt (RSeq (plus is_space) (word i "Code")))
       (RSeq (word i ":") (RStar true is_space))).
Definition status_group : regex := plus is_digit.

(** [(?:Response|RESPONSE|SERVER_RESPONSE)(?:\s+Body)?:\s*] and its group
    [(\{.*?\})]. *)
Definition response_prefix (i : bool) : regex :=
  RSeq (RAlt (word i "Response") (RAlt (word i "RESPONSE") (word i "SERVER_RESPONSE")))
    (RSeq (opt (RSeq (plus is_space) (word i "Body")))
       (RSeq (word i ":") (RStar true is_space))).
Definition response_group (dotall : bool) : regex :=
  RSeq (RChar (is_char "{"))
    (RSeq (RStar false (if dotall then any_char else not_newline))
       (RChar (is_char "}"))).

(** The scavenger's pattern; it has no flags. *)
Definition correct_blob : regex :=
  RSeq (RChar (is_char "{"))
    (RSeq (RStar true not_brace)
       (RSeq (RChar is_quote)
          (RSeq (word false "correct")
             (RSeq (RChar is_quote)
                (RSeq (RStar true not_brace) (RChar (is_char "}"))))))).

(** [re.compile] on the patterns of the program: the part before the
    group and the group (the whole pattern when it has no group). *)
Definition compile (pattern : string) (flags : list re_flag)
  : option (regex * regex) :=
  let i := has_flag IGNORECASE flags in
  if String.eqb pattern STATUS_RE then Some (status_prefix i, status_group)
  else if String.eqb pattern RESPONSE_RE
       then Some (response_prefix i, response_group (has_flag DOTALL flags))
  else if String.eqb pattern CORRECT_BLOB_RE then Some (REps, correct_blob)
  else None.

(** The text [s1] minus its suffix [s2]. *)
Definition consumed (s1 s2 : list ascii) : list ascii :=
  firstn (length s1 - length s2) s1.

(** Match [pre] then [grp] at the head of [s]: the text of the group and
    what follows the match. *)
Definition match_here (pre grp : regex) (s : list ascii)
  : option (list ascii * list ascii) :=
  rmatch pre s (fun s1 => rmatch grp s1 (fun s2 => Some (consumed s1 s2, s2))).

(** [re.search]: the leftmost position where the pattern matches. *)
Fixpoint search_from (pre grp : regex) (s : list ascii)
  : option (list ascii * list ascii) :=
  match match_here pre grp s with
  | Some m => Some m
  | None =>
      match s with
      | _ :: s' => search_from pre grp s'
      | [] => None
      end
  end.

Definition re_search (pattern : string) (flags : list re_flag) (text : string)
  : option string :=
  match compile pattern flags with
  | Some (pre, grp) =>
      match search_from pre grp (list_ascii_of_string text) with
      | Some (g, _) => Some (string_of_list_ascii g)
      | None => None
      end
  | None => None
  end.

(** [re.findall]: the non-overlapping matches from left to right.  The
    scan resumes where the previous match ended; the fuel bounds the
    number of matches, each of which is at least one character long. *)
Fixpoint findall_from (fuel : nat) (r : regex) (s : list ascii) : list string :=
  match fuel with
  | O => []
  | S fuel' =>
      match search_from REps r s with
      | Some (g, rest) => string_of_list_ascii g :: findall_from fuel' r rest
      | None => []
      end
  end.

Definition re_findall (pattern text : string) : list string :=
  match compile pattern [] with
  | Some (_, r) => findall_from (String.length text) r (list_ascii_of_string text)
  | None => []
  end.

(** *** [int] on a run of decimal digits *)

Definition digit_value (c : ascii) : Z := Z.of_N (code c) - 48.

Definition decimal (digits : list ascii) : Z :=
  fold_left (fun acc c => 10 * acc + digit_value c) digits 0.

(** CPython refuses to convert more than 4300 digits
    ([sys.get_int_max_str_digits()]). *)
Definition int_max_str_digits : nat := 4300.

Definition int_of_digits (digits : list ascii) : Res Z :=
  if (length digits <=? int_max_str_digits)%nat then Ok (decimal digits)
  else Raise (Exn "ValueError" "Exceeds the limit (4300 digits) for integer string conversion").

Definition py_int (digits : string) : Res Z :=
  int_of_digits (list_ascii_of_string digits).

(** *** Parsers: shared pieces *)

Inductive parsed (A : Type) : Type :=
| Done (a : A) (rest : list ascii)
| Failed (e : exn).
Arguments Done {A} a rest.
Arguments Failed {A} e.

Definition NotImplemented {A} (what : string) : parsed A :=
  Failed (Exn "NotImplementedError" what).
Definition RecursionError {A} : parsed A :=
  Failed (Exn "RecursionError" "maximum recursion depth exceeded").

Fixpoint skip (p : ascii -> bool) (s : list ascii) : list ascii :=
  match s with
  | c :: s' => if p c then skip p s' else s
  | [] => []
  end.

Fixpoint span (p : ascii -> bool) (s : list ascii) : list ascii * list ascii :=
  match s with
  | c :: s' =>
      if p c then let '(a, b) := span p s' in (c :: a, b) else ([], s)
  | [] => ([], [])
  end.

(** [d[key] = v] on the items of a dictionary whose keys are compared by
    [eqb]: the value is replaced in place, a new key goes last. *)
Fixpoint items_set (eqb : pyval -> pyval -> bool) (items : list (pyval * pyval))
    (key v : pyval) : list (pyval * pyval) :=
  match items with
  | [] => [(key, v)]
  | (k, w) :: rest =>
      if eqb k key then (k, v) :: rest else (k, w) :: items_set eqb rest key v
  end.

(** *** Decimal literals of floats *)

(** The double nearest to [m * 10 ^ e10] (ties to even), with the sign
    [neg]: what [float] makes of a decimal literal.  A negative exponent
    is a division; its quotient is taken with 66 bits and a sticky bit, and
    rounded once. *)
Definition float_of_decimal (neg : bool) (m e10 : Z) : float :=
  let signed (x : Z) := if neg then - x else x in
  let magnitude := Z.log2 m * 3 / 10 + e10 in
  if (m =? 0)%Z then (if neg then neg_zero else zero)
  else if (400 <? magnitude)%Z then (if neg then neg_infinity else infinity)
  else if (magnitude <? -400)%Z then (if neg then neg_zero else zero)
  else if (0 <=? e10)%Z
  then SF2Prim (binary_normalize prec emax (signed (m * 10 ^ e10)) 0 false)
  else
    let d := 10 ^ (- e10) in
    let shift := Z.max 0 (Z.log2 d - Z.log2 m + 66) in
    let n := m * 2 ^ shift in
    let sticky := if (n mod d =? 0)%Z then 0 else 1 in
    SF2Prim (binary_normalize prec emax (signed (2 * (n / d) + sticky))
               (- (shift + 1)) false).

(** A fraction at the head of [s]: a point and digits, at least one digit
    when [need_digit]. *)
Definition fraction (need_digit : bool) (s : list ascii)
  : option (list ascii * list ascii) :=
  match s with
  | c :: s' =>
      if Ascii.eqb c "." then
        let '(digits, rest) := span is_digit s' in
        match digits with
        | [] => if need_digit then None else Some ([], rest)
        | _ :: _ => Some (digits, rest)
        end
      else None
  | [] => None
  end.

(** An exponent at the head of [s]: e or E, an optional sign, digits. *)
Definition exponent (s : list ascii) : option (Z * list ascii) :=
  match s with
  | c :: s' =>
      if Ascii.eqb c "e" || Ascii.eqb c "E" then
        let '(neg, s'') :=
          match s' with
          | d :: t => if Ascii.eqb d "-" then (true, t)
                      else if Ascii.eqb d "+" then (false, t) else (false, s')
          | [] => (false, s')
          end in
        let '(digits, rest) := span is_digit s'' in
        match digits with
        | [] => None
        | _ :: _ => Some (if neg then - decimal digits else decimal digits, rest)
        end
      else None
  | [] => None
  end.

(** The float written as the digits [whole], the fraction [frac] and the
    exponent [exp]. *)
Definition float_literal (neg : bool) (whole : list ascii)
    (frac : option (list ascii)) (exp : option Z) : pyval :=
  let frac := default [] frac in
  PFloat (float_of_decimal neg (decimal (whole ++ frac))
            (default 0 exp - Z.of_nat (length frac))).

(** *** Escapes in string literals *)

Definition hex_value (c : ascii) : option N :=
  let n := code c in
  if ((48 <=? n) && (n <=? 57))%N then Some (n - 48)%N
  else if ((97 <=? n) && (n <=? 102))%N then Some (n - 87)%N
  else if ((65 <=? n) && (n <=? 70))%N then Some (n - 55)%N
  else None.

Definition octal_value (c : ascii) : option N :=
  let n := code c in
  if ((48 <=? n) && (n <=? 55))%N then Some (n - 48)%N else None.

(** The number written with the digits [ds] in base [base]; [None] when
    one of them is not a digit. *)
Definition digits_value (base : N) (ds : list (option N)) : option N :=
  fold_left (fun acc d => match acc, d with
                          | Some a, Some x => Some (a * base + x)%N
                          | _, _ => None
                          end) ds (Some 0%N).

(** Puts the character of code [n] in front of a parsed string. *)
Definition prepend_code (n : N) (r : parsed string) : parsed string :=
  if (n <? 256)%N then
    match r with
    | Done str rest => Done (String (ascii_of_N n) str) rest
    | Failed e => Failed e
    end
  else NotImplemented "code point above 255".

(** *** [json.loads] *)

Definition JSONDecodeError {A} (msg : string) : parsed A :=
  Failed (Exn "JSONDecodeError" msg).

Definition json_ws (c : ascii) : bool :=
  Ascii.eqb c " " || Ascii.eqb c "009" || Ascii.eqb c "010" || Ascii.eqb c "013".

(** The body of a string, after the opening quote. *)
Fixpoint json_string (s : list ascii) : parsed string :=
  match s with
  | [] => JSONDecodeError "Unterminated string starting at"
  | c :: s' =>
      if Ascii.eqb c "034" then Done "" s'
      else if Ascii.eqb c "\" then
        match s' with
        | [] => JSONDecodeError "Unterminated string starting at"
        | e :: s'' =>
            let continue (x : ascii) :=
              match json_string s'' with
              | Done str rest => Done (String x str) rest
              | Failed err => Failed err
              end in
            if Ascii.eqb e "034" then continue "034"%char
            else if Ascii.eqb e "\" then continue "\"%char
            else if Ascii.eqb e "/" then continue "/"%char
            else if Ascii.eqb e "b" then continue "008"%char
            else if Ascii.eqb e "f" then continue "012"%char
            else if Ascii.eqb e "n" then continue "010"%char
            else if Ascii.eqb e "r" then continue "013"%char
            else if Ascii.eqb e "t" then continue "009"%char
            else if Ascii.eqb e "u" then
              match s'' with
              | h1 :: h2 :: h3 :: h4 :: s3 =>
                  match digits_value 16 (map hex_value [h1; h2; h3; h4]) with
                  | Some n => prepend_code n (json_string s3)
                  | None => JSONDecodeError "Invalid \uXXXX escape"
                  end
              | _ => JSONDecodeError "Invalid \uXXXX escape"
              end
            else JSONDecodeError "Invalid \escape"
        end
      else if (code c <? 32)%N then JSONDecodeError "Invalid control character at"
      else
        match json_string s' with
        | Done str rest => Done (String c str) rest
        | Failed err => Failed err
        end
  end.

Definition str_eqb (a b : pyval) : bool :=
  match a, b with
  | PStr x, PStr y => String.eqb x y
  | _, _ => false
  end.

Definition starts_with (w : string) (s : list ascii) : option (list ascii) :=
  let w' := list_ascii_of_string w in
  if forallb (fun '(a, b) => Ascii.eqb a b) (combine w' (firstn (length w') s))
     && (length w' <=? length s)%nat
  then Some (skipn (length w') s) else None.

(** A number at the head of [s]: an optional minus sign, then a zero or
    a run of digits that does not start with a zero; a float when a
    fraction or an exponent follows. *)
Definition json_number (s : list ascii) : parsed pyval :=
  let '(neg, s1) := match s with
                    | c :: s' => if Ascii.eqb c "-" then (true, s') else (false, s)
                    | [] => (false, s)
                    end in
  let '(digits, rest) :=
    match s1 with
    | c :: s' => if Ascii.eqb c "0" then ([c], s') else span is_digit s1
    | [] => ([], s1)
    end in
  match digits with
  | [] =>
      match starts_with "Infinity" s1 with
      | Some rest' => if neg then Done (PFloat neg_infinity) rest'
                      else JSONDecodeError "Expecting value"
      | None => JSONDecodeError "Expecting value"
      end
  | _ :: _ =>
      let '(frac, rest1) := match fraction true rest with
                            | Some (f, r) => (Some f, r)
                            | None => (None, rest)
                            end in
      let '(exp, rest2) := match exponent rest1 with
                           | Some (e, r) => (Some e, r)
                           | None => (None, rest1)
                           end in
      match frac, exp with
      | None, None =>
          match int_of_digits digits with
          | Ok n => Done (PInt (if neg then - n else n)) rest
          | Raise e => Failed e
          end
      | _, _ => Done (float_literal neg digits frac exp) rest2
      end
  end.

(** [scan_once], [JSONObject] and [JSONArray] of [json.decoder]. *)
Fixpoint json_value (fuel : nat) (s : list ascii) : parsed pyval :=
  match fuel with
  | O => RecursionError
  | S fuel' =>
      match s with
      | [] => JSONDecodeError "Expecting value"
      | c :: s' =>
          if Ascii.eqb c "034" then
            match json_string s' with
            | Done str rest => Done (PStr str) rest
            | Failed e => Failed e
            end
          else if Ascii.eqb c "{" then
            match skip json_ws s' with
            | d :: s'' =>
                if Ascii.eqb d "}" then Done (PDict []) s''
                else json_members fuel' (d :: s'') []
            | [] => JSONDecodeError "Expecting property name enclosed in double quotes"
            end
          else if Ascii.eqb c "[" then
            match skip json_ws s' with
            | d :: s'' =>
                if Ascii.eqb d "]" then Done (PList []) s''
                else json_elements fuel' (d :: s'') []
            | [] => JSONDecodeError "Expecting value"
            end
          else
            match starts_with "null" s, starts_with "true" s, starts_with "false" s with
            | Some rest, _, _ => Done PNone rest
            | _, Some rest, _ => Done (PBool true) rest
            | _, _, Some rest => Done (PBool false) rest
            | None, None, None =>
                match starts_with "NaN" s, starts_with "Infinity" s with
                | Some rest, _ => Done (PFloat nan) rest
                | _, Some rest => Done (PFloat infinity) rest
                | None, None => json_number s
                end
            end
      end
  end
with json_members (fuel : nat) (s : list ascii) (acc : list (pyval * pyval))
  : parsed pyval :=
  match fuel with
  | O => RecursionError
  | S fuel' =>
      match s with
      | c :: s' =>
          if Ascii.eqb c "034" then
            match json_string s' with
            | Done key rest =>
                match skip json_ws rest with
                | d :: rest' =>
                    if Ascii.eqb d ":" then
                      match json_value fuel' (skip json_ws rest') with
                      | Done v rest'' =>
                          let acc' := items_set str_eqb acc (PStr key) v in
                          match skip json_ws rest'' with
                          | e :: rest3 =>
                              if Ascii.eqb e "}" then Done (PDict acc') rest3
                              else if Ascii.eqb e ","
                                   then json_members fuel' (skip json_ws rest3) acc'
                              else JSONDecodeError "Expecting ',' delimiter"
                          | [] => JSONDecodeError "Expecting ',' delimiter"
                          end
                      | Failed e => Failed e
                      end
                    else JSONDecodeError "Expecting ':' delimiter"
                | [] => JSONDecodeError "Expecting ':' delimiter"
                end
            | Failed e => Failed e
            end
          else JSONDecodeError "Expecting property name enclosed in double quotes"
      | [] => JSONDecodeError "Expecting property name enclosed in double quotes"
      end
  end
with json_elements (fuel : nat) (s : list ascii) (acc : list pyval)
  : parsed pyval :=
  match fuel with
  | O => RecursionError
  | S fuel' =>
      match json_value fuel' s with
      | Done v rest =>
          match skip json_ws rest with
          | e :: rest' =>
              if Ascii.eqb e "]" then Done (PList (acc ++ [v])) rest'
              else if Ascii.eqb e ","
                   then json_elements fuel' (skip json_ws rest') (acc ++ [v])
              else JSONDecodeError "Expecting ',' delimiter"
          | [] => JSONDecodeError "Expecting ',' delimiter"
          end
      | Failed e => Failed e
      end
  end.

(** [JSONDecoder.decode]: one value between optional whitespace. *)
Definition json_loads (text : string) : Res pyval :=
  let s := list_ascii_of_string text in
  match json_value (2 * length s + 2) (skip json_ws s) with
  | Done v rest =>
      match skip json_ws rest with
      | [] => Ok v
      | _ :: _ => Raise (Exn "JSONDecodeError" "Extra data")
      end
  | Failed e => Raise e
  end.

(** *** [ast.literal_eval] *)

Definition SyntaxError {A} (msg : string) : parsed A := Failed (Exn "SyntaxError" msg).
Definition ValueError {A} (msg : string) : parsed A := Failed (Exn "ValueError" msg).
Definition Unhashable {A} : parsed A := Failed (TypeError "unhashable type").

(** Whitespace between the tokens of a bracketed expression. *)
Definition py_ws (c : ascii) : bool :=
  Ascii.eqb c " " || Ascii.eqb c "009" || Ascii.eqb c "010"
  || Ascii.eqb c "012" || Ascii.eqb c "013".

Definition is_name_start (c : ascii) : bool :=
  let n := code c in
  ((65 <=? n) && (n <=? 90) || (97 <=? n) && (n <=? 122) || (n =? 95)
   || (128 <=? n))%N.
Definition is_name_char (c : ascii) : bool := is_name_start c || is_digit c.

(** The body of a short string literal, after the opening [quote]. *)
Fixpoint py_string (quote : ascii) (s : list ascii) : parsed string :=
  match s with
  | [] => SyntaxError "unterminated string literal"
  | c :: s' =>
      if Ascii.eqb c quote then Done "" s'
      else if Ascii.eqb c "\" then
        match s' with
        | [] => SyntaxError "unterminated string literal"
        | e :: s'' =>
            let continue (x : ascii) :=
              match py_string quote s'' with
              | Done str rest => Done (String x str) rest
              | Failed err => Failed err
              end in
            if Ascii.eqb e "\" then continue "\"%char
            else if Ascii.eqb e "'" then continue "'"%char
            else if Ascii.eqb e "034" then continue "034"%char
            else if Ascii.eqb e "n" then continue "010"%char
            else if Ascii.eqb e "r" then continue "013"%char
            else if Ascii.eqb e "t" then continue "009"%char
            else if Ascii.eqb e "a" then continue "007"%char
            else if Ascii.eqb e "b" then continue "008"%char
            else if Ascii.eqb e "f" then continue "012"%char
            else if Ascii.eqb e "v" then continue "011"%char
            else if Ascii.eqb e "010" then py_string quote s''
            else if Ascii.eqb e "x" then
              match s'' with
              | h1 :: h2 :: s3 =>
                  match digits_value 16 (map hex_value [h1; h2]) with
                  | Some n => prepend_code n (py_string quote s3)
                  | None => SyntaxError "truncated \xXX escape"
                  end
              | _ => SyntaxError "truncated \xXX escape"
              end
            else if bool_decide (is_Some (octal_value e)) then
              match s'' with
              | o2 :: s3 =>
                  if bool_decide (is_Some (octal_value o2)) then
                    match s3 with
                    | o3 :: s4 =>
                        if bool_decide (is_Some (octal_value o3))
                        then prepend_code
                               (default 0%N (digits_value 8 (map octal_value [e; o2; o3])))
                               (py_string quote s4)
                        else prepend_code
                               (default 0%N (digits_value 8 (map octal_value [e; o2])))
                               (py_string quote s3)
                    | [] => SyntaxError "unterminated string literal"
                    end
                  else prepend_code (default 0%N (octal_value e)) (py_string quote s'')
              | [] => SyntaxError "unterminated string literal"
              end
            else if Ascii.eqb e "N" || Ascii.eqb e "u" || Ascii.eqb e "U"
                    || Ascii.eqb e "013" || Ascii.eqb e "000"
            then NotImplemented "escape sequence"
            else
              match py_string quote s'' with
              | Done str rest => Done (String "\" (String e str)) rest
              | Failed err => Failed err
              end
        end
      else if Ascii.eqb c "010" || Ascii.eqb c "013"
      then SyntaxError "unterminated string literal"
      else if Ascii.eqb c "000"
      then SyntaxError "source code string cannot contain null bytes"
      else
        match py_string quote s' with
        | Done str rest => Done (String c str) rest
        | Failed err => Failed err
        end
  end.

(** A decimal integer or float literal at the head of [s]. *)
Definition py_number (neg : bool) (s : list ascii) : parsed pyval :=
  let '(digits, rest) := span is_digit s in
  let '(frac, rest1) := match fraction (negb (nonempty digits)) rest with
                        | Some (f, r) => (Some f, r)
                        | None => (None, rest)
                        end in
  let '(exp, rest2) :=
    if nonempty digits || nonempty (default [] frac) then
      match exponent rest1 with
      | Some (e, r) => (Some e, r)
      | None => (None, rest1)
      end
    else (None, rest1) in
  let plain :=
    match rest2 with
    | c :: _ => negb (is_name_char c || Ascii.eqb c ".")
    | [] => true
    end in
  let zeros := forallb (fun c => Ascii.eqb c "0") digits in
  match digits, frac, exp with
  | [], None, _ => NotImplemented "signed expression"
  | d :: _, None, None =>
      if negb plain then NotImplemented "number syntax"
      else if Ascii.eqb d "0" && negb zeros
      then SyntaxError "leading zeros in decimal integer literals are not permitted"
      else match int_of_digits digits with
           | Ok n => Done (PInt (if neg then - n else n)) rest
           | Raise e => Failed e
           end
  | _, _, _ =>
      if negb plain then NotImplemented "number syntax"
      else Done (float_literal neg digits frac exp) rest2
  end.

(** The integer a float is equal to, if any. *)
Definition float_as_Z (x : float) : option Z :=
  match Prim2SF x with
  | S754_zero _ => Some 0
  | S754_finite sign m e =>
      let m := if sign then Z.neg m else Z.pos m in
      if (0 <=? e)%Z then Some (m * 2 ^ e)
      else if (m mod 2 ^ (- e) =? 0)%Z then Some (m / 2 ^ (- e)) else None
  | _ => None
  end.

(** Values that can be a dictionary key or a member of a set. *)
Fixpoint hashable (v : pyval) : bool :=
  match v with
  | PList _ | PSet _ | PDict _ => false
  | PTuple l => forallb hashable l
  | _ => true
  end.

(** [==] on the hashable values of the fragment; [True == 1]. *)
Fixpoint py_eqb (a b : pyval) : bool :=
  match a, b with
  | PNone, PNone | PEllipsis, PEllipsis => true
  | PBool x, PBool y => Bool.eqb x y
  | PInt x, PInt y => Z.eqb x y
  | PBool x, PInt y | PInt y, PBool x => Z.eqb (Z.b2z x) y
  | PFloat x, PFloat y => PrimFloat.eqb x y
  | PFloat x, PInt y | PInt y, PFloat x =>
      match float_as_Z x with Some n => Z.eqb n y | None => false end
  | PFloat x, PBool y | PBool y, PFloat x =>
      match float_as_Z x with Some n => Z.eqb n (Z.b2z y) | None => false end
  | PStr x, PStr y => String.eqb x y
  | PTuple x, PTuple y =>
      (fix all2 (x y : list pyval) : bool :=
         match x, y with
         | [], [] => true
         | u :: x', v :: y' => py_eqb u v && all2 x' y'
         | _, _ => false
         end) x y
  | _, _ => false
  end.

Definition set_add (members : list pyval) (v : pyval) : list pyval :=
  if existsb (py_eqb v) members then members else members ++ [v].

(** The tokenizer accepts at most 200 open brackets. *)
Definition MAXLEVEL : nat := 200.

(** What may follow the first element of a display. *)
Inductive closer : Type := CloseList | CloseTuple | CloseSet.

Definition closing (cl : closer) : ascii :=
  match cl with CloseList => "]" | CloseTuple => ")" | CloseSet => "}" end%char.

Definition build (cl : closer) (had_comma : bool) (acc : list pyval)
    (rest : list ascii) : parsed pyval :=
  match cl with
  | CloseList => Done (PList acc) rest
  | CloseSet =>
      if forallb hashable acc then Done (PSet (fold_left set_add acc [])) rest
      else Unhashable
  | CloseTuple =>
      match acc, had_comma with
      | [v], false => Done v rest
      | _, _ => Done (PTuple acc) rest
      end
  end.

Fixpoint py_value (fuel level : nat) (s : list ascii) : parsed pyval :=
  match fuel with
  | O => RecursionError
  | S fuel' =>
      let open (body : list ascii -> parsed pyval) (s' : list ascii) :=
        if (level <? MAXLEVEL)%nat then body (skip py_ws s')
        else SyntaxError "too many nested parentheses" in
      match s with
      | [] => SyntaxError "invalid syntax"
      | c :: s' =>
          if Ascii.eqb c "'" || Ascii.eqb c "034" then
            match s' with
            | a :: b :: _ =>
                if Ascii.eqb a c && Ascii.eqb b c
                then NotImplemented "triple-quoted string"
                else match py_string c s' with
                     | Done str rest => Done (PStr str) rest
                     | Failed e => Failed e
                     end
            | _ => match py_string c s' with
                   | Done str rest => Done (PStr str) rest
                   | Failed e => Failed e
                   end
            end
          else if is_digit c then py_number false s
          else if Ascii.eqb c "-" then py_number true (skip py_ws s')
          else if Ascii.eqb c "+" then py_number false (skip py_ws s')
          else if Ascii.eqb c "[" then
            open (fun r =>
              match r with
              | d :: r' =>
                  if Ascii.eqb d "]" then Done (PList []) r'
                  else match py_value fuel' (S level) r with
                       | Done v r1 => py_seq fuel' (S level) CloseList false r1 [v]
                       | Failed e => Failed e
                       end
              | [] => SyntaxError "'[' was never closed"
              end) s'
          else if Ascii.eqb c "(" then
            open (fun r =>
              match r with
              | d :: r' =>
                  if Ascii.eqb d ")" then Done (PTuple []) r'
                  else match py_value fuel' (S level) r with
                       | Done v r1 => py_seq fuel' (S level) CloseTuple false r1 [v]
                       | Failed e => Failed e
                       end
              | [] => SyntaxError "'(' was never closed"
              end) s'
          else if Ascii.eqb c "{" then
            open (fun r =>
              match r with
              | d :: r' =>
                  if Ascii.eqb d "}" then Done (PDict []) r'
                  else
                    match py_value fuel' (S level) r with
                    | Done k r1 =>
                        match skip py_ws r1 with
                        | e :: r2 =>
                            if Ascii.eqb e ":" then
                              match py_value fuel' (S level) (skip py_ws r2) with
                              | Done v r3 =>
                                  if hashable k
                                  then py_items fuel' (S level) r3 [(k, v)]
                                  else match py_items fuel' (S level) r3 [] with
                                       | Done _ _ => Unhashable
                                       | Failed err => Failed err
                                       end
                              | Failed err => Failed err
                              end
                            else py_seq fuel' (S level) CloseSet false r1 [k]
                        | [] => SyntaxError "'{' was never closed"
                        end
                    | Failed e => Failed e
                    end
              | [] => SyntaxError "'{' was never closed"
              end) s'
          else if is_name_start c then
            let '(name, rest) := span is_name_char s in
            let follows_quote :=
              match rest with
              | q :: _ => Ascii.eqb q "'" || Ascii.eqb q "034"
              | [] => false
              end in
            let name := string_of_list_ascii name in
            if follows_quote then NotImplemented "string prefix"
            else if String.eqb name "None" then Done PNone rest
            else if String.eqb name "True" then Done (PBool true) rest
            else if String.eqb name "False" then Done (PBool false) rest
            else if String.eqb name "set" then NotImplemented "set()"
            else ValueError "malformed node or string"
          else if Ascii.eqb c "." then
            match starts_with "..." s, s' with
            | Some rest, _ => Done PEllipsis rest
            | None, d :: _ => if is_digit d then py_number false s
                              else SyntaxError "invalid syntax"
            | None, [] => SyntaxError "invalid syntax"
            end
          else SyntaxError "invalid syntax"
      end
  end
(** After an element of a list, tuple or set display. *)
with py_seq (fuel level : nat) (cl : closer) (had_comma : bool)
    (s : list ascii) (acc : list pyval) : parsed pyval :=
  match fuel with
  | O => RecursionError
  | S fuel' =>
      match skip py_ws s with
      | c :: s' =>
          if Ascii.eqb c (closing cl) then build cl had_comma acc s'
          else if Ascii.eqb c "," then
            match skip py_ws s' with
            | d :: s'' =>
                if Ascii.eqb d (closing cl) then build cl true acc s''
                else match py_value fuel' level (d :: s'') with
                     | Done v r => py_seq fuel' level cl true r (acc ++ [v])
                     | Failed e => Failed e
                     end
            | [] => SyntaxError "bracket was never closed"
            end
          else NotImplemented "operator or adjacent literal"
      | [] => SyntaxError "bracket was never closed"
      end
  end
(** After an item of a dictionary display. *)
with py_items (fuel level : nat) (s : list ascii) (acc : list (pyval * pyval))
  : parsed pyval :=
  match fuel with
  | O => RecursionError
  | S fuel' =>
      let item (r : list ascii) :=
        match py_value fuel' level r with
        | Done k r1 =>
            match skip py_ws r1 with
            | e :: r2 =>
                if Ascii.eqb e ":" then
                  match py_value fuel' level (skip py_ws r2) with
                  | Done v r3 =>
                      if hashable k
                      then py_items fuel' level r3 (items_set py_eqb acc k v)
                      else match py_items fuel' level r3 acc with
                           | Done _ _ => Unhashable
                           | Failed err => Failed err
                           end
                  | Failed err => Failed err
                  end
                else NotImplemented "dictionary item"
            | [] => SyntaxError "'{' was never closed"
            end
        | Failed e => Failed e
        end in
      match skip py_ws s with
      | c :: s' =>
          if Ascii.eqb c "}" then Done (PDict acc) s'
          else if Ascii.eqb c "," then
            match skip py_ws s' with
            | d :: s'' =>
                if Ascii.eqb d "}" then Done (PDict acc) s'' else item (d :: s'')
            | [] => SyntaxError "'{' was never closed"
            end
          else NotImplemented "operator or adjacent literal"
      | [] => SyntaxError "'{' was never closed"
      end
  end.

(** [ast.literal_eval] on a string: one literal between optional
    whitespace. *)
Definition ast_literal_eval (text : string) : Res pyval :=
  let s := list_ascii_of_string text in
  match py_value (2 * length s + 2) 0 (skip py_ws s) with
  | Done v rest =>
      match skip py_ws rest with
      | [] => Ok v
      | _ :: _ => Raise (Exn "NotImplementedError" "operator or adjacent literal")
      end
  | Failed e => Raise e
  end.

Definition lib : PyLib :=
  Build_PyLib re_search re_findall json_loads ast_literal_eval py_int.

End RefLib.

(* ===================================================================== *)
(** ** Settings, records and the outside world                             *)
(* ===================================================================== *)

(** The fields of [config.Settings] the controller reads. *)
Record Settings : Type := {
  STUDENT_EMAIL : string;
  STUDENT_SECRET : string;
  QUIZ_TIMEOUT_SECONDS : Z;
  SKIP_THRESHOLD_SECONDS : Z
}.

(** The attributes [QuizHandler.__init__] stores from its arguments. *)
Record QuizHandler : Type := { email : string; secret : string }.

(** The dictionary [BrowserEngine.visit_quiz_page] returns. *)
Record QuestionData : Type := {
  question_text : string;
  raw_html : string;
  url : pyval
}.

(** The body of the fallback POST. *)
Record Payload : Type := {
  payload_email : string;
  payload_secret : string;
  payload_url : pyval;
  payload_answer : string
}.

(** The three names [execute_code] adds to the namespace of the executed
    code. *)
Record Injected : Type := {
  inj_STUDENT_EMAIL : string;
  inj_STUDENT_SECRET : string;
  inj_QUIZ_URL : pyval
}.

(** A [requests.Response]; [resp_json] is what [response.json()] does. *)
Record Response : Type := {
  resp_status_code : Z;
  resp_text : string;
  resp_json : Res pyval
}.

(** The dictionary [execute_code] returns; its key [traceback], which
    nothing reads, is left out. *)
Record ExecutionResult : Type := {
  success : bool;
  output : string;
  error : option string;
  submission_result : gmap string pyval
}.

Inductive Status : Type := Correct | Incorrect | Skipped | Error.

(** The dictionary [solve_single_quiz] returns. *)
Record Outcome : Type := { status : Status; next_url : pyval }.

(** The counters of [solve_quiz_sequence]. *)
Record SequenceStats : Type := {
  total : Z;
  n_correct : Z;
  n_incorrect : Z;
  n_skipped : Z;
  n_errors : Z
}.

(** The validated body of the triggering request ([main.QuizRequest]). *)
Record QuizRequest : Type := {
  req_email : string;
  req_secret : string;
  req_url : string
}.

(** The reply of [handle_quiz] to the triggering request. *)
Inductive Reply : Type :=
| Accepted (email url : string)
| Rejected (status_code : Z) (detail : string).

(** What the program does to the outside world, in the order it does it. *)
Inductive Event : Type :=
| EvVisit (quiz_url : pyval)
| EvGenerate (question_data : QuestionData) (previous_error : pyval)
    (failed_code previous_output : option string)
| EvAnalyze (question_data : QuestionData) (code : string) (error : option string)
| EvExec (code : string) (injected : Injected)
| EvPost (target : pyval) (body : Payload).

(** The collaborators of the controller, as deterministic functions of a
    world state [W] of any type.
    - [clock] is [datetime.now()], in microseconds.
    - [browse url] is [BrowserEngine.visit_quiz_page]: the question text and
      the page content, or the exception it re-raises.
    - [llm_generate] is [LLMSolver.generate_solution], which returns [None]
      when the model call fails; [llm_analyze] is
      [LLMSolver.analyze_error_and_retry], which re-raises.
    - [run code injected] is [exec(code, execution_env)] for a string
      [code]: what the code wrote to standard output, and the exception it
      ended with, if any.  The exception is an instance of [Exception], the
      class [execute_code] catches, and the program ends and leaves the
      captured output readable; the module [CodeExecutor] below embeds
      [execute_code] on the other programs as well.
    - [http_post] is [requests.post(url, json=body)]. *)
Record Env (W : Type) : Type := {
  clock : W -> Z * W;
  browse : pyval -> W -> Res (string * string) * W;
  llm_generate : QuestionData -> pyval -> option string -> option string ->
                 W -> option string * W;
  llm_analyze : QuestionData -> string -> option string -> W -> Res string * W;
  run : string -> Injected -> W -> (string * option exn) * W;
  http_post : pyval -> Payload -> W -> Res Response * W
}.
Arguments clock {W}.
Arguments browse {W}.
Arguments llm_generate {W}.
Arguments llm_analyze {W}.
Arguments run {W}.
Arguments http_post {W}.

(** The state of a run: the world and the events so far. *)
Record State (W : Type) : Type := { world : W; trace : list Event }.
Arguments Build_State {W}.
Arguments world {W}.
Arguments trace {W}.

(** Seconds as microseconds: the resolution of [datetime]. *)
Definition seconds (n : Z) : Z := n * 1000000.

(* ===================================================================== *)
(** ** The execution adapter and the sequence controller                   *)
(* ===================================================================== *)

Section Controller.
Context {W : Type}.
Variable env : Env W.
Variable lib : PyLib.
Variable settings : Settings.

(** A call to a collaborator that leaves no event. *)
Definition silent {A} (f : W -> A * W) : SE (State W) A :=
  fun st => let '(a, w) := f (world st) in
            (Ok a, {| world := w; trace := trace st |}).

(** A call to a collaborator, recorded in the trace. *)
Definition call {A} (ev : Event) (f : W -> A * W) : SE (State W) A :=
  fun st => let '(a, w) := f (world st) in
            (Ok a, {| world := w; trace := trace st ++ [ev] |}).

(** A recorded call that returns or raises. *)
Definition call_res {A} (ev : Event) (f : W -> Res A * W) : SE (State W) A :=
  r ← call ev f; lift r.

Definition now : SE (State W) Z := silent (clock env).

(** [settings.QUIZ_TIMEOUT_SECONDS - (datetime.now() - start_time).total_seconds()],
    in microseconds. *)
Definition remaining_at (start_time t : Z) : Z :=
  seconds (QUIZ_TIMEOUT_SECONDS settings) - (t - start_time).

(** [remaining > settings.SKIP_THRESHOLD_SECONDS * 2] *)
Definition enough_time (remaining : Z) : bool :=
  (seconds (SKIP_THRESHOLD_SECONDS settings * 2) <? remaining)%Z.

(** [remaining < settings.SKIP_THRESHOLD_SECONDS] *)
Definition below_threshold (remaining : Z) : bool :=
  (remaining <? seconds (SKIP_THRESHOLD_SECONDS settings))%Z.

(** [async with BrowserEngine() as browser: browser.visit_quiz_page(quiz_url)] *)
Definition visit_quiz_page (quiz_url : pyval) : SE (State W) QuestionData :=
  '(text, html) ← call_res (EvVisit quiz_url) (browse env quiz_url);
  mret {| question_text := text; raw_html := html; url := quiz_url |}.

Definition generate_solution (question_data : QuestionData)
    (previous_error : pyval) (failed_code previous_output : option string)
  : SE (State W) (option string) :=
  call (EvGenerate question_data previous_error failed_code previous_output)
    (llm_generate env question_data previous_error failed_code previous_output).

Definition analyze_error_and_retry (question_data : QuestionData)
    (code : string) (error : option string) : SE (State W) string :=
  call_res (EvAnalyze question_data code error)
    (llm_analyze env question_data code error).

(** *** [CodeExecutor.execute_code] *)

(** [f"{type(e).__name__}: {str(e)}"] *)
Definition error_msg (e : exn) : string :=
  exn_type e +:+ ": " +:+ exn_msg e.

(** [exec(code, execution_env)] with standard output captured.  [exec]
    raises [TypeError] at once when [code] is [None]. *)
Definition exec (code : option string) (injected : Injected)
  : SE (State W) (string * option exn) :=
  match code with
  | Some code => call (EvExec code injected) (run env code injected)
  | None =>
      mret ("", Some (TypeError "exec() arg 1 must be a string, bytes or code object"))
  end.

(** Inject credentials and quiz URL into environment. *)
Definition inject (quiz_url : pyval) : Injected :=
  {| inj_STUDENT_EMAIL := STUDENT_EMAIL settings;
     inj_STUDENT_SECRET := STUDENT_SECRET settings;
     inj_QUIZ_URL := quiz_url |}.

Definition execute_code (code : option string) (quiz_url : pyval)
  : SE (State W) ExecutionResult :=
  '(captured_output, raised) ← exec code (inject quiz_url);
  (* finally: *)
  submission ← (if negb (String.eqb captured_output "")
                then lift (_parse_submission_result lib captured_output)
                else mret ∅);
  mret {| success := match raised with None => true | Some _ => false end;
          output := captured_output;
          error := error_msg <$> raised;
          submission_result := submission |}.

(** *** [QuizHandler.submit_fallback] *)

Definition fallback_payload (quiz_url : pyval) : Payload :=
  {| payload_email := STUDENT_EMAIL settings;
     payload_secret := STUDENT_SECRET settings;
     payload_url := quiz_url;
     payload_answer := "FAILED" |}.

Definition submit_fallback (self : QuizHandler) (quiz_url : pyval)
  : SE (State W) (option Response) :=
  let fallback_payload := fallback_payload quiz_url in
  try_except
    (response ← call_res (EvPost quiz_url fallback_payload)
                  (http_post env quiz_url fallback_payload);
     mret (Some response))
    (fun _ => mret None).

Definition error_outcome : Outcome := {| status := Error; next_url := PNone |}.

(** The block that follows every call of [submit_fallback]:
    [data = fallback_resp.json()], [data.get("url", None)], and the bare
    [except] around the two. *)
Definition fallback_outcome (self : QuizHandler) (quiz_url : pyval)
  : SE (State W) Outcome :=
  fallback_resp ← submit_fallback self quiz_url;
  try_except
    (data ← match fallback_resp with
            | Some response => lift (resp_json response)
            | None => raise (AttributeError "'NoneType' object has no attribute 'json'")
            end;
     next_url ← lift (py_get data "url");
     mret {| status := Incorrect; next_url := next_url |})
    (fun _ => mret error_outcome).

(** *** [QuizHandler.retry_with_fix] *)

Definition retry_with_fix (self : QuizHandler) (question_data : QuestionData)
    (quiz_url : pyval) (failed_code : string) (error : option string)
    (start_time : Z) : SE (State W) Outcome :=
  t ← now;
  if below_threshold (remaining_at start_time t) then mret error_outcome
  else
    try_except
      (fixed_code ← analyze_error_and_retry question_data failed_code error;
       execution_result ← execute_code (Some fixed_code) quiz_url;
       if negb (success execution_result) then mret error_outcome
       else
         let submission_result := submission_result execution_result in
         if truthy (dict_get submission_result "correct")
         then mret {| status := Correct;
                      next_url := dict_get submission_result "next_url" |}
         else mret {| status := Incorrect;
                      next_url := dict_get submission_result "next_url" |})
      (fun _ => mret error_outcome).

(** *** [QuizHandler.retry_with_feedback] *)

Definition retry_with_feedback (self : QuizHandler) (question_data : QuestionData)
    (quiz_url : pyval) (error_reason : pyval) (failed_code previous_output : string)
    (start_time : Z) : SE (State W) Outcome :=
  t ← now;
  if below_threshold (remaining_at start_time t)
  then mret {| status := Incorrect; next_url := PNone |}
  else
    try_except
      (retry_code ← generate_solution question_data error_reason
                      (Some failed_code) (Some previous_output);
       execution_result ← execute_code retry_code quiz_url;
       if negb (success execution_result) then mret error_outcome
       else
         let submission_result := submission_result execution_result in
         if bool_decide (submission_result = ∅) then mret error_outcome
         else if truthy (dict_get submission_result "correct")
         then mret {| status := Correct;
                      next_url := dict_get submission_result "next_url" |}
         else mret {| status := Incorrect;
                      next_url := dict_get submission_result "next_url" |})
      (fun _ => mret error_outcome).

(** *** [QuizHandler.solve_single_quiz] *)

(** Step 4: Parse submission result from output. *)
Definition decide_outcome (self : QuizHandler) (question_data : QuestionData)
    (quiz_url : pyval) (solution_code : string)
    (execution_result : ExecutionResult) (start_time : Z)
  : SE (State W) Outcome :=
  let submission_result := submission_result execution_result in
  let previous_output := output execution_result in
  if bool_decide (submission_result = ∅) then fallback_outcome self quiz_url
  else if truthy (dict_get submission_result "correct")
  then mret {| status := Correct;
               next_url := dict_get submission_result "next_url" |}
  else if is_False (dict_get submission_result "correct") then
    let reason := default (PStr "No reason provided") (submission_result !! "reason") in
    t ← now;
    let remaining := remaining_at start_time t in
    let verdict_url := dict_get submission_result "next_url" in
    if enough_time remaining then
      retry_result ← retry_with_feedback self question_data quiz_url reason
                       solution_code previous_output start_time;
      if negb (truthy (next_url retry_result)) && truthy verdict_url
      then mret {| status := status retry_result; next_url := verdict_url |}
      else mret retry_result
    else if truthy verdict_url
    then mret {| status := Skipped; next_url := verdict_url |}
    else mret {| status := Incorrect; next_url := PNone |}
  else mret error_outcome.

(** Step 3: Execute the code (includes submission). *)
Definition execute_solution (self : QuizHandler) (question_data : QuestionData)
    (quiz_url : pyval) (solution_code : string) (start_time : Z)
  : SE (State W) Outcome :=
  execution_result ← execute_code (Some solution_code) quiz_url;
  if negb (success execution_result) then
    t ← now;
    let remaining := remaining_at start_time t in
    if enough_time remaining
    then retry_with_fix self question_data quiz_url solution_code
           (error execution_result) start_time
    else fallback_outcome self quiz_url
  else decide_outcome self question_data quiz_url solution_code
         execution_result start_time.

(** Step 1: Visit the quiz page with browser.  Step 2: Generate and
    execute solution code with LLM.  [inr outcome] is a [return outcome]
    inside these steps; [inl] falls through to Step 3 with the question
    and the code. *)
Definition generate_step (self : QuizHandler) (quiz_url : pyval) (start_time : Z)
  : SE (State W) (QuestionData * string + Outcome) :=
  question_data ← visit_quiz_page quiz_url;
  solution_code ← generate_solution question_data PNone None None;
  match solution_code with
  | None =>
      t ← now;
      let remaining := remaining_at start_time t in
      if enough_time remaining then
        solution_code ← generate_solution question_data PNone None None;
        match solution_code with
        | None => mret (inr error_outcome)
        | Some solution_code => mret (inl (question_data, solution_code))
        end
      else
        outcome ← fallback_outcome self quiz_url;
        mret (inr outcome)
  | Some solution_code => mret (inl (question_data, solution_code))
  end.

(** The whole method: the four steps inside [try: ... except Exception]. *)
Definition solve_single_quiz (self : QuizHandler) (quiz_url : pyval)
    (time_remaining : Z) (start_time : Z) : SE (State W) Outcome :=
  try_except
    (generated ← generate_step self quiz_url start_time;
     match generated with
     | inr outcome => mret outcome
     | inl (question_data, solution_code) =>
         execute_solution self question_data quiz_url solution_code start_time
     end)
    (fun _ => mret error_outcome).

(** *** [QuizHandler.solve_quiz_sequence] *)

(** [stats['total'] += 1] and the counter of the status. *)
Definition count (stats : SequenceStats) (result : Outcome) : SequenceStats :=
  let bump (st : Status) (n : Z) : Z :=
    match st, status result with
    | Correct, Correct | Incorrect, Incorrect
    | Error, Error | Skipped, Skipped => n + 1
    | _, _ => n
    end in
  {| total := total stats + 1;
     n_correct := bump Correct (n_correct stats);
     n_incorrect := bump Incorrect (n_incorrect stats);
     n_skipped := bump Skipped (n_skipped stats);
     n_errors := bump Error (n_errors stats) |}.

(** [while current_url: ...].  The loop has no bound of its own; [fuel]
    bounds the number of questions, and [None] is a chain still running
    when it is spent.  The method only logs the counters; the model
    returns them. *)
Fixpoint chain_loop (fuel : nat) (self : QuizHandler) (current_url : pyval)
    (stats : SequenceStats) : SE (State W) (option SequenceStats) :=
  if truthy current_url then
    match fuel with
    | O => mret None
    | S fuel' =>
        question_start_time ← now;
        t ← now;
        let remaining := remaining_at question_start_time t in
        _ ← now;
        result ← solve_single_quiz self current_url remaining question_start_time;
        let stats := count stats result in
        let next_url := next_url result in
        if truthy next_url then chain_loop fuel' self next_url stats
        else mret (Some stats)
    end
  else mret (Some stats).

Definition solve_quiz_sequence (fuel : nat) (self : QuizHandler)
    (initial_url : pyval) (sequence_start_time : Z)
  : SE (State W) (option SequenceStats) :=
  stats ← chain_loop fuel self initial_url
            {| total := 0; n_correct := 0; n_incorrect := 0;
               n_skipped := 0; n_errors := 0 |};
  _ ← now;
  mret stats.

(** *** [main.handle_quiz] and [main.solve_quiz_async] *)

(** The reply to a request whose secret is wrong is 403 and nothing is
    started; otherwise the reply is 200, it repeats the email and the url
    of the request, and the chain runs as a background task with a handler
    built from the request.  [solve_quiz_async] logs what the chain
    raises. *)
Definition handle_quiz (fuel : nat) (request : QuizRequest)
  : SE (State W) (Reply * option SequenceStats) :=
  start_time ← now;
  if negb (String.eqb (req_secret request) (STUDENT_SECRET settings))
  then mret (Rejected 403 "Invalid secret", None)
  else
    let handler := {| email := req_email request; secret := req_secret request |} in
    stats ← try_except
              (solve_quiz_sequence fuel handler (PStr (req_url request)) start_time)
              (fun _ => mret None);
    mret (Accepted (req_email request) (req_url request), stats).

End Controller.

(* ===================================================================== *)
(** ** A scripted world                                                    *)
(* ===================================================================== *)

(** A world that answers each kind of call from a list, one answer per
    call whatever the arguments; it is used to run the controller on
    concrete scenarios.  A list that is used up answers with a failure
    (the clock with 0). *)
Module Scripted.

Record Script : Type := {
  ticks : list Z;
  pages : list (Res (string * string));
  generations : list (option string);
  analyses : list (Res string);
  runs : list (string * option exn);
  posts : list (Res Response)
}.

Definition exhausted {A} : Res A := Raise (Exn "RuntimeError" "script exhausted").

Definition env : Env Script :=
  {| clock := fun w =>
       (hd 0 (ticks w),
        {| ticks := tl (ticks w); pages := pages w; generations := generations w;
           analyses := analyses w; runs := runs w; posts := posts w |});
     browse := fun _ w =>
       (hd exhausted (pages w),
        {| ticks := ticks w; pages := tl (pages w); generations := generations w;
           analyses := analyses w; runs := runs w; posts := posts w |});
     llm_generate := fun _ _ _ _ w =>
       (hd None (generations w),
        {| ticks := ticks w; pages := pages w; generations := tl (generations w);
           analyses := analyses w; runs := runs w; posts := posts w |});
     llm_analyze := fun _ _ _ w =>
       (hd exhausted (analyses w),
        {| ticks := ticks w; pages := pages w; generations := generations w;
           analyses := tl (analyses w); runs := runs w; posts := posts w |});
     run := fun _ _ w =>
       (hd ("", Some (Exn "RuntimeError" "script exhausted")) (runs w),
        {| ticks := ticks w; pages := pages w; generations := generations w;
           analyses := analyses w; runs := tl (runs w); posts := posts w |});
     http_post := fun _ _ w =>
       (hd exhausted (posts w),
        {| ticks := ticks w; pages := pages w; generations := generations w;
           analyses := analyses w; runs := runs w; posts := tl (posts w) |}) |}.

(** The settings of [config.py], with a secret. *)
Definition settings : Settings :=
  {| STUDENT_EMAIL := "24f1001827@ds.study.iitm.ac.in";
     STUDENT_SECRET := "s3cret";
     QUIZ_TIMEOUT_SECONDS := 180;
     SKIP_THRESHOLD_SECONDS := 15 |}.

Definition handler : QuizHandler :=
  {| email := "someone@example.org"; secret := "s3cret" |}.

Definition quiz_url : pyval := PStr "https://x/q1".

Definition start (w : Script) : State Script := {| world := w; trace := [] |}.

End Scripted.

(* ===================================================================== *)
(** ** [CodeExecutor.execute_code] on every program                        *)
(* ===================================================================== *)

(** [run] of [Env] describes a program that ends, normally or with an
    instance of [Exception], and leaves the buffer that captures its output
    readable; the controller above is embedded on these programs.  The
    method itself meets other programs as well, and this module embeds it
    on all of them:
    - [except Exception] does not catch [SystemExit], [KeyboardInterrupt]
      or [GeneratorExit]: after the [finally] block the exception goes on
      to the caller;
    - [captured_output.getvalue()], in the [finally] block, raises
      [ValueError] when the program closed [sys.stdout]; the exception
      replaces whatever [exec] raised;
    - [exec] does not return when the program does not end. *)
Module CodeExecutor.

(** How [exec(code, execution_env)] ends. *)
Inductive Ending : Type :=
| Completed
| RaisedException (e : exn)
| RaisedBaseException (e : exn).

(** A run that ends: how it ended, and what [captured_output.getvalue()]
    gives afterwards, [None] when the buffer is closed. *)
Record Execution : Type := {
  ending : Ending;
  captured : option string
}.

(** [exec] on a string of code, in a world [W]: [None] when the program
    does not end. *)
Definition Interpreter (W : Type) : Type :=
  string -> Injected -> W -> option (Execution * W).

(** What a call does: it returns, it raises an instance of [Exception],
    it raises an exception that is not one, or it does not end. *)
Inductive Completion (A : Type) : Type :=
| Returns (a : A)
| Raises (e : exn)
| Escapes (e : exn)
| Hangs.
Arguments Returns {A} a.
Arguments Raises {A} e.
Arguments Escapes {A} e.
Arguments Hangs {A}.

(** [io.StringIO.getvalue] on a closed buffer. *)
Definition closed_file : exn := Exn "ValueError" "I/O operation on closed file".

Section Method.
Context {W : Type}.
Variable interpreter : Interpreter W.
Variable lib : PyLib.
Variable settings : Settings.

(** [exec(code, execution_env)]: [TypeError] at once, with nothing
    written, when [code] is [None]. *)
Definition exec (code : option string) (injected : Injected) (st : State W)
  : option (Execution * State W) :=
  match code with
  | Some code =>
      match interpreter code injected (world st) with
      | Some (execution, w) =>
          Some (execution,
                {| world := w; trace := trace st ++ [EvExec code injected] |})
      | None => None
      end
  | None =>
      Some ({| ending := RaisedException
                           (TypeError "exec() arg 1 must be a string, bytes or code object");
               captured := Some "" |}, st)
  end.

Definition execute_code (code : option string) (quiz_url : pyval) (st : State W)
  : Completion (ExecutionResult * State W) :=
  match exec code (inject settings quiz_url) st with
  | None => Hangs
  | Some (execution, st') =>
      (* finally: *)
      match captured execution with
      | None => Raises closed_file
      | Some captured_output =>
          match (if negb (String.eqb captured_output "")
                 then _parse_submission_result lib captured_output
                 else Ok ∅) with
          | Raise e => Raises e
          | Ok submission =>
              match ending execution with
              | Completed =>
                  Returns ({| success := true; output := captured_output;
                              error := None; submission_result := submission |}, st')
              | RaisedException e =>
                  Returns ({| success := false; output := captured_output;
                              error := Some (error_msg e);
                              submission_result := submission |}, st')
              | RaisedBaseException e => Escapes e
              end
          end
      end
  end.

End Method.


(** An interpreter that runs a script: one entry per program, [None] for
    a program that does not end. *)
Definition scripted : Interpreter (list (option Execution)) :=
  fun _ _ w =>
    match w with
    | Some execution :: rest => Some (execution, rest)
    | None :: _ => None
    | [] => Some ({| ending := RaisedException (Exn "RuntimeError" "script exhausted");
                     captured := Some "" |}, [])
    end.

End CodeExecutor.

(* ===================================================================== *)
(** ** The language-model adapter: [LLMSolver]                             *)
(* ===================================================================== *)

(** [LLMSolver._clean_code], [_build_prompt] and the two methods that call
    the model.  The three substitutions of [_clean_code] are interpreted
    with the matcher of [RefLib]; the patterns are
    - [^```python\s*\n] and [^```\s*\n] with [re.MULTILINE], where [^]
      matches at the start of the text and after every newline, and
    - [\n```\s*$] without it, where [$] matches at the end of the text and
      before a newline that ends the text. *)
Module LLMSolver.

Definition is_newline : ascii -> bool := fun c => Ascii.eqb c "010".

Record pattern : Type := {
  at_line_start : bool;       (* the pattern begins with [^] *)
  body : RefLib.regex;
  at_end : bool               (* the pattern ends with [$] *)
}.

Definition backticks : string := "```".

(** [^```python\s*\n] *)
Definition OPENING_PYTHON_FENCE : pattern :=
  {| at_line_start := true;
     body := RefLib.RSeq (RefLib.word false (backticks +:+ "python"))
               (RefLib.RSeq (RefLib.RStar true RefLib.is_space)
                  (RefLib.RChar is_newline));
     at_end := false |}.

(** [^```\s*\n] *)
Definition OPENING_FENCE : pattern :=
  {| at_line_start := true;
     body := RefLib.RSeq (RefLib.word false backticks)
               (RefLib.RSeq (RefLib.RStar true RefLib.is_space)
                  (RefLib.RChar is_newline));
     at_end := false |}.

(** [\n```\s*$] *)
Definition CLOSING_FENCE : pattern :=
  {| at_line_start := false;
     body := RefLib.RSeq (RefLib.RChar is_newline)
               (RefLib.RSeq (RefLib.word false backticks)
                  (RefLib.RStar true RefLib.is_space));
     at_end := true |}.

(** [$] without [re.MULTILINE]. *)
Definition end_of_text (s : list ascii) : bool :=
  match s with
  | [] => true
  | [c] => is_newline c
  | _ => false
  end.

(** A match of the pattern at the head of [s], where [bol] tells whether
    [s] begins a line: what follows the match. *)
Definition match_at (p : pattern) (bol : bool) (s : list ascii)
  : option (list ascii) :=
  if at_line_start p && negb bol then None
  else RefLib.rmatch (body p) s
         (fun rest => if at_end p && negb (end_of_text rest) then None
                      else Some rest).

(** [re.sub(pattern, '', text)]: the matches, from left to right and
    without overlap, are removed.  [skip] counts the characters of the
    current match that are still to be dropped. *)
Fixpoint sub_from (p : pattern) (bol : bool) (skip : nat) (s : list ascii)
  : list ascii :=
  match s with
  | [] => []
  | c :: s' =>
      match skip with
      | S n => sub_from p (is_newline c) n s'
      | O =>
          match match_at p bol s with
          | Some rest =>
              if (length rest <? length s)%nat
              then sub_from p (is_newline c) (length s - length rest - 1) s'
              else c :: sub_from p (is_newline c) 0 s'
          | None => c :: sub_from p (is_newline c) 0 s'
          end
      end
  end.

Definition re_sub (p : pattern) (text : list ascii) : list ascii :=
  sub_from p true 0 text.

(** [str.strip()] *)
Definition strip (s : list ascii) : list ascii :=
  rev (RefLib.skip RefLib.is_space (rev (RefLib.skip RefLib.is_space s))).

(** Standardize Markdown removal. *)
Definition _clean_code (code : string) : string :=
  let code := re_sub OPENING_PYTHON_FENCE (list_ascii_of_string code) in
  let code := re_sub OPENING_FENCE code in
  let code := re_sub CLOSING_FENCE code in
  string_of_list_ascii (strip code).

Section Methods.
Context {W : Type}.
Variable settings : Settings.

(** [str(v)], which an f-string applies to a value it formats. *)
Variable str : pyval -> string.

(** [response = model.generate_content_async(prompt, ...)] and
    [response.text]: the text of the answer, or the exception one of the
    two raises. *)
Variable generate_content : string -> W -> Res string * W.

(** A [str] or [None] formatted by an f-string. *)
Definition format (v : option string) : string :=
  match v with
  | Some s => s
  | None => "None"
  end.

Definition _build_prompt (question_data : QuestionData) (previous_error : pyval)
    (failed_code previous_output : option string) : string :=
  let question_text := question_text question_data in
  let quiz_url := str (url question_data) in
  let prompt :=
    "Solve this data science quiz question and submit the answer:

QUESTION TEXT:
" +:+ question_text +:+ "

CURRENT QUIZ URL: " +:+ quiz_url +:+ "

CREDENTIALS (available as variables in your code):
- STUDENT_EMAIL = " +:+ dq +:+ STUDENT_EMAIL settings +:+ dq +:+ "
- STUDENT_SECRET = " +:+ dq +:+ STUDENT_SECRET settings +:+ dq +:+ "
- QUIZ_URL = " +:+ dq +:+ quiz_url +:+ dq +:+ "
" in
  let prompt :=
    if truthy previous_error then
      prompt +:+ "
PREVIOUS ATTEMPT FAILED:
" +:+ str previous_error +:+ "

PREVIOUS CODE:
" +:+ format failed_code +:+ "
OUTPUT FROM PREVIOUS ATTEMPT:
" +:+ format previous_output +:+ "
Please analyze the error and generate corrected code that fixes the issue.
"
    else prompt in
  prompt +:+ "
INSTRUCTIONS:
Generate ONLY executable Python code (no markdown code blocks, no text explanations).
".

(** [None] when the call of the model raises. *)
Definition generate_solution (question_data : QuestionData) (previous_error : pyval)
    (failed_code previous_output : option string) (w : W) : option string * W :=
  let prompt := _build_prompt question_data previous_error failed_code previous_output in
  match generate_content prompt w with
  | (Ok generated_code, w') => (Some (_clean_code generated_code), w')
  | (Raise _, w') => (None, w')
  end.

(** The exception of the call of the model is raised again. *)
Definition analyze_error_and_retry (question_data : QuestionData) (code : string)
    (error : option string) (w : W) : Res string * W :=
  let retry_prompt :=
    "The following code failed with an error:

CODE:
" +:+ code +:+ "

ERROR:
" +:+ format error +:+ "

ORIGINAL QUESTION:
" +:+ question_text question_data +:+ "

Please analyze the error and generate corrected Python code. Generate ONLY the fixed code.
" in
  match generate_content retry_prompt w with
  | (Ok fixed_code, w') => (Ok (_clean_code fixed_code), w')
  | (Raise e, w') => (Raise e, w')
  end.

(** The collaborators of the controller with [LLMSolver] for the model. *)
Definition env (clock : W -> Z * W) (browse : pyval -> W -> Res (string * string) * W)
    (run : string -> Injected -> W -> (string * option exn) * W)
    (http_post : pyval -> Payload -> W -> Res Response * W) : Env W :=
  {| clock := clock; browse := browse;
     llm_generate := generate_solution;
     llm_analyze := analyze_error_and_retry;
     run := run; http_post := http_post |}.

End Methods.

End LLMSolver.

(* ===================================================================== *)
(** ** Configuration and the endpoint                                      *)
(* ===================================================================== *)

Definition ValueError (msg : string) : exn := Exn "ValueError" msg.

(** [config.validate_settings], which runs when [config] is imported;
    what it configures the model library with is not modelled.
    [GEMINI_API_KEY] is the one setting it reads that [Settings] leaves
    out. *)
Definition validate_settings (GEMINI_API_KEY : string) (settings : Settings)
  : Res unit :=
  if String.eqb GEMINI_API_KEY ""
  then Raise (ValueError "GEMINI_API_KEY must be set in .env file")
  else if String.eqb (STUDENT_EMAIL settings) ""
  then Raise (ValueError "STUDENT_EMAIL must be set")
  else if String.eqb (STUDENT_SECRET settings) ""
  then Raise (ValueError "STUDENT_SECRET must be set")
  else Ok tt.

Section Endpoint.
Context {W : Type}.
Variable env : Env W.
Variable lib : PyLib.
Variable settings : Settings.

(** The call of [QuizRequest] with the items of a JSON object as keyword
    arguments: the validated request, or [None] when pydantic raises
    [ValidationError]. *)
Variable validate : list (pyval * pyval) -> option QuizRequest.

(** [str(e)] of the [TypeError] that this call raises when the payload
    is not a mapping. *)
Variable not_a_mapping : pyval -> string.

(** The whole of [main.handle_quiz]: [body] is what [request.json()]
    returns or raises.  The clock is read first; a body that is not JSON
    and a payload that fails validation are answered with 400, a
    [TypeError] of the unpacking reaches the last handler and is answered
    with 500, and a validated request goes on as in [handle_quiz]. *)
Definition handle_quiz_request (fuel : nat) (body : Res pyval)
  : SE (State W) (Reply * option SequenceStats) :=
  match body with
  | Raise _ =>
      _ ← now env;
      mret (Rejected 400 "Invalid JSON payload", None)
  | Ok (PDict items) =>
      match validate items with
      | Some request => handle_quiz env lib settings fuel request
      | None =>
          _ ← now env;
          mret (Rejected 400 "Invalid payload structure", None)
      end
  | Ok payload =>
      _ ← now env;
      mret (Rejected 500 ("Internal server error: " +:+ not_a_mapping payload), None)
  end.

End Endpoint.

(* ===================================================================== *)
(** ** Vocabulary of the properties                                        *)
(* ===================================================================== *)

(** A computation that always returns. *)
Definition returns {S A} (c : SE S A) : Prop :=
  forall s, exists a s', c s = (Ok a, s').

(** A property of the state that a computation maintains, whether it
    returns or raises. *)
Definition maintains {S A} (I : S -> Prop) (c : SE S A) : Prop :=
  forall s, I s -> I (snd (c s)).

(** The keys of a verdict. *)
Definition verdict_keys : gset string :=
  {[ "correct"; "next_url"; "reason"; "status_code" ]}.

Definition has_verdict_keys (submission : gmap string pyval) : Prop :=
  dom submission = verdict_keys.

(** The submission after step 1 of the parser, and after steps 1 and 2. *)
Definition after_status_code (lib : PyLib) (output : string) : gmap string pyval :=
  snd (parse_status_code lib output empty_submission).

Definition after_primary (lib : PyLib) (output : string) : gmap string pyval :=
  snd ((parse_status_code lib output;; parse_response_body lib output) empty_submission).



(** The outcome the controller derives from the answer to the fallback
    POST: [incorrect] with the [url] field when the answer is a JSON
    object, [error] otherwise. *)
Definition outcome_of_fallback (answer : Res Response) : Outcome :=
  match answer with
  | Ok response =>
      match resp_json response with
      | Ok (PDict items) => {| status := Incorrect; next_url := items_get items "url" |}
      | _ => error_outcome
      end
  | Raise _ => error_outcome
  end.

(** The third class of the top-level check on [correct]: neither truthy
    nor [False]. *)
Definition indeterminate (v : pyval) : Prop :=
  truthy v = false /\ is_False v = false.

(** A verdict in which the parser found nothing. *)
Definition nothing_found (submission : gmap string pyval) : Prop :=
  forall key, key ∈ verdict_keys -> submission !! key = Some PNone.

(** A computation appends events that all satisfy [P], whether it returns
    or raises. *)
Definition emits {W A} (P : Event -> Prop) (c : SE (State W) A) : Prop :=
  forall st, exists evs,
    trace (snd (c st)) = (trace st ++ evs)%list /\ Forall P evs.

Definition is_post (ev : Event) : Prop :=
  match ev with EvPost _ _ => True | _ => False end.

Definition is_llm_or_exec (ev : Event) : Prop :=
  match ev with
  | EvGenerate _ _ _ _ | EvAnalyze _ _ _ | EvExec _ _ => True
  | _ => False
  end.

(** The credentials an event carries are those of the settings. *)
Definition from_settings (settings : Settings) (ev : Event) : Prop :=
  match ev with
  | EvPost target body =>
      payload_email body = STUDENT_EMAIL settings
      /\ payload_secret body = STUDENT_SECRET settings
      /\ payload_url body = target
      /\ payload_answer body = "FAILED"
  | EvExec _ injected =>
      inj_STUDENT_EMAIL injected = STUDENT_EMAIL settings
      /\ inj_STUDENT_SECRET injected = STUDENT_SECRET settings
  | _ => True
  end.

(** C1 as the specification words it: whenever the execution succeeds and
    the parsing yields no verdict (no output at all, or an output in which
    the parser found nothing), the question ends with the fallback
    submission. *)
Definition fallback_whenever_no_verdict {W} (env : Env W) (lib : PyLib)
    (settings : Settings) (self : QuizHandler) (quiz_url : pyval)
    (start_time : Z) (st : State W) : Prop :=
  forall question_data solution_code st2 execution_result st3,
    generate_step env settings self quiz_url start_time st
    = (Ok (inl (question_data, solution_code)), st2) ->
    execute_code env lib settings (Some solution_code) quiz_url st2
    = (Ok execution_result, st3) ->
    success execution_result = true ->
    submission_result execution_result = ∅
    \/ nothing_found (submission_result execution_result) ->
    solve_single_quiz env lib settings self quiz_url
      (seconds (QUIZ_TIMEOUT_SECONDS settings)) start_time st
    = fallback_outcome env settings self quiz_url st3.




(** Worlds used as examples.  In each of them the page is fetched and the
    first call of [generate_solution] returns a program. *)
Definition scripted (ticks : list Z) (generations : list (option string))
    (analyses : list (Res string)) (runs : list (string * option exn))
    (posts : list (Res Response)) : State Scripted.Script :=
  Scripted.start
    {| Scripted.ticks := ticks;
       Scripted.pages := [Ok ("What is 1+1?", "<html/>")];
       Scripted.generations := Some "print(solve())" :: generations;
       Scripted.analyses := analyses;
       Scripted.runs := runs;
       Scripted.posts := posts |}.

(** An answer to the fallback POST that names the next quiz. *)
Definition next_quiz_response : Response :=
  {| resp_status_code := 200;
     resp_text := "{'correct': false, 'url': 'https://x/q2'}";
     resp_json := Ok (PDict [(PStr "correct", PBool false);
                             (PStr "url", PStr "https://x/q2")]) |}.

Definition ZeroDivisionError : exn := Exn "ZeroDivisionError" "division by zero".

(** The program prints something in which the parser finds nothing. *)
Definition world_hello : State Scripted.Script :=
  scripted [] [] [] [("hello", None)] [Ok next_quiz_response].

(** The program prints nothing. *)
Definition world_silent : State Scripted.Script :=
  scripted [] [] [] [("", None)] [Ok next_quiz_response].

(** Scenario D: the execution raises when 10 seconds remain. *)
Definition world_D : State Scripted.Script :=
  scripted [seconds 170] [] [Ok "print(fixed())"]
    [("", Some ZeroDivisionError); ("", None)] [Ok next_quiz_response].

(** Scenario E: an incorrect answer with a next url when 5 seconds remain. *)
Definition world_E : State Scripted.Script :=
  scripted [seconds 175] [] []
    [("Status: 200
Response: {'correct': False, 'url': 'https://x/q2', 'reason': 'off by one'}", None)] [].



(** A retry helper called after 10 seconds; the one execution succeeds and
    its output has a url but no [correct]. *)
Definition world_helper : State Scripted.Script :=
  Scripted.start
    {| Scripted.ticks := [seconds 10];
       Scripted.pages := [];
       Scripted.generations := [Some "print(solve_again())"];
       Scripted.analyses := [Ok "print(fixed())"];
       Scripted.runs := [("Response: {'url': 'https://x/q2'}", None)];
       Scripted.posts := [] |}.

(** A world in which the executed program prints [out] and ends normally. *)
Definition only_run (out : string) : State Scripted.Script :=
  Scripted.start
    {| Scripted.ticks := []; Scripted.pages := []; Scripted.generations := [];
       Scripted.analyses := []; Scripted.runs := [(out, None)];
       Scripted.posts := [] |}.

(** A chain of two questions. *)
Definition world_chain : State Scripted.Script :=
  Scripted.start
    {| Scripted.ticks := [0; seconds 1; seconds 1; seconds 1;
                          seconds 60; seconds 60; seconds 60;
                          seconds 100];
       Scripted.pages := [Ok ("What is 1+1?", "<html/>");
                          Ok ("What is 2+2?", "<html/>")];
       Scripted.generations := [Some "print(solve())"; Some "print(solve())"];
       Scripted.analyses := [];
       Scripted.runs := [("Status: 200
Response: {'correct': True, 'url': 'https://x/q2'}", None);
                         ("", None)];
       Scripted.posts :=
         [Ok {| resp_status_code := 200; resp_text := "{'correct': false}";
                resp_json := Ok (PDict [(PStr "correct", PBool false)]) |}] |}.

Definition question : QuestionData :=
  {| question_text := "What is 1+1?"; raw_html := "<html/>";
     url := Scripted.quiz_url |}.

(** Runs the first three steps of [solve_single_quiz] and the reading of
    the clock that follows them in a scripted world [st], and records the
    results as [Hgen], [Hexec] and [Hnow]. *)
Ltac scripted_steps st :=
  let Hgen := fresh "Hgen" in
  let Hexec := fresh "Hexec" in
  let Hnow := fresh "Hnow" in
  eassert (Hgen : generate_step Scripted.env Scripted.settings Scripted.handler
                    Scripted.quiz_url 0 st = (Ok (inl (_, _)), _))
    by (vm_compute; reflexivity);
  match type of Hgen with
  | _ = (Ok (inl (_, ?code)), ?st2) =>
      eassert (Hexec : execute_code Scripted.env RefLib.lib Scripted.settings
                         (Some code) Scripted.quiz_url st2 = (Ok _, _))
        by (vm_compute; reflexivity)
  end;
  match type of Hexec with
  | _ = (Ok _, ?st3) =>
      eassert (Hnow : now Scripted.env st3 = (Ok _, _))
        by (vm_compute; reflexivity)
  end.

(** A property of every value a computation returns. *)
Definition yields {S A} (Q : A -> Prop) (c : SE S A) : Prop :=
  forall s a s', c s = (Ok a, s') -> Q a.

(** A computation appends a list of events that satisfies [P], whether it
    returns or raises. *)
Definition appends {W A} (P : list Event -> Prop) (c : SE (State W) A) : Prop :=
  forall st, exists evs, trace (snd (c st)) = trace st ++ evs /\ P evs.

(** The kinds of events, and the events of a list counted with a weight
    per kind. *)
Inductive Kind : Type := KVisit | KGenerate | KAnalyze | KExec | KPost.

Definition kind_of (ev : Event) : Kind :=
  match ev with
  | EvVisit _ => KVisit
  | EvGenerate _ _ _ _ => KGenerate
  | EvAnalyze _ _ _ => KAnalyze
  | EvExec _ _ => KExec
  | EvPost _ _ => KPost
  end.

Definition weight (w : Kind -> nat) (evs : list Event) : nat :=
  foldr (fun ev n => (w (kind_of ev) + n)%nat) 0%nat evs.

(** A computation appends events of total weight at most [n]. *)
Definition costs {W A} (w : Kind -> nat) (n : nat) (c : SE (State W) A) : Prop :=
  appends (fun evs => (weight w evs <= n)%nat) c.

Definition visits (k : Kind) : nat := match k with KVisit => 1 | _ => 0 end.
Definition executions (k : Kind) : nat := match k with KExec => 1 | _ => 0 end.
Definition posts (k : Kind) : nat := match k with KPost => 1 | _ => 0 end.
Definition model_calls (k : Kind) : nat :=
  match k with KGenerate | KAnalyze => 1 | _ => 0 end.
Definition executions_and_posts (k : Kind) : nat :=
  match k with KExec | KPost => 1 | _ => 0 end.
Definition posts_and_analyses (k : Kind) : nat :=
  match k with KPost | KAnalyze => 1 | _ => 0 end.

(** The counters of a chain add up. *)
Definition balanced (stats : SequenceStats) : Prop :=
  total stats = n_correct stats + n_incorrect stats + n_skipped stats + n_errors stats
  /\ 0 <= n_correct stats /\ 0 <= n_incorrect stats
  /\ 0 <= n_skipped stats /\ 0 <= n_errors stats.


(** The status skipped comes with a next url that is truthy. *)
Definition skipped_has_url (outcome : Outcome) : Prop :=
  status outcome = Skipped -> truthy (next_url outcome) = true.

(** A world in which nothing answers: the page cannot be fetched, the
    model returns nothing, and the clock shows [t]. *)
Definition world_mute (t : Z) : State Scripted.Script :=
  Scripted.start
    {| Scripted.ticks := [t]; Scripted.pages := []; Scripted.generations := [];
       Scripted.analyses := []; Scripted.runs := []; Scripted.posts := [] |}.


(** A retry helper called after 10 seconds; the program the model returns
    prints [out] and ends with [raised]. *)
Definition world_retry_run (out : string) (raised : option exn)
  : State Scripted.Script :=
  Scripted.start
    {| Scripted.ticks := [seconds 10];
       Scripted.pages := [];
       Scripted.generations := [Some "print(solve_again())"];
       Scripted.analyses := [Ok "print(fixed())"];
       Scripted.runs := [(out, raised)];
       Scripted.posts := [] |}.


(** The texts the parser hands to [json.loads] and [ast.literal_eval]: the
    group of the response pattern and the blobs of the scavenger. *)
Definition candidates (lib : PyLib) (output : string) : list string :=
  match re_search lib RESPONSE_RE [DOTALL; IGNORECASE] output with
  | Some dict_str => [dict_str]
  | None => []
  end ++ re_findall lib CORRECT_BLOB_RE output.

(** [text] parses to [v], strictly or permissively. *)
Definition parsed_as (lib : PyLib) (text : string) (v : pyval) : Prop :=
  json_loads lib text = Ok v \/ ast_literal_eval lib text = Ok v.

(** The three fields of a verdict are those of the dictionary [items]. *)
Definition fields_of (items : list (pyval * pyval)) (submission : gmap string pyval)
  : Prop :=
  submission !! "correct" = Some (items_get items "correct")
  /\ submission !! "next_url"
     = Some (py_or (items_get items "url") (items_get items "next_url"))
  /\ submission !! "reason" = Some (items_get items "reason").

Definition no_fields (submission : gmap string pyval) : Prop :=
  submission !! "correct" = Some PNone
  /\ submission !! "next_url" = Some PNone
  /\ submission !! "reason" = Some PNone.

(** The three fields are all [None], or all read from one dictionary that
    one of the candidate texts parses to. *)
Definition from_one_object (lib : PyLib) (output : string)
    (submission : gmap string pyval) : Prop :=
  no_fields submission
  \/ exists text items,
      text ∈ candidates lib output
      /\ parsed_as lib text (PDict items)
      /\ fields_of items submission.

(** The status code is [None], or the integer of the digits the status
    pattern found. *)
Definition status_from_digits (lib : PyLib) (output : string)
    (submission : gmap string pyval) : Prop :=
  submission !! "status_code" = Some PNone
  \/ exists digits n,
      re_search lib STATUS_RE [IGNORECASE] output = Some digits
      /\ py_int lib digits = Ok n
      /\ submission !! "status_code" = Some (PInt n).

(** Outputs used as examples: a response that is a set, and a blob that is
    a set before a blob that is a verdict. *)
Definition set_response_output : string :=
  "Status: 200
Response: {1, 2}
Result: {'correct': True}".

Definition set_blob_output : string :=
  "first {'correct': maybe} then {'correct'} then {'correct': True}".

(** A status line whose number has 4301 digits, before a response. *)
Definition long_status_output : string :=
  "Status: " +:+ string_of_list_ascii (repeat "1"%char 4301) +:+ "
Response: {'correct': True}".

(** The language of a pattern: the texts it can match. *)
Fixpoint denotes (r : RefLib.regex) (l : list ascii) : Prop :=
  match r with
  | RefLib.RChar p => exists c, l = [c] /\ p c = true
  | RefLib.RSeq r1 r2 => exists l1 l2, l = l1 ++ l2 /\ denotes r1 l1 /\ denotes r2 l2
  | RefLib.RAlt r1 r2 => denotes r1 l \/ denotes r2 l
  | RefLib.REps => l = []
  | RefLib.RStar _ p => Forall (fun c => p c = true) l
  end.

(** A text that opens with a brace and whose only closing brace is its
    last character. *)
Definition ends_at_first_brace (text : string) : Prop :=
  exists body,
    list_ascii_of_string text = "{"%char :: body ++ ["}"%char]
    /\ Forall (fun c => c <> "}"%char) body.

(** A response with a nested object. *)
Definition nested_output : string :=
  "REQUEST_STATUS: 200
SERVER_RESPONSE: {'correct': True, 'meta': {'attempt': 1}, 'url': 'https://x/q2'}".

(** [s] does not begin with a character of the class [p]. *)
Definition not_at (p : ascii -> bool) (s : list ascii) : Prop :=
  match s with
  | c :: _ => p c = false
  | [] => True
  end.

(** A text without a backtick, and a text that begins with code. *)
Definition no_backtick (s : list ascii) : Prop := Forall (fun c => c <> "`"%char) s.

(** Whether the position after [l] begins a line, when [l] itself began
    at a position for which this was [bol]. *)
Definition line_start_after (bol : bool) (l : list ascii) : bool :=
  match last l with
  | Some c => LLMSolver.is_newline c
  | None => bol
  end.

(** The two patterns of an opening fence. *)
Definition opening (p : LLMSolver.pattern) : Prop :=
  p = LLMSolver.OPENING_PYTHON_FENCE \/ p = LLMSolver.OPENING_FENCE.

(** White space, and text without a newline. *)
Definition white (s : list ascii) : Prop := Forall (fun c => RefLib.is_space c = true) s.

Definition newline_free (s : list ascii) : Prop :=
  Forall (fun c => LLMSolver.is_newline c = false) s.

(** The three backticks of a fence, and a closing fence: a newline, the
    fence, and the white space [ws] that follows it. *)
Definition fence : list ascii := list_ascii_of_string LLMSolver.backticks.

Definition closing_fence (ws : list ascii) : list ascii :=
  "010"%char :: fence ++ ws.

(** The continuation of the star in [\s*\n]. *)
Definition then_newline {A} (k : list ascii -> option A) (s : list ascii) : option A :=
  RefLib.rmatch (RefLib.RChar LLMSolver.is_newline) s k.

(** The three substitutions and the stripping of [_clean_code], on the
    characters of the text. *)
Definition cleaned (text : list ascii) : list ascii :=
  LLMSolver.strip
    (LLMSolver.re_sub LLMSolver.CLOSING_FENCE
       (LLMSolver.re_sub LLMSolver.OPENING_FENCE
          (LLMSolver.re_sub LLMSolver.OPENING_PYTHON_FENCE text))).

(** An opening fence: the pattern that removes it and the text it is
    written with. *)
Definition opening_fence (p : LLMSolver.pattern) (w : list ascii) : Prop :=
  (p = LLMSolver.OPENING_PYTHON_FENCE /\ w = fence ++ list_ascii_of_string "python")
  \/ (p = LLMSolver.OPENING_FENCE /\ w = fence).

(** A program that one of the two calls of the model returns, in some
    world. *)
Definition model_answer {W} (env : Env W) (code : string) : Prop :=
  (exists question_data previous_error failed_code previous_output w,
      fst (llm_generate env question_data previous_error failed_code previous_output w)
      = Some code)
  \/ (exists question_data failed_code error w,
        fst (llm_analyze env question_data failed_code error w) = Ok code).

(** What is executed is an answer of the model. *)
Definition executes_answers {W} (env : Env W) (ev : Event) : Prop :=
  match ev with
  | EvExec code _ => model_answer env code
  | _ => True
  end.

(** What is executed is a text that [_clean_code] returned. *)
Definition executes_cleaned (ev : Event) : Prop :=
  match ev with
  | EvExec code _ => exists text, code = LLMSolver._clean_code text
  | _ => True
  end.

Definition is_accepted (reply : Reply) : bool :=
  match reply with
  | Accepted _ _ => true
  | Rejected _ _ => false
  end.

(** At every reading of the clock it is too late for a retry: no more
    than twice the threshold is left of the time of the question. *)
Definition too_late {W} (env : Env W) (settings : Settings) (start_time : Z) : Prop :=
  forall w,
    enough_time settings (remaining_at settings start_time (fst (clock env w))) = false.

(** The collaborators [env] with a clock that shows [t] at every reading. *)
Definition stopped_clock {W} (t : Z) (env : Env W) : Env W :=
  {| clock := fun w => (t, w);
     browse := browse env;
     llm_generate := llm_generate env;
     llm_analyze := llm_analyze env;
     run := run env;
     http_post := http_post env |}.











(** Unfolding the operations of the monad. *)
Ltac run_monad :=
  cbv [mbind SE_bind se_bind mret SE_ret se_ret lift modify setitem get_state
       raise try_except try_except_if].

(* ===================================================================== *)
(** ** Running computations                                                *)
(* ===================================================================== *)

Section Monad.
Context {S : Type}.

Lemma bind_run {A B} (c : SE S A) (f : A -> SE S B) (s : S) :
  (c ≫= f) s = match c s with
               | (Ok a, s') => f a s'
               | (Raise e, s') => (Raise e, s')
               end.
Proof. reflexivity. Qed.

Lemma bind_ok {A B} (c : SE S A) (f : A -> SE S B) s a s' :
  c s = (Ok a, s') -> (c ≫= f) s = f a s'.
Proof. intros H. rewrite bind_run, H. reflexivity. Qed.

Lemma bind_raise {A B} (c : SE S A) (f : A -> SE S B) s e s' :
  c s = (Raise e, s') -> (c ≫= f) s = (Raise e, s').
Proof. intros H. rewrite bind_run, H. reflexivity. Qed.

Lemma try_except_ok {A} (c : SE S A) h s a s' :
  c s = (Ok a, s') -> try_except c h s = (Ok a, s').
Proof. intros H. unfold try_except, try_except_if. rewrite H. reflexivity. Qed.

Lemma try_except_raise {A} (c : SE S A) h s e s' :
  c s = (Raise e, s') -> try_except c h s = h e s'.
Proof. intros H. unfold try_except, try_except_if. rewrite H. reflexivity. Qed.

Lemma returns_ret {A} (a : A) : returns (mret a : SE S A).
Proof. intros s. exists a, s. reflexivity. Qed.

Lemma returns_bind {A B} (c : SE S A) (f : A -> SE S B) :
  returns c -> (forall a, returns (f a)) -> returns (c ≫= f).
Proof.
  intros Hc Hf s. destruct (Hc s) as (a & s' & E).
  rewrite (bind_ok _ _ _ _ _ E). apply Hf.
Qed.

(** A handler that returns makes the whole [try] return. *)
Lemma returns_try {A} (c : SE S A) (h : exn -> SE S A) :
  (forall e, returns (h e)) -> returns (try_except c h).
Proof.
  intros Hh s. unfold try_except, try_except_if.
  destruct (c s) as [[a | e] s'].
  - exists a, s'. reflexivity.
  - apply Hh.
Qed.

Lemma maintains_ret {A} I (a : A) : maintains I (mret a : SE S A).
Proof. intros s H. exact H. Qed.

Lemma maintains_lift {A} I (r : Res A) : maintains I (lift r : SE S A).
Proof. intros s H. exact H. Qed.

Lemma maintains_bind {A B} I (c : SE S A) (f : A -> SE S B) :
  maintains I c -> (forall a, maintains I (f a)) -> maintains I (c ≫= f).
Proof.
  intros Hc Hf s H. rewrite bind_run. specialize (Hc s H).
  destruct (c s) as [[a | e] s']; simpl in *.
  - apply Hf, Hc.
  - exact Hc.
Qed.

Lemma maintains_try_if {A} I (c : SE S A) sel (h : exn -> SE S A) :
  maintains I c -> (forall e, maintains I (h e)) ->
  maintains I (try_except_if c sel h).
Proof.
  intros Hc Hh s H. unfold try_except_if. specialize (Hc s H).
  destruct (c s) as [[a | e] s']; simpl in *; [exact Hc |].
  destruct (sel e); [apply Hh, Hc | exact Hc].
Qed.

Lemma maintains_try {A} I (c : SE S A) (h : exn -> SE S A) :
  maintains I c -> (forall e, maintains I (h e)) -> maintains I (try_except c h).
Proof. apply maintains_try_if. Qed.

Lemma maintains_modify I (f : S -> S) :
  (forall s, I s -> I (f s)) -> maintains I (modify f).
Proof. intros Hf s H. apply Hf, H. Qed.

End Monad.

(* ===================================================================== *)
(** ** Facts about the output parser                                       *)
(* ===================================================================== *)

Section ParserFacts.
Variable lib : PyLib.

Lemma empty_submission_keys : has_verdict_keys empty_submission.
Proof.
  unfold has_verdict_keys, empty_submission, verdict_keys.
  rewrite !dom_insert_L, dom_empty_L. set_solver.
Qed.

Lemma setitem_keys key v :
  key ∈ verdict_keys -> maintains has_verdict_keys (setitem key v).
Proof.
  intros Hk. apply maintains_modify. intros s Hs.
  unfold has_verdict_keys in *. rewrite dom_insert_L, Hs. set_solver.
Qed.

Lemma getitem_keys key : maintains has_verdict_keys (getitem key).
Proof.
  intros s Hs. unfold getitem. destruct (s !! key); exact Hs.
Qed.

Lemma extract_fields_keys data : maintains has_verdict_keys (extract_fields data).
Proof.
  unfold extract_fields.
  repeat first
    [ apply maintains_bind; [| intros ?]
    | apply maintains_lift
    | apply maintains_ret
    | apply setitem_keys; unfold verdict_keys; set_solver
    | match goal with |- maintains _ (if ?b then _ else _) => destruct b end ].
Qed.

Lemma parse_status_code_keys output :
  maintains has_verdict_keys (parse_status_code lib output).
Proof.
  unfold parse_status_code. destruct (re_search _ _ _ _).
  - apply maintains_bind; [apply maintains_lift | intros n].
    apply setitem_keys. unfold verdict_keys. set_solver.
  - apply maintains_ret.
Qed.

Lemma load_response_keys dict_str :
  maintains has_verdict_keys (load_response lib dict_str).
Proof.
  unfold load_response. apply maintains_try_if; [apply maintains_lift |].
  intros _. apply maintains_try; [apply maintains_lift |].
  intros _. apply maintains_ret.
Qed.

Lemma parse_response_body_keys output :
  maintains has_verdict_keys (parse_response_body lib output).
Proof.
  unfold parse_response_body. destruct (re_search _ _ _ _).
  - apply maintains_bind; [apply load_response_keys | intros data].
    destruct (truthy data); [apply extract_fields_keys | apply maintains_ret].
  - apply maintains_ret.
Qed.

Lemma load_blob_keys blob : maintains has_verdict_keys (load_blob lib blob).
Proof. intros s Hs. unfold load_blob, try_except, try_except_if, lift. simpl.
  rewrite !bind_run.
  destruct (json_loads lib blob); simpl; [exact Hs |].
  destruct (ast_literal_eval lib blob); simpl; exact Hs.
Qed.

Lemma scavenge_keys blobs : maintains has_verdict_keys (scavenge lib blobs).
Proof.
  induction blobs as [| blob rest IH]; simpl.
  - apply maintains_ret.
  - apply maintains_bind; [apply load_blob_keys | intros [data |]].
    + apply extract_fields_keys.
    + exact IH.
Qed.

Lemma scavenger_keys output : maintains has_verdict_keys (scavenger lib output).
Proof.
  unfold scavenger. apply maintains_bind; [apply getitem_keys | intros c].
  destruct (is_None c); [apply scavenge_keys | apply maintains_ret].
Qed.

Lemma parse_steps_keys output : maintains has_verdict_keys (parse_steps lib output).
Proof.
  unfold parse_steps.
  apply maintains_bind; [apply parse_status_code_keys | intros _].
  apply maintains_bind; [apply parse_response_body_keys | intros _].
  apply scavenger_keys.
Qed.

(** The parser returns the dictionary in the state the three steps left
    it in, whether they finished or raised. *)
Lemma parse_result output :
  _parse_submission_result lib output
  = Ok (snd (parse_steps lib output empty_submission)).
Proof.
  unfold _parse_submission_result, parse_submission.
  rewrite bind_run. unfold try_except, try_except_if.
  destruct (parse_steps lib output empty_submission) as [[[] | e] s]; reflexivity.
Qed.

Lemma parse_result_keys output submission :
  _parse_submission_result lib output = Ok submission ->
  has_verdict_keys submission.
Proof.
  rewrite parse_result. intros [= <-].
  apply parse_steps_keys, empty_submission_keys.
Qed.

Lemma verdict_not_empty (submission : gmap string pyval) :
  has_verdict_keys submission -> submission <> ∅.
Proof.
  unfold has_verdict_keys, verdict_keys. intros H ->.
  rewrite dom_empty_L in H. set_solver.
Qed.

End ParserFacts.

Section ParserProperties.
Variable lib : PyLib.

(** Assignments to the other keys leave a key alone. *)
Lemma setitem_other key key' v x :
  key <> key' ->
  maintains (fun s : gmap string pyval => s !! key' = x) (setitem key v).
Proof.
  intros Hne. apply maintains_modify. intros s Hs.
  rewrite lookup_insert_ne; [exact Hs | exact Hne].
Qed.

Lemma extract_fields_status x data :
  maintains (fun s : gmap string pyval => s !! "status_code" = x)
    (extract_fields data).
Proof.
  unfold extract_fields.
  repeat first
    [ apply maintains_bind; [| intros ?]
    | apply maintains_lift
    | apply maintains_ret
    | apply setitem_other; discriminate
    | match goal with |- maintains _ (if ?b then _ else _) => destruct b end ].
Qed.

Lemma load_any_maintains (I : gmap string pyval -> Prop) text :
  maintains I (load_response lib text) /\ maintains I (load_blob lib text).
Proof.
  split; intros s Hs.
  - unfold load_response, try_except, try_except_if, lift.
    destruct (json_loads lib text) as [v | e]; simpl; [exact Hs |].
    destruct (is_JSONDecodeError e); simpl; [| exact Hs].
    destruct (ast_literal_eval lib text); exact Hs.
  - unfold load_blob, try_except, try_except_if, lift. rewrite !bind_run.
    destruct (json_loads lib text); simpl; [exact Hs |].
    destruct (ast_literal_eval lib text); exact Hs.
Qed.

Lemma later_steps_status x output :
  maintains (fun s : gmap string pyval => s !! "status_code" = x)
    (parse_response_body lib output;; scavenger lib output).
Proof.
  apply maintains_bind; [| intros _].
  - unfold parse_response_body. destruct (re_search _ _ _ _); [| apply maintains_ret].
    apply maintains_bind; [apply load_any_maintains | intros data].
    destruct (truthy data); [apply extract_fields_status | apply maintains_ret].
  - unfold scavenger. apply maintains_bind.
    + intros s Hs. unfold getitem. destruct (s !! "correct"); exact Hs.
    + intros c. destruct (is_None c); [| apply maintains_ret].
      induction (re_findall lib CORRECT_BLOB_RE output) as [| blob rest IH]; simpl.
      * apply maintains_ret.
      * apply maintains_bind; [apply load_any_maintains | intros [data |]].
        -- apply extract_fields_status.
        -- exact IH.
Qed.



Lemma final_status_code output :
  snd (parse_steps lib output empty_submission) !! "status_code"
  = after_status_code lib output !! "status_code"
  /\ after_primary lib output !! "status_code"
     = after_status_code lib output !! "status_code".
Proof.
  unfold after_primary, after_status_code, parse_steps. rewrite !bind_run.
  destruct (parse_status_code lib output empty_submission) as [[[] | e1] s1];
    simpl; [| split; reflexivity].
  split.
  - exact (later_steps_status (s1 !! "status_code") output s1 eq_refl).
  - assert (H := later_steps_status (s1 !! "status_code") output s1 eq_refl).
    clear H.
    unfold parse_response_body. destruct (re_search _ _ _ _); [| reflexivity].
    rewrite bind_run.
    assert (Hl := proj1 (load_any_maintains
                           (fun s : gmap string pyval => s !! "status_code" = s1 !! "status_code") s)
                    s1 eq_refl).
    destruct (load_response lib s s1) as [[data | e] s2]; simpl in *; [| exact Hl].
    destruct (truthy data); [| exact Hl].
    exact (extract_fields_status (s1 !! "status_code") data s2 Hl).
Qed.

(** What the three assignments do with a dictionary. *)
Lemma extract_fields_dict items (s : gmap string pyval) :
  extract_fields (PDict items) s
  = (Ok tt,
     <["reason" := items_get items "reason"]>
       (<["next_url" := py_or (items_get items "url") (items_get items "next_url")]>
          (<["correct" := items_get items "correct"]> s))).
Proof.
  unfold extract_fields, py_or. simpl. run_monad.
  destruct (truthy (items_get items "url")); reflexivity.
Qed.

(** A value without [get] stops the extraction before any assignment. *)
Lemma extract_fields_not_dict data (s : gmap string pyval) :
  (forall items, data <> PDict items) ->
  exists e, extract_fields data s = (Raise e, s).
Proof.
  intros H. destruct data; try (eexists; reflexivity).
  exfalso. eapply H. reflexivity.
Qed.


Lemma load_blob_json blob data (s : gmap string pyval) :
  json_loads lib blob = Ok data -> load_blob lib blob s = (Ok (Some data), s).
Proof.
  intros H1. unfold load_blob, try_except, try_except_if, lift.
  rewrite !bind_run, H1. reflexivity.
Qed.

End ParserProperties.

(* ===================================================================== *)
(** ** Properties of the output parser                                     *)
(* ===================================================================== *)

(** Scenario A of the specification, in the permissive syntax. *)
Example scenario_A :
  _parse_submission_result RefLib.lib
    "REQUEST_STATUS: 200
SERVER_RESPONSE: {'correct': True, 'url': 'https://x/q2'}"
  = Ok (<["status_code" := PInt 200]>
          (<["reason" := PNone]>
             (<["next_url" := PStr "https://x/q2"]>
                (<["correct" := PBool true]> ∅)))).
Proof. vm_compute. reflexivity. Qed.

(** Scenario A as the specification writes it, with double quotes: the
    strict parse succeeds. *)
Example scenario_A_strict :
  _parse_submission_result RefLib.lib
    ("REQUEST_STATUS: 200
SERVER_RESPONSE: {" +:+ dq +:+ "correct" +:+ dq +:+ ": true, "
       +:+ dq +:+ "url" +:+ dq +:+ ": " +:+ dq +:+ "https://x/q2" +:+ dq +:+ "}")
  = Ok (<["status_code" := PInt 200]>
          (<["reason" := PNone]>
             (<["next_url" := PStr "https://x/q2"]>
                (<["correct" := PBool true]> ∅)))).
Proof. vm_compute. reflexivity. Qed.

(** Scenario B of the specification. *)
Example scenario_B :
  _parse_submission_result RefLib.lib
    "Status Code: 400
Response Body: {'correct': False, 'reason': 'off by one'}"
  = Ok (<["status_code" := PInt 400]>
          (<["reason" := PStr "off by one"]>
             (<["next_url" := PNone]>
                (<["correct" := PBool false]> ∅)))).
Proof. vm_compute. reflexivity. Qed.







(* ===================================================================== *)
(** ** Facts about the controller                                          *)
(* ===================================================================== *)

Section Emits.
Context {W : Type}.
Variable P : Event -> Prop.

Lemma emits_ret {A} (a : A) : emits P (mret a : SE (State W) A).
Proof. intros st. exists []. rewrite app_nil_r. split; [reflexivity | constructor]. Qed.

Lemma emits_lift {A} (r : Res A) : emits P (lift r : SE (State W) A).
Proof. intros st. exists []. rewrite app_nil_r. split; [reflexivity | constructor]. Qed.

Lemma emits_raise {A} e : emits P (raise e : SE (State W) A).
Proof. intros st. exists []. rewrite app_nil_r. split; [reflexivity | constructor]. Qed.

Lemma emits_bind {A B} (c : SE (State W) A) (f : A -> SE (State W) B) :
  emits P c -> (forall a, emits P (f a)) -> emits P (c ≫= f).
Proof.
  intros Hc Hf st. rewrite bind_run. destruct (Hc st) as (e1 & T1 & F1).
  destruct (c st) as [[a | e] st1]; simpl in *.
  - destruct (Hf a st1) as (e2 & T2 & F2). exists (e1 ++ e2)%list.
    rewrite T2, T1, app_assoc. split; [reflexivity | apply Forall_app; split; assumption].
  - exists e1. split; assumption.
Qed.

Lemma emits_try {A} (c : SE (State W) A) (h : exn -> SE (State W) A) :
  emits P c -> (forall e, emits P (h e)) -> emits P (try_except c h).
Proof.
  intros Hc Hh st. unfold try_except, try_except_if.
  destruct (Hc st) as (e1 & T1 & F1).
  destruct (c st) as [[a | e] st1]; simpl in *.
  - exists e1. split; assumption.
  - destruct (Hh e st1) as (e2 & T2 & F2). exists (e1 ++ e2)%list.
    rewrite T2, T1, app_assoc. split; [reflexivity | apply Forall_app; split; assumption].
Qed.

Lemma emits_silent {A} (f : W -> A * W) : emits P (silent f).
Proof.
  intros st. unfold silent. destruct (f (world st)) as [a w]. exists []. simpl.
  rewrite app_nil_r. split; [reflexivity | constructor].
Qed.

Lemma emits_call {A} ev (f : W -> A * W) : P ev -> emits P (call ev f).
Proof.
  intros Hev st. unfold call. destruct (f (world st)) as [a w]. exists [ev]. simpl.
  split; [reflexivity | repeat constructor; exact Hev].
Qed.

Lemma emits_call_res {A} ev (f : W -> Res A * W) : P ev -> emits P (call_res ev f).
Proof.
  intros Hev. unfold call_res. apply emits_bind; [apply emits_call, Hev |].
  intros r. apply emits_lift.
Qed.

End Emits.

(** Decomposes a goal [emits P c] along the structure of [c]; what is left
    are the events themselves and the calls to other methods. *)
Ltac emits_step :=
  first
    [ apply emits_ret | apply emits_lift | apply emits_raise | apply emits_silent
    | apply emits_bind; [| intros ?]
    | apply emits_try; [| intros ?]
    | apply emits_call_res | apply emits_call
    | match goal with
      | |- emits _ (if ?b then _ else _) => destruct b
      | |- emits _ (match ?x with _ => _ end) => destruct x
      | |- emits _ (let '(_, _) := ?x in _) => destruct x
      end ].

Section ControllerFacts.
Context {W : Type}.
Variable env : Env W.
Variable lib : PyLib.
Variable settings : Settings.

Lemma now_run (st : State W) :
  now env st = (Ok (fst (clock env (world st))),
                {| world := snd (clock env (world st)); trace := trace st |}).
Proof. unfold now, silent. destruct (clock env (world st)); reflexivity. Qed.

Lemma now_returns : returns (now env).
Proof. intros st. rewrite now_run. eauto. Qed.

(** What [execute_code] returns: it never raises, the submission is the
    empty dictionary when nothing was printed and the parser's verdict
    otherwise, and [success] tells whether the code raised. *)
Lemma execute_code_returns code quiz_url (st : State W) :
  exists execution_result st',
    execute_code env lib settings code quiz_url st = (Ok execution_result, st')
    /\ (output execution_result = "" -> submission_result execution_result = ∅)
    /\ (output execution_result <> "" ->
        _parse_submission_result lib (output execution_result)
        = Ok (submission_result execution_result)).
Proof.
  unfold execute_code. rewrite bind_run.
  assert (Hexec : exists out raised st1,
             exec env code (inject settings quiz_url) st = (Ok (out, raised), st1)).
  { unfold exec. destruct code as [c |]; [| eauto].
    unfold call. destruct (run env c _ (world st)) as [[out raised] w]. eauto. }
  destruct Hexec as (out & raised & st1 & ->).
  destruct (String.eqb out "") eqn:E; simpl; rewrite bind_run.
  - apply String.eqb_eq in E. subst out. simpl. do 2 eexists.
    split; [reflexivity |]. simpl. split; [reflexivity | congruence].
  - apply String.eqb_neq in E. unfold lift.
    rewrite (parse_result lib out). simpl. do 2 eexists.
    split; [reflexivity |]. simpl. split; [congruence |].
    intros _. apply parse_result.
Qed.

Lemma execute_code_spec code quiz_url (st st' : State W) execution_result :
  execute_code env lib settings code quiz_url st = (Ok execution_result, st') ->
  (output execution_result = "" -> submission_result execution_result = ∅)
  /\ (output execution_result <> "" ->
      _parse_submission_result lib (output execution_result)
      = Ok (submission_result execution_result)).
Proof.
  intros H. destruct (execute_code_returns code quiz_url st) as (er & st1 & E & Hs).
  rewrite E in H. injection H as <- <-. exact Hs.
Qed.

(** A verdict of the parser is not the empty dictionary. *)
Lemma parsed_not_empty code quiz_url (st st' : State W) execution_result :
  execute_code env lib settings code quiz_url st = (Ok execution_result, st') ->
  output execution_result <> "" ->
  submission_result execution_result <> ∅.
Proof.
  intros H Hout. destruct (execute_code_spec _ _ _ _ _ H) as [_ Hp].
  eapply verdict_not_empty, parse_result_keys, Hp, Hout.
Qed.


(** The fallback submission: one POST of the fixed answer to the quiz URL,
    and the outcome read off its answer. *)
Lemma fallback_outcome_run self quiz_url (st : State W) :
  fallback_outcome env settings self quiz_url st
  = (Ok (outcome_of_fallback
           (fst (http_post env quiz_url (fallback_payload settings quiz_url) (world st)))),
     {| world := snd (http_post env quiz_url (fallback_payload settings quiz_url) (world st));
        trace := trace st ++ [EvPost quiz_url (fallback_payload settings quiz_url)] |}).
Proof.
  unfold fallback_outcome, submit_fallback, call_res, call. run_monad.
  destruct (http_post env quiz_url _ (world st)) as [[response | e] w]; simpl;
    [| reflexivity].
  destruct (resp_json response) as [data | e]; simpl; [| reflexivity].
  destruct data; reflexivity.
Qed.

Lemma fallback_outcome_returns self quiz_url :
  returns (fallback_outcome env settings self quiz_url).
Proof. intros st. rewrite fallback_outcome_run. eauto. Qed.

Lemma execute_code_total code quiz_url :
  returns (execute_code env lib settings code quiz_url).
Proof.
  intros st. destruct (execute_code_returns code quiz_url st) as (er & st' & E & _).
  eauto.
Qed.

Lemma retry_with_fix_returns self question_data quiz_url failed_code error start_time :
  returns (retry_with_fix env lib settings self question_data quiz_url
             failed_code error start_time).
Proof.
  unfold retry_with_fix. apply returns_bind; [apply now_returns | intros t].
  destruct (below_threshold _ _); [apply returns_ret |].
  apply returns_try. intros _. apply returns_ret.
Qed.

Lemma retry_with_feedback_returns self question_data quiz_url reason failed_code
    previous_output start_time :
  returns (retry_with_feedback env lib settings self question_data quiz_url
             reason failed_code previous_output start_time).
Proof.
  unfold retry_with_feedback. apply returns_bind; [apply now_returns | intros t].
  destruct (below_threshold _ _); [apply returns_ret |].
  apply returns_try. intros _. apply returns_ret.
Qed.

Lemma decide_outcome_returns self question_data quiz_url solution_code
    execution_result start_time :
  returns (decide_outcome env lib settings self question_data quiz_url
             solution_code execution_result start_time).
Proof.
  unfold decide_outcome.
  destruct (bool_decide _); [apply fallback_outcome_returns |].
  destruct (truthy _); [apply returns_ret |].
  destruct (is_False _); [| apply returns_ret].
  apply returns_bind; [apply now_returns | intros t].
  destruct (enough_time _ _).
  - apply returns_bind; [apply retry_with_feedback_returns | intros r].
    destruct (_ && _); apply returns_ret.
  - destruct (truthy _); apply returns_ret.
Qed.

Lemma execute_solution_returns self question_data quiz_url solution_code start_time :
  returns (execute_solution env lib settings self question_data quiz_url
             solution_code start_time).
Proof.
  unfold execute_solution.
  apply returns_bind; [apply execute_code_total | intros er].
  destruct (negb _); [| apply decide_outcome_returns].
  apply returns_bind; [apply now_returns | intros t].
  destruct (enough_time _ _);
    [apply retry_with_fix_returns | apply fallback_outcome_returns].
Qed.

Lemma solve_single_quiz_returns self quiz_url time_remaining start_time :
  returns (solve_single_quiz env lib settings self quiz_url time_remaining start_time).
Proof.
  unfold solve_single_quiz. apply returns_try. intros _. apply returns_ret.
Qed.

(** When Steps 1 and 2 fall through with the code, the method is Step 3
    run from there: nothing Steps 3 and 4 do reaches the outer [except]. *)
Lemma solve_from_step3 self quiz_url time_remaining start_time (st st2 : State W)
    question_data solution_code :
  generate_step env settings self quiz_url start_time st
  = (Ok (inl (question_data, solution_code)), st2) ->
  solve_single_quiz env lib settings self quiz_url time_remaining start_time st
  = execute_solution env lib settings self question_data quiz_url solution_code
      start_time st2.
Proof.
  intros Hgen. unfold solve_single_quiz.
  destruct (execute_solution_returns self question_data quiz_url solution_code
              start_time st2) as (o & st' & E).
  rewrite E. apply try_except_ok. rewrite bind_run, Hgen. exact E.
Qed.

Lemma execute_solution_success self question_data quiz_url solution_code start_time
    (st2 st3 : State W) execution_result :
  execute_code env lib settings (Some solution_code) quiz_url st2
  = (Ok execution_result, st3) ->
  success execution_result = true ->
  execute_solution env lib settings self question_data quiz_url solution_code
    start_time st2
  = decide_outcome env lib settings self question_data quiz_url solution_code
      execution_result start_time st3.
Proof.
  intros Hexec Hs. unfold execute_solution. rewrite bind_run, Hexec, Hs. reflexivity.
Qed.

Lemma execute_solution_failure self question_data quiz_url solution_code start_time
    (st2 st3 st4 : State W) execution_result t :
  execute_code env lib settings (Some solution_code) quiz_url st2
  = (Ok execution_result, st3) ->
  success execution_result = false ->
  now env st3 = (Ok t, st4) ->
  execute_solution env lib settings self question_data quiz_url solution_code
    start_time st2
  = if enough_time settings (remaining_at settings start_time t)
    then retry_with_fix env lib settings self question_data quiz_url solution_code
           (error execution_result) start_time st4
    else fallback_outcome env settings self quiz_url st4.
Proof.
  intros Hexec Hs Hnow. unfold execute_solution.
  rewrite bind_run, Hexec, Hs. simpl. rewrite bind_run, Hnow.
  destruct (enough_time _ _); reflexivity.
Qed.


Lemma decide_indeterminate self question_data quiz_url solution_code start_time
    (st3 : State W) execution_result :
  submission_result execution_result <> ∅ ->
  indeterminate (dict_get (submission_result execution_result) "correct") ->
  decide_outcome env lib settings self question_data quiz_url solution_code
    execution_result start_time st3
  = (Ok error_outcome, st3).
Proof.
  intros Hne [Ht Hf]. unfold decide_outcome.
  rewrite bool_decide_eq_false_2 by exact Hne. rewrite Ht, Hf. reflexivity.
Qed.





End ControllerFacts.

(* ===================================================================== *)
(** ** Properties of the execution adapter and of the controller           *)
(* ===================================================================== *)

Section FullExecution.
Context {W : Type}.
Variable lib : PyLib.
Variable settings : Settings.



End FullExecution.




(** C1 as it is written fails: in [world_hello] the execution succeeds,
    the parser finds nothing in the output, and the question ends with the
    ERROR outcome without any fallback submission. *)
Lemma unparseable_output_is_an_error :
  ~ fallback_whenever_no_verdict Scripted.env RefLib.lib Scripted.settings
      Scripted.handler Scripted.quiz_url 0 world_hello.
Proof.
  intros H. unfold fallback_whenever_no_verdict in H.
  eassert (Hclaim : _).
  { eapply H.
    - vm_compute. reflexivity.
    - vm_compute. reflexivity.
    - reflexivity.
    - right. intros key Hkey. unfold verdict_keys in Hkey.
      set_unfold in Hkey.
      destruct Hkey as [[[-> | ->] | ->] | ->]; vm_compute; reflexivity. }
  vm_compute in Hclaim. discriminate Hclaim.
Qed.

(** C1, amended.  When the execution succeeds and the captured output is
    empty, the controller posts the fixed answer FAILED to the quiz URL and
    returns incorrect with the [url] field of the answer when the answer is
    a JSON object, error with no next url when the answer cannot be parsed
    as JSON or the POST itself raised.  When the output is not empty and
    the parser found nothing in it, the controller returns the ERROR
    outcome and posts nothing. *)
Theorem fallback_only_without_output {W} (env : Env W) (lib : PyLib)
    (settings : Settings) (self : QuizHandler) (quiz_url : pyval)
    (time_remaining start_time : Z) (st st2 st3 : State W)
    (question_data : QuestionData) (solution_code : string)
    (execution_result : ExecutionResult) :
  generate_step env settings self quiz_url start_time st
  = (Ok (inl (question_data, solution_code)), st2) ->
  execute_code env lib settings (Some solution_code) quiz_url st2
  = (Ok execution_result, st3) ->
  success execution_result = true ->
  let run := solve_single_quiz env lib settings self quiz_url time_remaining
               start_time st in
  let body := fallback_payload settings quiz_url in
  let posted w := {| world := w; trace := trace st3 ++ [EvPost quiz_url body] |} in
  (output execution_result = "" ->
   payload_answer body = "FAILED"
   /\ (forall response w items,
         http_post env quiz_url body (world st3) = (Ok response, w) ->
         resp_json response = Ok (PDict items) ->
         run = (Ok {| status := Incorrect; next_url := items_get items "url" |},
                posted w))
   /\ (forall response w e,
         http_post env quiz_url body (world st3) = (Ok response, w) ->
         resp_json response = Raise e ->
         run = (Ok error_outcome, posted w))
   /\ (forall e w,
         http_post env quiz_url body (world st3) = (Raise e, w) ->
         run = (Ok error_outcome, posted w)))
  /\ (output execution_result <> "" ->
      nothing_found (submission_result execution_result) ->
      run = (Ok error_outcome, st3)).
Proof.
  intros Hgen Hexec Hsucc run body posted. subst run.
  rewrite (solve_from_step3 env lib settings self quiz_url time_remaining
             start_time st st2 question_data solution_code Hgen).
  rewrite (execute_solution_success env lib settings self question_data quiz_url
             solution_code start_time st2 st3 execution_result Hexec Hsucc).
  split.
  - intros Hout.
    assert (Hem : submission_result execution_result = ∅)
      by (apply (execute_code_spec env lib settings _ _ _ _ _ Hexec), Hout).
    unfold decide_outcome. rewrite bool_decide_eq_true_2 by exact Hem.
    rewrite fallback_outcome_run. fold body.
    split; [reflexivity |]. repeat split.
    + intros response w items Hpost Hjson. rewrite Hpost. simpl. rewrite Hjson.
      reflexivity.
    + intros response w e Hpost Hjson. rewrite Hpost. simpl. rewrite Hjson.
      reflexivity.
    + intros e w Hpost. rewrite Hpost. reflexivity.
  - intros Hout Hnothing.
    apply decide_indeterminate.
    + eapply parsed_not_empty; eassumption.
    + unfold indeterminate, dict_get.
      rewrite (Hnothing "correct") by (unfold verdict_keys; set_solver).
      split; reflexivity.
Qed.

Lemma fallback_only_without_output_witness :
  solve_single_quiz Scripted.env RefLib.lib Scripted.settings Scripted.handler
    Scripted.quiz_url (seconds 180) 0 world_silent
  = (Ok {| status := Incorrect; next_url := PStr "https://x/q2" |},
     {| world := {| Scripted.ticks := []; Scripted.pages := [];
                    Scripted.generations := []; Scripted.analyses := [];
                    Scripted.runs := []; Scripted.posts := [] |};
        trace := [EvVisit Scripted.quiz_url;
                  EvGenerate question PNone None None;
                  EvExec "print(solve())" (inject Scripted.settings Scripted.quiz_url);
                  EvPost Scripted.quiz_url
                    (fallback_payload Scripted.settings Scripted.quiz_url)] |}).
Proof.
  scripted_steps world_silent.
  destruct (fallback_only_without_output Scripted.env RefLib.lib Scripted.settings
              Scripted.handler Scripted.quiz_url (seconds 180) 0 _ _ _ _ _ _
              Hgen Hexec eq_refl) as [Hempty _].
  destruct Hempty as (_ & Hobject & _); [reflexivity |].
  etransitivity.
  - eapply Hobject; [vm_compute; reflexivity | reflexivity].
  - vm_compute. reflexivity.
Defined.

(** C5.  When the execution of the generated code raises, the controller
    calls [retry_with_fix] exactly when the remaining time exceeds twice
    the skip threshold, and otherwise performs the fallback submission (one
    POST, no call of the model, no execution).  Each retry helper returns
    at once, with no event at all, when the remaining time it reads is
    below the skip threshold.  With 10 seconds remaining and a threshold of
    15 seconds an execution failure leads to the fallback submission. *)
Theorem fix_retry_needs_twice_the_threshold {W} (env : Env W) (lib : PyLib)
    (settings : Settings) (self : QuizHandler) (quiz_url : pyval)
    (time_remaining start_time t : Z) (st st2 st3 st4 : State W)
    (question_data : QuestionData) (solution_code : string)
    (execution_result : ExecutionResult) :
  generate_step env settings self quiz_url start_time st
  = (Ok (inl (question_data, solution_code)), st2) ->
  execute_code env lib settings (Some solution_code) quiz_url st2
  = (Ok execution_result, st3) ->
  success execution_result = false ->
  now env st3 = (Ok t, st4) ->
  let run := solve_single_quiz env lib settings self quiz_url time_remaining
               start_time st in
  let remaining := remaining_at settings start_time t in
  let fallback := fallback_outcome env settings self quiz_url st4 in
  (seconds (SKIP_THRESHOLD_SECONDS settings * 2) < remaining ->
   run = retry_with_fix env lib settings self question_data quiz_url solution_code
           (error execution_result) start_time st4)
  /\ (remaining <= seconds (SKIP_THRESHOLD_SECONDS settings * 2) ->
      run = fallback
      /\ trace (snd run)
         = trace st3 ++ [EvPost quiz_url (fallback_payload settings quiz_url)])
  /\ (forall q url code err reason out start (s s' : State W) t',
        now env s = (Ok t', s') ->
        remaining_at settings start t' < seconds (SKIP_THRESHOLD_SECONDS settings) ->
        retry_with_fix env lib settings self q url code err start s
        = (Ok error_outcome, s')
        /\ retry_with_feedback env lib settings self q url reason code out start s
           = (Ok {| status := Incorrect; next_url := PNone |}, s')
        /\ trace s' = trace s)
  /\ (SKIP_THRESHOLD_SECONDS settings = 15 -> remaining = seconds 10 ->
      run = fallback).
Proof.
  intros Hgen Hexec Hfail Hnow run remaining fallback. subst run.
  rewrite (solve_from_step3 env lib settings self quiz_url time_remaining
             start_time st st2 question_data solution_code Hgen).
  rewrite (execute_solution_failure env lib settings self question_data quiz_url
             solution_code start_time st2 st3 st4 execution_result t
             Hexec Hfail Hnow).
  fold remaining. unfold enough_time.
  assert (Htrace4 : trace st4 = trace st3).
  { rewrite now_run in Hnow. injection Hnow as _ <-. reflexivity. }
  split; [| split; [| split]].
  - intros Hlt. apply Z.ltb_lt in Hlt. rewrite Hlt. reflexivity.
  - intros Hle. apply Z.ltb_ge in Hle. rewrite Hle. split; [reflexivity |].
    subst fallback. rewrite fallback_outcome_run. simpl. rewrite Htrace4.
    reflexivity.
  - intros q url code err reason out start s s' t' Hclock Hbelow.
    apply Z.ltb_lt in Hbelow. split; [| split].
    + unfold retry_with_fix. rewrite bind_run, Hclock. unfold below_threshold.
      rewrite Hbelow. reflexivity.
    + unfold retry_with_feedback. rewrite bind_run, Hclock. unfold below_threshold.
      rewrite Hbelow. reflexivity.
    + rewrite now_run in Hclock. injection Hclock as _ <-. reflexivity.
  - intros Hthr Hrem.
    assert (Hge : Z.ltb (seconds (SKIP_THRESHOLD_SECONDS settings * 2)) remaining = false).
    { apply Z.ltb_ge. rewrite Hthr, Hrem. unfold seconds. lia. }
    rewrite Hge. reflexivity.
Qed.

Lemma fix_retry_needs_twice_the_threshold_witness :
  solve_single_quiz Scripted.env RefLib.lib Scripted.settings Scripted.handler
    Scripted.quiz_url (seconds 180) 0 world_D
  = fallback_outcome Scripted.env Scripted.settings Scripted.handler Scripted.quiz_url
      {| world := {| Scripted.ticks := []; Scripted.pages := [];
                     Scripted.generations := [];
                     Scripted.analyses := [Ok "print(fixed())"];
                     Scripted.runs := [("", None)];
                     Scripted.posts := [Ok next_quiz_response] |};
         trace := [EvVisit Scripted.quiz_url;
                   EvGenerate question PNone None None;
                   EvExec "print(solve())"
                     (inject Scripted.settings Scripted.quiz_url)] |}.
Proof.
  scripted_steps world_D.
  destruct (fix_retry_needs_twice_the_threshold Scripted.env RefLib.lib
              Scripted.settings Scripted.handler Scripted.quiz_url (seconds 180) 0
              _ _ _ _ _ _ _ _ Hgen Hexec eq_refl Hnow) as (_ & _ & _ & HD).
  apply HD; reflexivity.
Defined.





Section RetryShape.
Context {W : Type}.
Variable env : Env W.
Variable lib : PyLib.
Variable settings : Settings.

(** What a call of [retry_with_fix] can do: nothing, one call of the model,
    or one call of the model and one execution; it returns, and never with
    the status skipped. *)
Lemma retry_with_fix_shape self question_data quiz_url failed_code error start_time
    (st : State W) :
  exists outcome st' evs,
    retry_with_fix env lib settings self question_data quiz_url failed_code error
      start_time st = (Ok outcome, st')
    /\ status outcome <> Skipped
    /\ trace st' = trace st ++ evs
    /\ (evs = []
        \/ evs = [EvAnalyze question_data failed_code error]
        \/ exists fixed_code,
            evs = [EvAnalyze question_data failed_code error;
                   EvExec fixed_code (inject settings quiz_url)]).
Proof.
  unfold retry_with_fix, analyze_error_and_retry, execute_code, exec, call_res, call,
    now, silent.
  run_monad.
  destruct (clock env (world st)) as [t w1]; simpl.
  destruct (below_threshold settings _); simpl.
  { do 2 eexists. exists []. rewrite app_nil_r.
    repeat split; [discriminate | left; reflexivity]. }
  destruct (llm_analyze env _ _ _ w1) as [[fixed | e] w2]; simpl.
  2:{ do 2 eexists. exists [EvAnalyze question_data failed_code error].
      repeat split; [discriminate | right; left; reflexivity]. }
  destruct (run env fixed _ w2) as [[out raised] w3]; simpl.
  destruct (String.eqb out ""); simpl; [| rewrite parse_result; simpl];
    destruct raised; simpl;
    try match goal with |- context [truthy ?v] => destruct (truthy v) end;
    do 2 eexists;
    exists [EvAnalyze question_data failed_code error;
            EvExec fixed (inject settings quiz_url)];
    rewrite <- app_assoc;
    (repeat split; [discriminate | right; right; eexists; reflexivity]).
Qed.

Lemma retry_with_feedback_shape self question_data quiz_url reason failed_code
    previous_output start_time (st : State W) :
  let asked := EvGenerate question_data reason (Some failed_code)
                 (Some previous_output) in
  exists outcome st' evs,
    retry_with_feedback env lib settings self question_data quiz_url reason
      failed_code previous_output start_time st = (Ok outcome, st')
    /\ status outcome <> Skipped
    /\ trace st' = trace st ++ evs
    /\ (evs = [] \/ evs = [asked]
        \/ exists retry_code,
            evs = [asked; EvExec retry_code (inject settings quiz_url)]).
Proof.
  intros asked. subst asked.
  unfold retry_with_feedback, generate_solution, execute_code, exec, call_res, call,
    now, silent.
  run_monad.
  destruct (clock env (world st)) as [t w1]; simpl.
  destruct (below_threshold settings _); simpl.
  { do 2 eexists. exists []. rewrite app_nil_r.
    repeat split; [discriminate | left; reflexivity]. }
  destruct (llm_generate env _ _ _ _ w1) as [[retry_code |] w2]; simpl.
  2:{ do 2 eexists. eexists [_].
      repeat split; [discriminate | right; left; reflexivity]. }
  destruct (run env retry_code _ w2) as [[out raised] w3]; simpl.
  destruct (String.eqb out ""); simpl; [| rewrite parse_result; simpl];
    destruct raised; simpl;
    try match goal with |- context [bool_decide ?p] => destruct (bool_decide p) end;
    try match goal with |- context [truthy ?v] => destruct (truthy v) end;
    do 2 eexists; eexists [_; EvExec retry_code (inject settings quiz_url)];
    rewrite <- app_assoc;
    (repeat split; [discriminate | right; right; eexists; reflexivity]).
Qed.


End RetryShape.



(** C4.  In both retry helpers, when the one additional execution succeeds
    and its output is parsed, the status is decided by the truthiness of
    the parsed [correct] alone: an indeterminate verdict (which the
    top-level check turns into the ERROR outcome) gives the status
    incorrect.  Each helper returns an outcome whose status is correct,
    incorrect or error, never skipped, after at most one call of the model
    and one execution, and without any fallback POST. *)
Theorem retry_helpers_decide_by_truthiness {W} (env : Env W) (lib : PyLib)
    (settings : Settings) (self : QuizHandler) (question_data : QuestionData)
    (quiz_url : pyval) (start_time : Z) :
  (forall failed_code error (st st1 st2 st3 : State W) t fixed_code execution_result,
      now env st = (Ok t, st1) ->
      seconds (SKIP_THRESHOLD_SECONDS settings) <= remaining_at settings start_time t ->
      analyze_error_and_retry env question_data failed_code error st1
      = (Ok fixed_code, st2) ->
      execute_code env lib settings (Some fixed_code) quiz_url st2
      = (Ok execution_result, st3) ->
      success execution_result = true ->
      output execution_result <> "" ->
      let correct := dict_get (submission_result execution_result) "correct" in
      let verdict_url := dict_get (submission_result execution_result) "next_url" in
      let run := retry_with_fix env lib settings self question_data quiz_url
                   failed_code error start_time st in
      run = (Ok {| status := if truthy correct then Correct else Incorrect;
                   next_url := verdict_url |}, st3)
      /\ (indeterminate correct ->
          run = (Ok {| status := Incorrect; next_url := verdict_url |}, st3)))
  /\ (forall reason failed_code previous_output (st st1 st2 st3 : State W) t
        retry_code execution_result,
      now env st = (Ok t, st1) ->
      seconds (SKIP_THRESHOLD_SECONDS settings) <= remaining_at settings start_time t ->
      generate_solution env question_data reason (Some failed_code)
        (Some previous_output) st1 = (Ok retry_code, st2) ->
      execute_code env lib settings retry_code quiz_url st2
      = (Ok execution_result, st3) ->
      success execution_result = true ->
      output execution_result <> "" ->
      let correct := dict_get (submission_result execution_result) "correct" in
      let verdict_url := dict_get (submission_result execution_result) "next_url" in
      let run := retry_with_feedback env lib settings self question_data quiz_url
                   reason failed_code previous_output start_time st in
      run = (Ok {| status := if truthy correct then Correct else Incorrect;
                   next_url := verdict_url |}, st3)
      /\ (indeterminate correct ->
          run = (Ok {| status := Incorrect; next_url := verdict_url |}, st3)))
  /\ (forall failed_code error (st : State W),
      exists outcome st' evs,
        retry_with_fix env lib settings self question_data quiz_url failed_code
          error start_time st = (Ok outcome, st')
        /\ status outcome <> Skipped
        /\ trace st' = trace st ++ evs
        /\ Forall (fun ev => ~ is_post ev) evs
        /\ (length evs <= 2)%nat)
  /\ (forall reason failed_code previous_output (st : State W),
      exists outcome st' evs,
        retry_with_feedback env lib settings self question_data quiz_url reason
          failed_code previous_output start_time st = (Ok outcome, st')
        /\ status outcome <> Skipped
        /\ trace st' = trace st ++ evs
        /\ Forall (fun ev => ~ is_post ev) evs
        /\ (length evs <= 2)%nat).
Proof.
  split; [| split; [| split]].
  - intros failed_code error st st1 st2 st3 t fixed er Hnow Hthr Han Hexec Hsucc Hout
      correct verdict_url run.
    assert (Hrun : run = (Ok {| status := if truthy correct then Correct else Incorrect;
                                next_url := verdict_url |}, st3)).
    { subst run. unfold retry_with_fix. rewrite bind_run, Hnow.
      unfold below_threshold. rewrite (proj2 (Z.ltb_ge _ _) Hthr).
      apply try_except_ok. rewrite bind_run, Han. rewrite bind_run, Hexec, Hsucc.
      simpl. fold correct. destruct (truthy correct); reflexivity. }
    split; [exact Hrun |]. intros [Hfalsy _]. rewrite Hrun, Hfalsy. reflexivity.
  - intros reason failed_code previous_output st st1 st2 st3 t retry_code er
      Hnow Hthr Hgen Hexec Hsucc Hout correct verdict_url run.
    assert (Hrun : run = (Ok {| status := if truthy correct then Correct else Incorrect;
                                next_url := verdict_url |}, st3)).
    { subst run. unfold retry_with_feedback. rewrite bind_run, Hnow.
      unfold below_threshold. rewrite (proj2 (Z.ltb_ge _ _) Hthr).
      apply try_except_ok. rewrite bind_run, Hgen. rewrite bind_run, Hexec, Hsucc.
      simpl.
      rewrite bool_decide_eq_false_2
        by (eapply parsed_not_empty; eassumption).
      fold correct. destruct (truthy correct); reflexivity. }
    split; [exact Hrun |]. intros [Hfalsy _]. rewrite Hrun, Hfalsy. reflexivity.
  - intros failed_code error st.
    destruct (retry_with_fix_shape env lib settings self question_data quiz_url
                failed_code error start_time st)
      as (o & st' & evs & Hrun & Hstatus & Htrace & Hshape).
    exists o, st', evs. repeat split; try assumption.
    + destruct Hshape as [-> | [-> | [c ->]]]; repeat constructor; intros [].
    + destruct Hshape as [-> | [-> | [c ->]]]; simpl; lia.
  - intros reason failed_code previous_output st.
    destruct (retry_with_feedback_shape env lib settings self question_data quiz_url
                reason failed_code previous_output start_time st)
      as (o & st' & evs & Hrun & Hstatus & Htrace & Hshape).
    exists o, st', evs. repeat split; try assumption.
    + destruct Hshape as [-> | [-> | [c ->]]]; repeat constructor; intros [].
    + destruct Hshape as [-> | [-> | [c ->]]]; simpl; lia.
Qed.

Lemma retry_helpers_decide_by_truthiness_witness :
  retry_with_fix Scripted.env RefLib.lib Scripted.settings Scripted.handler question
    Scripted.quiz_url "print(solve())" (Some "ZeroDivisionError: division by zero")
    0 world_helper
  = (Ok {| status := Incorrect; next_url := PStr "https://x/q2" |},
     {| world := {| Scripted.ticks := []; Scripted.pages := [];
                    Scripted.generations := [Some "print(solve_again())"];
                    Scripted.analyses := []; Scripted.runs := [];
                    Scripted.posts := [] |};
        trace := [EvAnalyze question "print(solve())"
                    (Some "ZeroDivisionError: division by zero");
                  EvExec "print(fixed())"
                    (inject Scripted.settings Scripted.quiz_url)] |})
  /\ retry_with_feedback Scripted.env RefLib.lib Scripted.settings Scripted.handler
       question Scripted.quiz_url (PStr "off by one") "print(solve())" "42" 0
       world_helper
     = (Ok {| status := Incorrect; next_url := PStr "https://x/q2" |},
        {| world := {| Scripted.ticks := []; Scripted.pages := [];
                       Scripted.generations := [];
                       Scripted.analyses := [Ok "print(fixed())"];
                       Scripted.runs := []; Scripted.posts := [] |};
           trace := [EvGenerate question (PStr "off by one") (Some "print(solve())")
                       (Some "42");
                     EvExec "print(solve_again())"
                       (inject Scripted.settings Scripted.quiz_url)] |}).
Proof.
  destruct (retry_helpers_decide_by_truthiness Scripted.env RefLib.lib
              Scripted.settings Scripted.handler question Scripted.quiz_url 0)
    as (Hfix & Hfeedback & _).
  assert (Hnow : now Scripted.env world_helper
                 = (Ok (seconds 10),
                    {| world := {| Scripted.ticks := []; Scripted.pages := [];
                                   Scripted.generations := [Some "print(solve_again())"];
                                   Scripted.analyses := [Ok "print(fixed())"];
                                   Scripted.runs := [("Response: {'url': 'https://x/q2'}", None)];
                                   Scripted.posts := [] |};
                       trace := [] |}))
    by (vm_compute; reflexivity).
  assert (Hthr : seconds (SKIP_THRESHOLD_SECONDS Scripted.settings)
                 <= remaining_at Scripted.settings 0 (seconds 10))
    by (vm_compute; discriminate).
  assert (Hout : "Response: {'url': 'https://x/q2'}" <> "") by discriminate.
  split.
  - match type of Hnow with
    | _ = (Ok _, ?s1) =>
        eassert (Han : analyze_error_and_retry Scripted.env question "print(solve())"
                         (Some "ZeroDivisionError: division by zero") s1 = (Ok _, _))
          by (vm_compute; reflexivity)
    end.
    match type of Han with
    | _ = (Ok ?c, ?s) =>
        eassert (Hexec : execute_code Scripted.env RefLib.lib Scripted.settings
                           (Some c) Scripted.quiz_url s = (Ok _, _))
          by (vm_compute; reflexivity)
    end.
    destruct (Hfix _ _ _ _ _ _ _ _ _ Hnow Hthr Han Hexec eq_refl Hout) as [_ Hind].
    etransitivity;
      [apply Hind; split; (vm_compute; reflexivity) | vm_compute; reflexivity].
  - match type of Hnow with
    | _ = (Ok _, ?s1) =>
        eassert (Hgen : generate_solution Scripted.env question (PStr "off by one")
                          (Some "print(solve())") (Some "42") s1 = (Ok _, _))
          by (vm_compute; reflexivity)
    end.
    match type of Hgen with
    | _ = (Ok ?c, ?s) =>
        eassert (Hexec : execute_code Scripted.env RefLib.lib Scripted.settings
                           c Scripted.quiz_url s = (Ok _, _))
          by (vm_compute; reflexivity)
    end.
    destruct (Hfeedback _ _ _ _ _ _ _ _ _ _ Hnow Hthr Hgen Hexec eq_refl Hout)
      as [_ Hind].
    etransitivity;
      [apply Hind; split; (vm_compute; reflexivity) | vm_compute; reflexivity].
Defined.

Section Credentials.
Context {W : Type}.
Variable env : Env W.
Variable lib : PyLib.
Variable settings : Settings.

(** The handler is passed around and never read. *)
Lemma solve_single_quiz_self self1 self2 quiz_url time_remaining start_time :
  solve_single_quiz env lib settings self1 quiz_url time_remaining start_time
  = solve_single_quiz env lib settings self2 quiz_url time_remaining start_time.
Proof. reflexivity. Qed.

Lemma chain_loop_self fuel self1 self2 :
  forall current_url stats (st : State W),
    chain_loop env lib settings fuel self1 current_url stats st
    = chain_loop env lib settings fuel self2 current_url stats st.
Proof.
  induction fuel as [| fuel IH]; intros current_url stats st; simpl.
  - reflexivity.
  - destruct (truthy current_url); [| reflexivity].
    rewrite !bind_run. destruct (now env st) as [[t0 | e] s0]; [| reflexivity].
    rewrite !bind_run. destruct (now env s0) as [[t1 | e] s1]; [| reflexivity].
    rewrite !bind_run. destruct (now env s1) as [[t2 | e] s2]; [| reflexivity].
    rewrite !bind_run.
    rewrite (solve_single_quiz_self self1 self2).
    destruct (solve_single_quiz env lib settings self2 current_url _ t0 s2)
      as [[result | e] s3]; [| reflexivity].
    destruct (truthy (next_url result)); [apply IH | reflexivity].
Qed.

Lemma execute_code_emits code quiz_url :
  emits (from_settings settings) (execute_code env lib settings code quiz_url).
Proof.
  unfold execute_code, exec. apply emits_bind.
  - destruct code; [| apply emits_ret].
    apply emits_call. split; reflexivity.
  - intros [out raised]. repeat emits_step.
Qed.

Lemma fallback_outcome_emits self quiz_url :
  emits (from_settings settings) (fallback_outcome env settings self quiz_url).
Proof.
  unfold fallback_outcome, submit_fallback.
  repeat first [ emits_step | exact I | (repeat split; reflexivity) ].
Qed.

Lemma retry_with_fix_emits self question_data quiz_url failed_code error start_time :
  emits (from_settings settings)
    (retry_with_fix env lib settings self question_data quiz_url failed_code error
       start_time).
Proof.
  unfold retry_with_fix, now, analyze_error_and_retry.
  repeat first [ apply execute_code_emits | emits_step | exact I ].
Qed.

Lemma retry_with_feedback_emits self question_data quiz_url reason failed_code
    previous_output start_time :
  emits (from_settings settings)
    (retry_with_feedback env lib settings self question_data quiz_url reason
       failed_code previous_output start_time).
Proof.
  unfold retry_with_feedback, now, generate_solution.
  repeat first [ apply execute_code_emits | emits_step | exact I ].
Qed.

Lemma solve_single_quiz_emits self quiz_url time_remaining start_time :
  emits (from_settings settings)
    (solve_single_quiz env lib settings self quiz_url time_remaining start_time).
Proof.
  unfold solve_single_quiz, generate_step, execute_solution, decide_outcome,
    visit_quiz_page, generate_solution, now.
  repeat first
    [ apply execute_code_emits | apply fallback_outcome_emits
    | apply retry_with_fix_emits | apply retry_with_feedback_emits
    | emits_step | exact I ].
Qed.

Lemma chain_loop_emits fuel self :
  forall current_url stats,
    emits (from_settings settings)
      (chain_loop env lib settings fuel self current_url stats).
Proof.
  induction fuel as [| fuel IH]; intros current_url stats; simpl.
  - destruct (truthy current_url); apply emits_ret.
  - destruct (truthy current_url); [| apply emits_ret].
    unfold now.
    repeat first [ apply solve_single_quiz_emits | apply IH | emits_step ].
Qed.

Lemma handle_quiz_emits fuel request :
  emits (from_settings settings) (handle_quiz env lib settings fuel request).
Proof.
  unfold handle_quiz, solve_quiz_sequence, now.
  repeat first [ apply chain_loop_emits | emits_step ].
Qed.

Lemma handle_quiz_returns fuel request :
  returns (handle_quiz env lib settings fuel request).
Proof.
  unfold handle_quiz. apply returns_bind; [apply now_returns | intros t].
  destruct (negb _); [apply returns_ret |].
  apply returns_bind; [| intros stats; apply returns_ret].
  apply returns_try. intros _. apply returns_ret.
Qed.

Lemma handle_quiz_same_chain fuel request1 request2 (st : State W) :
  req_url request1 = req_url request2 ->
  req_secret request1 = req_secret request2 ->
  exists reply1 reply2 stats st',
    handle_quiz env lib settings fuel request1 st = (Ok (reply1, stats), st')
    /\ handle_quiz env lib settings fuel request2 st = (Ok (reply2, stats), st').
Proof.
  intros Hurl Hsecret. unfold handle_quiz. rewrite !bind_run, now_run.
  rewrite Hsecret, Hurl.
  destruct (negb _); [do 4 eexists; split; reflexivity |].
  rewrite !bind_run. unfold solve_quiz_sequence, try_except, try_except_if.
  rewrite !bind_run.
  rewrite (chain_loop_self fuel
             {| email := req_email request1; secret := req_secret request2 |}
             {| email := req_email request2; secret := req_secret request2 |}).
  destruct (chain_loop env lib settings fuel _ _ _ _) as [[stats | e] s1]; simpl.
  - rewrite bind_run, now_run. simpl. do 4 eexists. split; reflexivity.
  - do 4 eexists. split; reflexivity.
Qed.

End Credentials.

(** C10.  Two requests with the same url and the same secret, whatever
    their emails, start the same chain: the same statistics, the same final
    world and the same trace of events, in every world.  Every fallback
    POST of a chain carries the email and the secret of the settings, and
    every executed program is given the email and the secret of the
    settings; the handler built from the request is never read by
    [solve_single_quiz].  Only the reply to the request repeats its
    email. *)
Theorem request_credentials_never_used {W} (env : Env W) (lib : PyLib)
    (settings : Settings) (fuel : nat) (request1 request2 : QuizRequest)
    (st : State W) :
  req_url request1 = req_url request2 ->
  req_secret request1 = req_secret request2 ->
  (exists reply1 reply2 stats st' evs,
      handle_quiz env lib settings fuel request1 st = (Ok (reply1, stats), st')
      /\ handle_quiz env lib settings fuel request2 st = (Ok (reply2, stats), st')
      /\ trace st' = trace st ++ evs
      /\ Forall (from_settings settings) evs)
  /\ (forall self1 self2 quiz_url time_remaining start_time,
        solve_single_quiz env lib settings self1 quiz_url time_remaining start_time
        = solve_single_quiz env lib settings self2 quiz_url time_remaining start_time).
Proof.
  intros Hurl Hsecret. split.
  - destruct (handle_quiz_same_chain env lib settings fuel request1 request2 st
                Hurl Hsecret) as (reply1 & reply2 & stats & st' & H1 & H2).
    destruct (handle_quiz_emits env lib settings fuel request1 st)
      as (evs & Htrace & Hall).
    rewrite H1 in Htrace. simpl in Htrace.
    exists reply1, reply2, stats, st', evs. repeat split; assumption.
  - intros. apply solve_single_quiz_self.
Qed.

Lemma request_credentials_never_used_witness :
  exists reply1 reply2 stats st' evs,
    handle_quiz Scripted.env RefLib.lib Scripted.settings 3
      {| req_email := "alice@example.org"; req_secret := "s3cret";
         req_url := "https://x/q1" |} world_chain
    = (Ok (reply1, stats), st')
    /\ handle_quiz Scripted.env RefLib.lib Scripted.settings 3
         {| req_email := "bob@example.org"; req_secret := "s3cret";
            req_url := "https://x/q1" |} world_chain
       = (Ok (reply2, stats), st')
    /\ trace st' = trace world_chain ++ evs
    /\ Forall (from_settings Scripted.settings) evs.
Proof.
  apply (request_credentials_never_used Scripted.env RefLib.lib Scripted.settings 3
           {| req_email := "alice@example.org"; req_secret := "s3cret";
              req_url := "https://x/q1" |}
           {| req_email := "bob@example.org"; req_secret := "s3cret";
              req_url := "https://x/q1" |} world_chain);
    reflexivity.
Defined.

(** The chain of [world_chain]: the first question is answered correctly,
    the second one ends with the fallback submission, which names no
    further quiz. *)
Example chain_run :
  handle_quiz Scripted.env RefLib.lib Scripted.settings 3
    {| req_email := "alice@example.org"; req_secret := "s3cret";
       req_url := "https://x/q1" |} world_chain
  = (Ok (Accepted "alice@example.org" "https://x/q1",
         Some {| total := 2; n_correct := 1; n_incorrect := 1;
                 n_skipped := 0; n_errors := 0 |}),
     {| world := {| Scripted.ticks := []; Scripted.pages := [];
                    Scripted.generations := []; Scripted.analyses := [];
                    Scripted.runs := []; Scripted.posts := [] |};
        trace :=
          [EvVisit (PStr "https://x/q1");
           EvGenerate question PNone None None;
           EvExec "print(solve())" (inject Scripted.settings (PStr "https://x/q1"));
           EvVisit (PStr "https://x/q2");
           EvGenerate {| question_text := "What is 2+2?"; raw_html := "<html/>";
                         url := PStr "https://x/q2" |} PNone None None;
           EvExec "print(solve())" (inject Scripted.settings (PStr "https://x/q2"));
           EvPost (PStr "https://x/q2")
             (fallback_payload Scripted.settings (PStr "https://x/q2"))] |}).
Proof. vm_compute. reflexivity. Qed.

(* ===================================================================== *)
(** ** Further properties of the program                                   *)
(* ===================================================================== *)

(** *** Counting the events of a computation *)

Section Appends.
Context {W : Type}.

Lemma weight_app w (e1 e2 : list Event) :
  weight w (e1 ++ e2) = (weight w e1 + weight w e2)%nat.
Proof. induction e1 as [| ev e1 IH]; simpl; [reflexivity | rewrite IH; lia]. Qed.

Lemma appends_weaken {A} (P Q : list Event -> Prop) (c : SE (State W) A) :
  appends P c -> (forall evs, P evs -> Q evs) -> appends Q c.
Proof. intros Hc HPQ st. destruct (Hc st) as (evs & T & H). eauto. Qed.

Lemma appends_ret {A} (P : list Event -> Prop) (a : A) :
  P [] -> appends P (mret a : SE (State W) A).
Proof. intros H st. exists []. rewrite app_nil_r. split; [reflexivity | exact H]. Qed.

Lemma appends_bind {A B} (P1 P2 P : list Event -> Prop)
    (c : SE (State W) A) (f : A -> SE (State W) B) :
  appends P1 c -> (forall a, appends P2 (f a)) ->
  (forall e1, P1 e1 -> P e1) ->
  (forall e1 e2, P1 e1 -> P2 e2 -> P (e1 ++ e2)) ->
  appends P (c ≫= f).
Proof.
  intros Hc Hf Hraise Hboth st. rewrite bind_run. destruct (Hc st) as (e1 & T1 & H1).
  destruct (c st) as [[a | e] st1]; simpl in *.
  - destruct (Hf a st1) as (e2 & T2 & H2). exists (e1 ++ e2).
    rewrite T2, T1, app_assoc. split; [reflexivity | apply Hboth; assumption].
  - exists e1. split; [exact T1 | apply Hraise, H1].
Qed.

Lemma appends_try {A} (P1 P2 P : list Event -> Prop)
    (c : SE (State W) A) (h : exn -> SE (State W) A) :
  appends P1 c -> (forall e, appends P2 (h e)) ->
  (forall e1, P1 e1 -> P e1) ->
  (forall e1 e2, P1 e1 -> P2 e2 -> P (e1 ++ e2)) ->
  appends P (try_except c h).
Proof.
  intros Hc Hh Hok Hboth st. unfold try_except, try_except_if.
  destruct (Hc st) as (e1 & T1 & H1).
  destruct (c st) as [[a | e] st1]; simpl in *.
  - exists e1. split; [exact T1 | apply Hok, H1].
  - destruct (Hh e st1) as (e2 & T2 & H2). exists (e1 ++ e2).
    rewrite T2, T1, app_assoc. split; [reflexivity | apply Hboth; assumption].
Qed.

Lemma appends_call_res {A} ev (f : W -> Res A * W) :
  appends (fun evs => evs = [ev]) (call_res ev f).
Proof.
  intros st. unfold call_res, call. run_monad.
  destruct (f (world st)) as [[a | e] w]; exists [ev]; split; reflexivity.
Qed.

Variable w : Kind -> nat.

Lemma costs_weaken {A} n m (c : SE (State W) A) :
  costs w n c -> (n <= m)%nat -> costs w m c.
Proof. intros Hc Hle. eapply appends_weaken; [exact Hc |]. simpl. intros. lia. Qed.

Lemma costs_ret {A} (a : A) : costs w 0 (mret a : SE (State W) A).
Proof. apply appends_ret. simpl. lia. Qed.

Lemma costs_lift {A} (r : Res A) : costs w 0 (lift r : SE (State W) A).
Proof. intros st. exists []. rewrite app_nil_r. split; [reflexivity | simpl; lia]. Qed.

Lemma costs_raise {A} e : costs w 0 (raise e : SE (State W) A).
Proof. intros st. exists []. rewrite app_nil_r. split; [reflexivity | simpl; lia]. Qed.

Lemma costs_silent {A} (f : W -> A * W) : costs w 0 (silent f).
Proof.
  intros st. unfold silent. destruct (f (world st)) as [a w']. exists []. simpl.
  rewrite app_nil_r. split; [reflexivity | lia].
Qed.

Lemma costs_call {A} ev (f : W -> A * W) : costs w (w (kind_of ev)) (call ev f).
Proof.
  intros st. unfold call. destruct (f (world st)) as [a w']. exists [ev]. simpl.
  split; [reflexivity | lia].
Qed.

Lemma costs_call_res {A} ev (f : W -> Res A * W) :
  costs w (w (kind_of ev)) (call_res ev f).
Proof.
  eapply appends_weaken; [apply appends_call_res |].
  intros evs ->. simpl. lia.
Qed.

(** The budget of a sequence is split between its two parts. *)
Lemma costs_bind {A B} n n1 (c : SE (State W) A) (f : A -> SE (State W) B) :
  costs w n1 c -> (n1 <= n)%nat -> (forall a, costs w (n - n1) (f a)) ->
  costs w n (c ≫= f).
Proof.
  intros Hc Hle Hf.
  eapply appends_bind; [exact Hc | exact Hf | |]; simpl.
  - intros. lia.
  - intros e1 e2 H1 H2. rewrite weight_app. lia.
Qed.

Lemma costs_assoc {A B C} n (c : SE (State W) A) (f : A -> SE (State W) B)
    (g : B -> SE (State W) C) :
  costs w n (c ≫= fun a => f a ≫= g) -> costs w n ((c ≫= f) ≫= g).
Proof.
  intros H st. destruct (H st) as (evs & T & Hw). exists evs.
  split; [| exact Hw]. rewrite <- T. rewrite !bind_run.
  destruct (c st) as [[a | e] st1]; reflexivity.
Qed.

Lemma costs_ret_bind {A B} n (a : A) (f : A -> SE (State W) B) :
  costs w n (f a) -> costs w n (mret a ≫= f).
Proof. intros H. exact H. Qed.

Lemma costs_try {A} n (c : SE (State W) A) (h : exn -> SE (State W) A) :
  costs w n c -> (forall e, costs w 0 (h e)) -> costs w n (try_except c h).
Proof.
  intros Hc Hh.
  eapply appends_try; [exact Hc | exact Hh | |]; simpl.
  - intros. lia.
  - intros e1 e2 H1 H2. rewrite weight_app. lia.
Qed.

End Appends.

(** Decomposes a goal [costs w n c] along the structure of [c], handing
    each part of a sequence what the part before it left of the budget. *)
Ltac costs_leaf :=
  first [ apply costs_ret | apply costs_lift | apply costs_raise
        | apply costs_silent | apply costs_call_res | apply costs_call ].

Ltac costs_step leaf :=
  lazymatch goal with
  | |- costs _ _ ((if ?b then _ else _) ≫= _) => destruct b
  | |- costs _ _ ((match ?x with _ => _ end) ≫= _) => destruct x
  | |- costs _ _ ((_ ≫= _) ≫= _) => apply costs_assoc
  | |- costs _ _ (mret _ ≫= _) => apply costs_ret_bind; cbv beta iota
  | |- costs _ _ (_ ≫= _) =>
      eapply costs_bind; [first [costs_leaf | leaf] | cbn; lia | intros ?]
  | |- costs _ _ (try_except _ _) =>
      apply costs_try; [| intros ?; apply costs_ret]
  | |- costs _ _ (if ?b then _ else _) => destruct b
  | |- costs _ _ (match ?x with _ => _ end) => destruct x
  | |- costs _ _ _ =>
      eapply costs_weaken; [first [costs_leaf | leaf] | cbn; lia]
  end.

Section Work.
Context {W : Type}.
Variable env : Env W.
Variable lib : PyLib.
Variable settings : Settings.
Variable w : Kind -> nat.

Lemma execute_code_costs code quiz_url :
  costs w (w KExec) (execute_code env lib settings code quiz_url).
Proof.
  unfold execute_code. eapply costs_bind with (n1 := w KExec); [| lia |].
  - destruct code; [apply costs_call |].
    eapply costs_weaken; [apply costs_ret | lia].
  - intros [out raised]. repeat costs_step fail.
Qed.

Lemma fallback_outcome_costs self quiz_url :
  costs w (w KPost) (fallback_outcome env settings self quiz_url).
Proof.
  intros st. rewrite fallback_outcome_run. eexists [_].
  split; [reflexivity | simpl; lia].
Qed.

Lemma retry_with_fix_costs self question_data quiz_url failed_code error start_time :
  costs w (w KAnalyze + w KExec)
    (retry_with_fix env lib settings self question_data quiz_url failed_code error
       start_time).
Proof.
  unfold retry_with_fix, analyze_error_and_retry, now.
  repeat costs_step ltac:(apply execute_code_costs).
Qed.

Lemma retry_with_feedback_costs self question_data quiz_url reason failed_code
    previous_output start_time :
  costs w (w KGenerate + w KExec)
    (retry_with_feedback env lib settings self question_data quiz_url reason
       failed_code previous_output start_time).
Proof.
  unfold retry_with_feedback, generate_solution, now.
  repeat costs_step ltac:(apply execute_code_costs).
Qed.

End Work.

Ltac costs_helper :=
  first [ apply execute_code_costs | apply fallback_outcome_costs
        | apply retry_with_fix_costs | apply retry_with_feedback_costs ].

Ltac costs_solve :=
  unfold solve_single_quiz, generate_step, execute_solution, decide_outcome,
    visit_quiz_page, generate_solution, now;
  repeat costs_step costs_helper.

Section WorkOfAQuestion.
Context {W : Type}.
Variable env : Env W.
Variable lib : PyLib.
Variable settings : Settings.

Lemma solve_single_quiz_visits self quiz_url time_remaining start_time :
  costs visits 1
    (solve_single_quiz env lib settings self quiz_url time_remaining start_time).
Proof. costs_solve. Qed.

Lemma solve_single_quiz_executions self quiz_url time_remaining start_time :
  costs executions 2
    (solve_single_quiz env lib settings self quiz_url time_remaining start_time).
Proof. costs_solve. Qed.

Lemma solve_single_quiz_model_calls self quiz_url time_remaining start_time :
  costs model_calls 3
    (solve_single_quiz env lib settings self quiz_url time_remaining start_time).
Proof. costs_solve. Qed.

Lemma solve_single_quiz_posts_and_analyses self quiz_url time_remaining start_time :
  costs posts_and_analyses 1
    (solve_single_quiz env lib settings self quiz_url time_remaining start_time).
Proof. costs_solve. Qed.

Lemma solve_single_quiz_executions_and_posts self quiz_url time_remaining start_time :
  costs executions_and_posts 2
    (solve_single_quiz env lib settings self quiz_url time_remaining start_time).
Proof. costs_solve. Qed.

End WorkOfAQuestion.

(** *** The work and the outcome of a question *)

Section Yields.
Context {S : Type}.

Lemma yields_ret {A} (Q : A -> Prop) (a : A) : Q a -> yields Q (mret a : SE S A).
Proof. intros H s a' s' E. injection E as <- _. exact H. Qed.

Lemma yields_bind {A B} (P : A -> Prop) (Q : B -> Prop) (c : SE S A)
    (f : A -> SE S B) :
  yields P c -> (forall a, P a -> yields Q (f a)) -> yields Q (c ≫= f).
Proof.
  intros Hc Hf s b s' E. rewrite bind_run in E.
  destruct (c s) as [[a | e] s1] eqn:Ec; [| discriminate].
  exact (Hf a (Hc _ _ _ Ec) _ _ _ E).
Qed.

Lemma yields_any {A} (c : SE S A) : yields (fun _ => True) c.
Proof. intros s a s' _. exact I. Qed.

Lemma yields_try {A} (Q : A -> Prop) (c : SE S A) (h : exn -> SE S A) :
  yields Q c -> (forall e, yields Q (h e)) -> yields Q (try_except c h).
Proof.
  intros Hc Hh s a s' E. unfold try_except, try_except_if in E.
  destruct (c s) as [[a1 | e] s1] eqn:Ec.
  - injection E as <- _. exact (Hc _ _ _ Ec).
  - exact (Hh e _ _ _ E).
Qed.

End Yields.

Section Outcomes.
Context {W : Type}.
Variable env : Env W.
Variable lib : PyLib.
Variable settings : Settings.

Lemma fallback_outcome_status self quiz_url :
  yields (fun outcome => status outcome <> Skipped)
    (fallback_outcome env settings self quiz_url).
Proof.
  intros st o st' E. rewrite fallback_outcome_run in E. injection E as <- _.
  unfold outcome_of_fallback.
  destruct (fst _) as [response | e]; [| discriminate].
  destruct (resp_json response) as [[] | e]; discriminate.
Qed.

Lemma retry_with_fix_status self question_data quiz_url failed_code error start_time :
  yields (fun outcome => status outcome <> Skipped)
    (retry_with_fix env lib settings self question_data quiz_url failed_code error
       start_time).
Proof.
  intros st o st' E.
  destruct (retry_with_fix_shape env lib settings self question_data quiz_url
              failed_code error start_time st) as (o' & st1 & evs & E' & H & _).
  rewrite E' in E. injection E as <- _. exact H.
Qed.

Lemma retry_with_feedback_status self question_data quiz_url reason failed_code
    previous_output start_time :
  yields (fun outcome => status outcome <> Skipped)
    (retry_with_feedback env lib settings self question_data quiz_url reason
       failed_code previous_output start_time).
Proof.
  intros st o st' E.
  destruct (retry_with_feedback_shape env lib settings self question_data quiz_url
              reason failed_code previous_output start_time st)
    as (o' & st1 & evs & E' & H & _).
  rewrite E' in E. injection E as <- _. exact H.
Qed.

Lemma not_skipped_has_url (outcome : Outcome) :
  status outcome <> Skipped -> skipped_has_url outcome.
Proof. intros H E. contradiction. Qed.

Lemma decide_outcome_skipped self question_data quiz_url solution_code
    execution_result start_time :
  yields skipped_has_url
    (decide_outcome env lib settings self question_data quiz_url solution_code
       execution_result start_time).
Proof.
  unfold decide_outcome.
  destruct (bool_decide _).
  { intros st o st' E. apply not_skipped_has_url.
    exact (fallback_outcome_status _ _ _ _ _ E). }
  destruct (truthy (dict_get _ "correct")); [apply yields_ret; discriminate |].
  destruct (is_False _); [| apply yields_ret; discriminate].
  eapply yields_bind; [apply yields_any | intros t _].
  destruct (enough_time _ _).
  - eapply yields_bind; [apply retry_with_feedback_status | intros r Hr].
    destruct (_ && _); apply yields_ret, not_skipped_has_url; exact Hr.
  - destruct (truthy (dict_get _ "next_url")) eqn:Hurl; apply yields_ret.
    + intros _. exact Hurl.
    + discriminate.
Qed.

Lemma solve_single_quiz_skipped self quiz_url time_remaining start_time :
  yields skipped_has_url
    (solve_single_quiz env lib settings self quiz_url time_remaining start_time).
Proof.
  unfold solve_single_quiz.
  apply yields_try; [| intros e; apply yields_ret; discriminate].
  eapply yields_bind with
    (P := fun g => match g with inr o => status o <> Skipped | inl _ => True end).
  - unfold generate_step.
    eapply yields_bind; [apply yields_any | intros q _].
    eapply yields_bind; [apply yields_any | intros [code |] _];
      [apply yields_ret; exact I |].
    eapply yields_bind; [apply yields_any | intros t _].
    destruct (enough_time _ _).
    + eapply yields_bind; [apply yields_any | intros [code |] _];
        apply yields_ret; [exact I | discriminate].
    + eapply yields_bind; [apply fallback_outcome_status | intros o Ho].
      apply yields_ret. exact Ho.
  - intros [[q code] | o] Hg; [| apply yields_ret, not_skipped_has_url, Hg].
    unfold execute_solution.
    eapply yields_bind; [apply yields_any | intros er _].
    destruct (negb _); [| apply decide_outcome_skipped].
    eapply yields_bind; [apply yields_any | intros t _].
    destruct (enough_time _ _); intros st o st' E; apply not_skipped_has_url.
    + exact (retry_with_fix_status _ _ _ _ _ _ _ _ _ E).
    + exact (fallback_outcome_status _ _ _ _ _ E).
Qed.

(** The first event of a question is the visit of its page, and it is the
    only visit. *)
Lemma appends_assoc {A B C} (P : list Event -> Prop) (c : SE (State W) A)
    (f : A -> SE (State W) B) (g : B -> SE (State W) C) :
  appends P (c ≫= fun a => f a ≫= g) -> appends P ((c ≫= f) ≫= g).
Proof.
  intros H st. destruct (H st) as (evs & T & Hw). exists evs.
  split; [| exact Hw]. rewrite <- T. rewrite !bind_run.
  destruct (c st) as [[a | e] st1]; reflexivity.
Qed.

Lemma solve_single_quiz_first_visit self quiz_url time_remaining start_time :
  appends (fun evs => exists evs', evs = EvVisit quiz_url :: evs')
    (solve_single_quiz env lib settings self quiz_url time_remaining start_time).
Proof.
  unfold solve_single_quiz.
  eapply appends_try with (P2 := fun evs => evs = []);
    [| intros e; apply appends_ret; reflexivity | intros e1 H; exact H
     | intros e1 e2 H ->; rewrite app_nil_r; exact H].
  unfold generate_step, visit_quiz_page.
  do 2 apply appends_assoc.
  eapply appends_bind with (P2 := fun evs => (weight (fun _ => 0%nat) evs <= 0)%nat);
    [apply appends_call_res | | intros e1 ->; eauto | intros e1 e2 -> _; eexists; reflexivity].
  intros [text html]. change (costs (fun _ => 0%nat) 0
    ((mret {| question_text := text; raw_html := html; url := quiz_url |}
      ≫= fun question_data =>
           (solution_code ← generate_solution env question_data PNone None None;
            match solution_code with
            | None =>
                t ← now env;
                if enough_time settings (remaining_at settings start_time t) then
                  solution_code ← generate_solution env question_data PNone None None;
                  match solution_code with
                  | None => mret (inr error_outcome)
                  | Some solution_code => mret (inl (question_data, solution_code))
                  end
                else
                  outcome ← fallback_outcome env settings self quiz_url;
                  mret (inr outcome)
            | Some solution_code => mret (inl (question_data, solution_code))
            end)
           ≫= fun generated =>
                match generated with
                | inr outcome => mret outcome
                | inl (question_data, solution_code) =>
                    execute_solution env lib settings self question_data quiz_url
                      solution_code start_time
                end))).
  costs_solve.
Qed.

Lemma solve_single_quiz_one_visit self quiz_url time_remaining start_time
    (st : State W) :
  exists outcome st' evs,
    solve_single_quiz env lib settings self quiz_url time_remaining start_time st
    = (Ok outcome, st')
    /\ trace st' = trace st ++ EvVisit quiz_url :: evs
    /\ forall w n,
        costs w n (solve_single_quiz env lib settings self quiz_url time_remaining
                     start_time) ->
        (w KVisit + weight w evs <= n)%nat.
Proof.
  destruct (solve_single_quiz_returns env lib settings self quiz_url time_remaining
              start_time st) as (o & st' & E).
  destruct (solve_single_quiz_first_visit self quiz_url time_remaining start_time st)
    as (evs0 & T & evs & ->).
  rewrite E in T. simpl in T.
  exists o, st', evs. split; [exact E |]. split; [exact T |].
  intros w n Hc. destruct (Hc st) as (evs1 & T1 & Hw).
  rewrite E in T1. simpl in T1. rewrite T in T1.
  apply app_inv_head in T1. subst evs1. exact Hw.
Qed.

End Outcomes.

(** X1.  What a question does to the outside world is bounded, for every
    behaviour of the page, of the language model, of the server and of
    programs that end normally or with an [Exception]: the events that
    [solve_single_quiz] adds to the trace start with the visit of the page,
    which is the only one, and hold at most three calls of the language
    model, at most two executions and at most one fallback POST.  The
    fallback POST excludes the retry: a question with a POST has no call of
    [analyze_error_and_retry] and at most one execution. *)
Theorem work_of_a_question_is_bounded {W} (env : Env W) (lib : PyLib)
    (settings : Settings) (self : QuizHandler) (quiz_url : pyval)
    (time_remaining start_time : Z) (st : State W) :
  exists evs,
    trace (snd (solve_single_quiz env lib settings self quiz_url time_remaining
                  start_time st))
    = trace st ++ EvVisit quiz_url :: evs
    /\ weight visits evs = 0%nat
    /\ (weight model_calls evs <= 3)%nat
    /\ (weight executions evs <= 2)%nat
    /\ (weight posts evs <= 1)%nat
    /\ (weight posts_and_analyses evs <= 1)%nat
    /\ (weight executions_and_posts evs <= 2)%nat.
Proof.
  destruct (solve_single_quiz_one_visit env lib settings self quiz_url time_remaining
              start_time st) as (o & st' & evs & E & T & Hw).
  exists evs. rewrite E. split; [exact T |].
  pose proof (Hw _ _ (solve_single_quiz_visits env lib settings _ _ _ _)) as H1.
  pose proof (Hw _ _ (solve_single_quiz_model_calls env lib settings _ _ _ _)) as H2.
  pose proof (Hw _ _ (solve_single_quiz_executions env lib settings _ _ _ _)) as H3.
  pose proof (Hw _ _ (solve_single_quiz_posts_and_analyses env lib settings _ _ _ _))
    as H4.
  pose proof (Hw _ _ (solve_single_quiz_executions_and_posts env lib settings _ _ _ _))
    as H5.
  simpl in H1, H2, H3, H4, H5.
  assert (Hp : (weight posts evs <= weight posts_and_analyses evs)%nat).
  { clear. induction evs as [| [] evs IH]; simpl; lia. }
  repeat split; lia.
Qed.

(** X2.  An outcome with the status skipped always names the next
    question: its next url is truthy, so a skipped question never ends the
    chain. *)
Theorem skipped_names_the_next_question {W} (env : Env W) (lib : PyLib)
    (settings : Settings) (self : QuizHandler) (quiz_url : pyval)
    (time_remaining start_time : Z) (st st' : State W) (outcome : Outcome) :
  solve_single_quiz env lib settings self quiz_url time_remaining start_time st
  = (Ok outcome, st') ->
  status outcome = Skipped ->
  truthy (next_url outcome) = true.
Proof.
  intros E. exact (solve_single_quiz_skipped env lib settings self quiz_url
                     time_remaining start_time st outcome st' E).
Qed.

Lemma skipped_names_the_next_question_witness :
  exists outcome st',
    solve_single_quiz Scripted.env RefLib.lib Scripted.settings Scripted.handler
      Scripted.quiz_url (seconds 180) 0 world_E = (Ok outcome, st')
    /\ status outcome = Skipped
    /\ truthy (next_url outcome) = true.
Proof.
  eassert (E : solve_single_quiz Scripted.env RefLib.lib Scripted.settings
                 Scripted.handler Scripted.quiz_url (seconds 180) 0 world_E
               = (Ok {| status := Skipped; next_url := _ |}, _))
    by (vm_compute; reflexivity).
  do 2 eexists. split; [exact E |]. split; [reflexivity |].
  apply (skipped_names_the_next_question _ _ _ _ _ _ _ _ _ _ E). reflexivity.
Defined.

(** *** The chain and the reply to the request *)

Section Chain.
Context {W : Type}.
Variable env : Env W.
Variable lib : PyLib.
Variable settings : Settings.

Lemma count_balanced stats outcome :
  balanced stats -> balanced (count stats outcome).
Proof.
  unfold balanced, count. intros (Ht & Hc & Hi & Hs & He).
  destruct (status outcome); simpl; lia.
Qed.

Lemma count_total stats outcome : total (count stats outcome) = total stats + 1.
Proof. reflexivity. Qed.

(** The accounts of the loop: every question adds one to the total and to
    one of the four counters, and it visits one page. *)
Lemma chain_loop_accounts fuel self :
  forall current_url stats (st st' : State W) stats',
    chain_loop env lib settings fuel self current_url stats st
    = (Ok (Some stats'), st') ->
    balanced stats ->
    balanced stats'
    /\ exists evs,
        trace st' = trace st ++ evs
        /\ total stats' = total stats + Z.of_nat (weight visits evs)
        /\ (weight visits evs <= fuel)%nat
        /\ (weight visits evs = 0%nat <-> truthy current_url = false).
Proof.
  induction fuel as [| fuel IH]; intros current_url stats st st' stats' E Hb;
    simpl in E; destruct (truthy current_url) eqn:Hurl;
    try (injection E as <- <-; split; [exact Hb |]; exists [];
         rewrite app_nil_r; simpl; repeat split; auto; lia);
    [discriminate |].
  rewrite !bind_run, !now_run in E. simpl in E. rewrite !bind_run, !now_run in E.
  simpl in E. rewrite !bind_run, !now_run in E. simpl in E. rewrite bind_run in E.
  match type of E with
  | context [solve_single_quiz _ _ _ ?self ?u ?r ?s ?st0] =>
      destruct (solve_single_quiz_one_visit env lib settings self u r s st0)
        as (o & st1 & evs1 & Es & T1 & Hw)
  end.
  rewrite Es in E. simpl in T1.
  specialize (Hw visits 1%nat (solve_single_quiz_visits env lib settings _ _ _ _)).
  simpl in Hw.
  assert (Hv : weight visits (EvVisit current_url :: evs1) = 1%nat) by (simpl; lia).
  destruct (truthy (next_url o)).
  - destruct (IH _ _ _ _ _ E (count_balanced _ _ Hb)) as (Hb' & evs2 & T2 & Ht & Hf & _).
    split; [exact Hb' |]. exists ((EvVisit current_url :: evs1) ++ evs2).
    rewrite T2, T1, <- app_assoc. split; [reflexivity |].
    rewrite weight_app, Hv, Ht, count_total.
    repeat split; try lia; discriminate.
  - injection E as <- <-. split; [apply count_balanced, Hb |].
    exists (EvVisit current_url :: evs1). rewrite T1, Hv, count_total.
    repeat split; try lia; discriminate.
Qed.

End Chain.

(** X3.  The statistics of a chain that has ended add up: the total is the
    sum of the four counters, none of which is negative, and it is the
    number of pages the chain visited.  It is zero exactly when the initial
    url is falsy (an empty string), in which case no question is
    attempted. *)
Theorem chain_statistics_add_up {W} (env : Env W) (lib : PyLib)
    (settings : Settings) (fuel : nat) (self : QuizHandler) (initial_url : pyval)
    (sequence_start_time : Z) (st st' : State W) (stats : SequenceStats) :
  solve_quiz_sequence env lib settings fuel self initial_url sequence_start_time st
  = (Ok (Some stats), st') ->
  balanced stats
  /\ exists evs,
      trace st' = trace st ++ evs
      /\ total stats = Z.of_nat (weight visits evs)
      /\ (total stats = 0 <-> truthy initial_url = false).
Proof.
  unfold solve_quiz_sequence. rewrite bind_run.
  destruct (chain_loop _ _ _ _ _ _ _ _) as [[[stats' |] | e] st1] eqn:E;
    rewrite ?bind_run, ?now_run; simpl; intros H; try discriminate.
  injection H as <- <-.
  destruct (chain_loop_accounts env lib settings fuel self _ _ _ _ _ E)
    as (Hb & evs & T & Ht & _ & Hz).
  { unfold balanced. simpl. lia. }
  split; [exact Hb |]. exists evs. simpl in *. split; [exact T |].
  split; [exact Ht |]. rewrite <- Hz. lia.
Qed.

Lemma chain_statistics_add_up_witness :
  exists stats st',
    solve_quiz_sequence Scripted.env RefLib.lib Scripted.settings 3 Scripted.handler
      Scripted.quiz_url 0 world_chain = (Ok (Some stats), st')
    /\ balanced stats
    /\ exists evs,
        trace st' = trace world_chain ++ evs
        /\ total stats = Z.of_nat (weight visits evs)
        /\ (total stats = 0 <-> truthy Scripted.quiz_url = false).
Proof.
  eassert (E : solve_quiz_sequence Scripted.env RefLib.lib Scripted.settings 3
                 Scripted.handler Scripted.quiz_url 0 world_chain
               = (Ok (Some _), _))
    by (vm_compute; reflexivity).
  do 2 eexists. split; [exact E |].
  exact (chain_statistics_add_up _ _ _ _ _ _ _ _ _ _ E).
Defined.

(** X4.  [handle_quiz] always replies.  A request whose secret is not the
    configured one is answered with 403, starts no chain and causes no
    event at all; any other request is answered with its own email and
    url, whether or not the email is the configured one. *)
Theorem wrong_secret_starts_nothing {W} (env : Env W) (lib : PyLib)
    (settings : Settings) (fuel : nat) (request : QuizRequest) (st : State W) :
  exists stats st',
    handle_quiz env lib settings fuel request st
    = (Ok (if String.eqb (req_secret request) (STUDENT_SECRET settings)
           then Accepted (req_email request) (req_url request)
           else Rejected 403 "Invalid secret", stats), st')
    /\ (req_secret request <> STUDENT_SECRET settings ->
        stats = None /\ trace st' = trace st).
Proof.
  unfold handle_quiz. rewrite bind_run, now_run.
  destruct (String.eqb _ _) eqn:E; simpl.
  - apply String.eqb_eq in E. rewrite bind_run.
    match goal with
    | |- context [try_except ?c ?h ?s] =>
        assert (R : returns (try_except c h))
          by (apply returns_try; intros _; apply returns_ret);
        destruct (R s) as (stats & st' & ->)
    end.
    exists stats, st'. split; [reflexivity | intros H; contradiction].
  - do 2 eexists. split; [reflexivity |]. intros _. split; reflexivity.
Qed.

(** *** The paths of a question that end without a verdict *)

(** X5.  When the page of a question cannot be fetched, the question ends
    with the status error and no next url, and the visit is the only thing
    that happened: the model is not called and nothing is submitted, not
    even the fallback answer. *)
Theorem page_failure_is_an_error {W} (env : Env W) (lib : PyLib)
    (settings : Settings) (self : QuizHandler) (quiz_url : pyval)
    (time_remaining start_time : Z) (st : State W) (e : exn) (w : W) :
  browse env quiz_url (world st) = (Raise e, w) ->
  solve_single_quiz env lib settings self quiz_url time_remaining start_time st
  = (Ok error_outcome, {| world := w; trace := trace st ++ [EvVisit quiz_url] |}).
Proof.
  intros Hb. unfold solve_single_quiz, generate_step, visit_quiz_page, call_res, call.
  run_monad. rewrite Hb. reflexivity.
Qed.

Lemma page_failure_is_an_error_witness :
  exists w,
    solve_single_quiz Scripted.env RefLib.lib Scripted.settings Scripted.handler
      Scripted.quiz_url (seconds 180) 0 (world_mute 0)
    = (Ok error_outcome, {| world := w; trace := [EvVisit Scripted.quiz_url] |}).
Proof.
  eexists.
  apply (page_failure_is_an_error Scripted.env RefLib.lib Scripted.settings
           Scripted.handler Scripted.quiz_url (seconds 180) 0 (world_mute 0)
           (Exn "RuntimeError" "script exhausted")).
  reflexivity.
Defined.



(** X7.  A retry that does not get through ends with the status error and
    no next url.  In [retry_with_fix]: when the call of the model raises
    (then nothing is executed) and when the execution of the fixed program
    raises.  In [retry_with_feedback]: when the model returns no program
    (then nothing is executed: the state after the helper is the state
    after the call of the model) and when the execution of the new program
    raises.  What a failed execution printed is not looked at. *)
Theorem failed_retry_is_an_error {W} (env : Env W) (lib : PyLib)
    (settings : Settings) (self : QuizHandler) (question_data : QuestionData)
    (quiz_url : pyval) (start_time : Z) (st st1 : State W) (t : Z) :
  now env st = (Ok t, st1) ->
  below_threshold settings (remaining_at settings start_time t) = false ->
  (forall failed_code error,
      let run := retry_with_fix env lib settings self question_data quiz_url
                   failed_code error start_time st in
      (forall e st2,
          analyze_error_and_retry env question_data failed_code error st1
          = (Raise e, st2) ->
          run = (Ok error_outcome, st2))
      /\ (forall fixed_code st2 execution_result st3,
            analyze_error_and_retry env question_data failed_code error st1
            = (Ok fixed_code, st2) ->
            execute_code env lib settings (Some fixed_code) quiz_url st2
            = (Ok execution_result, st3) ->
            success execution_result = false ->
            run = (Ok error_outcome, st3)))
  /\ (forall reason failed_code previous_output,
        let run := retry_with_feedback env lib settings self question_data quiz_url
                     reason failed_code previous_output start_time st in
        (forall st2,
            generate_solution env question_data reason (Some failed_code)
              (Some previous_output) st1 = (Ok None, st2) ->
            run = (Ok error_outcome, st2))
        /\ (forall retry_code st2 execution_result st3,
              generate_solution env question_data reason (Some failed_code)
                (Some previous_output) st1 = (Ok retry_code, st2) ->
              execute_code env lib settings retry_code quiz_url st2
              = (Ok execution_result, st3) ->
              success execution_result = false ->
              run = (Ok error_outcome, st3))).
Proof.
  intros Hnow Hth. split.
  - intros failed_code error run. subst run. unfold retry_with_fix.
    rewrite bind_run, Hnow, Hth. split.
    + intros e st2 Ha. erewrite try_except_raise; [reflexivity |].
      rewrite bind_run, Ha. reflexivity.
    + intros fixed st2 er st3 Ha He Hs. apply try_except_ok.
      rewrite bind_run, Ha, bind_run, He, Hs. reflexivity.
  - intros reason failed_code previous_output run. subst run.
    unfold retry_with_feedback. rewrite bind_run, Hnow, Hth. split.
    + intros st2 Hg. apply try_except_ok. rewrite bind_run, Hg.
      unfold execute_code, exec. run_monad. reflexivity.
    + intros code st2 er st3 Hg He Hs. apply try_except_ok.
      rewrite bind_run, Hg, bind_run, He, Hs. reflexivity.
Qed.

Lemma failed_retry_is_an_error_witness :
  (exists st',
      retry_with_fix Scripted.env RefLib.lib Scripted.settings Scripted.handler
        question Scripted.quiz_url "print(solve())" (Some "ZeroDivisionError: division by zero")
        0 (world_mute (seconds 10)) = (Ok error_outcome, st')
      /\ trace st' = [EvAnalyze question "print(solve())"
                        (Some "ZeroDivisionError: division by zero")])
  /\ (exists st',
        retry_with_feedback Scripted.env RefLib.lib Scripted.settings Scripted.handler
          question Scripted.quiz_url (PStr "off by one") "print(solve())" "2"
          0 (world_mute (seconds 10)) = (Ok error_outcome, st')
        /\ trace st' = [EvGenerate question (PStr "off by one")
                          (Some "print(solve())") (Some "2")])
  /\ (exists st',
        retry_with_fix Scripted.env RefLib.lib Scripted.settings Scripted.handler
          question Scripted.quiz_url "print(solve())" None 0
          (world_retry_run "Response: {'correct': True}" (Some ZeroDivisionError))
        = (Ok error_outcome, st')).
Proof.
  destruct (failed_retry_is_an_error Scripted.env RefLib.lib Scripted.settings
              Scripted.handler question Scripted.quiz_url 0
              (world_mute (seconds 10)) _ _ eq_refl eq_refl) as [Hfix Hfeedback].
  destruct (failed_retry_is_an_error Scripted.env RefLib.lib Scripted.settings
              Scripted.handler question Scripted.quiz_url 0
              (world_retry_run "Response: {'correct': True}" (Some ZeroDivisionError))
              _ _ eq_refl eq_refl) as [Hrun _].
  split; [| split].
  - eexists. split.
    + eapply (proj1 (Hfix _ _)). reflexivity.
    + reflexivity.
  - eexists. split.
    + eapply (proj1 (Hfeedback _ _ _)). reflexivity.
    + reflexivity.
  - eexists. eapply (proj2 (Hrun _ _)).
    + reflexivity.
    + vm_compute. reflexivity.
    + reflexivity.
Defined.

(** X8.  The two retry helpers treat a program that ends normally without
    printing anything differently: [retry_with_fix] reads the empty
    submission as an incorrect answer with no next url, while
    [retry_with_feedback] checks for it and returns the status error. *)
Theorem silent_retry_differs {W} (env : Env W) (lib : PyLib)
    (settings : Settings) (self : QuizHandler) (question_data : QuestionData)
    (quiz_url : pyval) (start_time : Z) (st st1 : State W) (t : Z) :
  now env st = (Ok t, st1) ->
  below_threshold settings (remaining_at settings start_time t) = false ->
  (forall failed_code error fixed_code st2 execution_result st3,
      analyze_error_and_retry env question_data failed_code error st1
      = (Ok fixed_code, st2) ->
      execute_code env lib settings (Some fixed_code) quiz_url st2
      = (Ok execution_result, st3) ->
      success execution_result = true ->
      output execution_result = "" ->
      retry_with_fix env lib settings self question_data quiz_url failed_code error
        start_time st
      = (Ok {| status := Incorrect; next_url := PNone |}, st3))
  /\ (forall reason failed_code previous_output retry_code st2 execution_result st3,
        generate_solution env question_data reason (Some failed_code)
          (Some previous_output) st1 = (Ok retry_code, st2) ->
        execute_code env lib settings retry_code quiz_url st2
        = (Ok execution_result, st3) ->
        success execution_result = true ->
        output execution_result = "" ->
        retry_with_feedback env lib settings self question_data quiz_url reason
          failed_code previous_output start_time st
        = (Ok error_outcome, st3)).
Proof.
  intros Hnow Hth. split.
  - intros failed_code error fixed st2 er st3 Ha He Hs Hout.
    unfold retry_with_fix. rewrite bind_run, Hnow, Hth.
    apply try_except_ok. rewrite bind_run, Ha, bind_run, He, Hs.
    rewrite (proj1 (execute_code_spec env lib settings _ _ _ _ _ He) Hout).
    reflexivity.
  - intros reason failed_code previous_output code st2 er st3 Hg He Hs Hout.
    unfold retry_with_feedback. rewrite bind_run, Hnow, Hth.
    apply try_except_ok. rewrite bind_run, Hg, bind_run, He, Hs.
    rewrite (proj1 (execute_code_spec env lib settings _ _ _ _ _ He) Hout).
    reflexivity.
Qed.

Lemma silent_retry_differs_witness :
  (exists st',
      retry_with_fix Scripted.env RefLib.lib Scripted.settings Scripted.handler
        question Scripted.quiz_url "print(solve())" None 0 (world_retry_run "" None)
      = (Ok {| status := Incorrect; next_url := PNone |}, st'))
  /\ (exists st',
        retry_with_feedback Scripted.env RefLib.lib Scripted.settings Scripted.handler
          question Scripted.quiz_url (PStr "off by one") "print(solve())" "2" 0
          (world_retry_run "" None)
        = (Ok error_outcome, st')).
Proof.
  destruct (silent_retry_differs Scripted.env RefLib.lib Scripted.settings
              Scripted.handler question Scripted.quiz_url 0
              (world_retry_run "" None) _ _ eq_refl eq_refl) as [Hfix Hfeedback].
  split.
  - eexists. eapply Hfix.
    + reflexivity.
    + vm_compute. reflexivity.
    + reflexivity.
    + reflexivity.
  - eexists. eapply Hfeedback.
    + reflexivity.
    + vm_compute. reflexivity.
    + reflexivity.
    + reflexivity.
Defined.

(** *** The verdict of the parser *)

Section ParserInvariant.
Variable lib : PyLib.
Variable output : string.

Lemma extract_fields_from text data :
  text ∈ candidates lib output ->
  parsed_as lib text data ->
  maintains (from_one_object lib output) (extract_fields data).
Proof.
  intros Hin Hp s Hs.
  assert (Hcase : (exists items, data = PDict items)
                  \/ (forall items, data <> PDict items))
    by (destruct data; try (right; discriminate); left; eauto).
  destruct Hcase as [[items ->] | Hnd];
    [| destruct (extract_fields_not_dict data s Hnd) as [e ->]; exact Hs].
  rewrite extract_fields_dict. simpl. right. exists text, items.
  split; [exact Hin |]. split; [exact Hp |].
  unfold fields_of. repeat split.
  - rewrite lookup_insert_ne by discriminate.
    rewrite lookup_insert_ne by discriminate. apply lookup_insert_eq.
  - rewrite lookup_insert_ne by discriminate. apply lookup_insert_eq.
  - apply lookup_insert_eq.
Qed.

Lemma from_one_object_status key v (s : gmap string pyval) :
  key = "status_code" ->
  from_one_object lib output s -> from_one_object lib output (<[key := v]> s).
Proof.
  intros -> [(H1 & H2 & H3) | (text & items & Hin & Hp & H1 & H2 & H3)];
    [left | right; exists text, items; split; [exact Hin |]; split; [exact Hp |]];
    repeat split; rewrite lookup_insert_ne by discriminate; assumption.
Qed.

Lemma parse_status_code_from :
  maintains (from_one_object lib output) (parse_status_code lib output).
Proof.
  unfold parse_status_code. destruct (re_search _ _ _ _); [| apply maintains_ret].
  apply maintains_bind; [apply maintains_lift | intros n].
  apply maintains_modify. intros s0. apply from_one_object_status. reflexivity.
Qed.

Lemma parse_response_body_from :
  maintains (from_one_object lib output) (parse_response_body lib output).
Proof.
  unfold parse_response_body.
  destruct (re_search lib RESPONSE_RE _ output) as [dict_str |] eqn:Hm;
    [| apply maintains_ret].
  assert (Hin : dict_str ∈ candidates lib output).
  { unfold candidates. rewrite Hm. apply elem_of_app. left. apply list_elem_of_here. }
  intros s Hs. rewrite bind_run.
  unfold load_response, try_except, try_except_if, lift.
  destruct (json_loads lib dict_str) as [data | e] eqn:Hj; simpl.
  - destruct (truthy data); [| exact Hs].
    apply (extract_fields_from dict_str data Hin); [left; exact Hj | exact Hs].
  - destruct (is_JSONDecodeError e); simpl; [| exact Hs].
    destruct (ast_literal_eval lib dict_str) as [data | e2] eqn:Ha; simpl;
      [| exact Hs].
    destruct (truthy data); [| exact Hs].
    apply (extract_fields_from dict_str data Hin); [right; exact Ha | exact Hs].
Qed.

Lemma scavenge_from blobs :
  (forall blob, blob ∈ blobs -> blob ∈ candidates lib output) ->
  maintains (from_one_object lib output) (scavenge lib blobs).
Proof.
  induction blobs as [| blob rest IH]; intros Hin; simpl; [apply maintains_ret |].
  intros s Hs. rewrite bind_run.
  unfold load_blob, try_except, try_except_if, lift. rewrite !bind_run.
  assert (Hb : blob ∈ candidates lib output) by (apply Hin, list_elem_of_here).
  assert (Hrest : forall b, b ∈ rest -> b ∈ candidates lib output)
    by (intros b Hb'; apply Hin, list_elem_of_further, Hb').
  destruct (json_loads lib blob) as [data | e] eqn:Hj; simpl.
  - apply (extract_fields_from blob data Hb); [left; exact Hj | exact Hs].
  - rewrite bind_run.
    destruct (ast_literal_eval lib blob) as [data | e2] eqn:Ha; simpl.
    + apply (extract_fields_from blob data Hb); [right; exact Ha | exact Hs].
    + apply (IH Hrest), Hs.
Qed.

Lemma scavenger_from :
  maintains (from_one_object lib output) (scavenger lib output).
Proof.
  unfold scavenger. apply maintains_bind.
  - intros s Hs. unfold getitem. destruct (s !! "correct"); exact Hs.
  - intros c. destruct (is_None c); [| apply maintains_ret].
    apply scavenge_from. intros blob Hb. unfold candidates.
    apply elem_of_app. right. exact Hb.
Qed.

Lemma parse_steps_from :
  from_one_object lib output (snd (parse_steps lib output empty_submission)).
Proof.
  unfold parse_steps.
  apply maintains_bind; [apply parse_status_code_from | intros _ |].
  - apply maintains_bind; [apply parse_response_body_from | intros _].
    apply scavenger_from.
  - left. repeat split; reflexivity.
Qed.

Lemma after_status_code_digits :
  status_from_digits lib output (after_status_code lib output)
  /\ no_fields (after_status_code lib output).
Proof.
  unfold after_status_code, parse_status_code, status_from_digits.
  destruct (re_search lib STATUS_RE _ output) as [digits |];
    [| split; [left; reflexivity | repeat split; reflexivity]].
  unfold lift. rewrite bind_run.
  destruct (py_int lib digits) as [n | e] eqn:Hn; simpl;
    [| split; [left; reflexivity | repeat split; reflexivity]].
  split; [| repeat split; reflexivity].
  right. exists digits, n.
  split; [reflexivity | split; [exact Hn | apply lookup_insert_eq]].
Qed.

End ParserInvariant.

(** X10.  The verdict of the parser is never a mixture: its fields
    [correct], [next_url] and [reason] are all [None], or all three are
    read from one and the same dictionary, which one of the texts matched
    in the output parses to, with [url] preferred to [next_url]; and its
    [status_code] is [None] or the integer of the digits the status
    pattern found. *)
Theorem verdict_comes_from_one_object (lib : PyLib) (output : string) :
  exists submission,
    _parse_submission_result lib output = Ok submission
    /\ from_one_object lib output submission
    /\ status_from_digits lib output submission.
Proof.
  exists (snd (parse_steps lib output empty_submission)).
  split; [apply parse_result |]. split; [apply parse_steps_from |].
  destruct (after_status_code_digits lib output) as [[H | (d & n & H1 & H2 & H3)] _];
    destruct (final_status_code lib output) as [Hs _];
    [left | right; exists d, n; repeat split; [exact H1 | exact H2 |]];
    rewrite Hs; assumption.
Qed.

(** X11.  The scavenger stops at the first blob that parses, whatever
    follows it: the blobs before it, on which both parses fail, are
    skipped, and the blobs after it are never looked at.  When the value
    of that blob is not a dictionary (a set such as [{'correct'}]), the
    extraction raises and the submission stays as it was, even if a later
    blob is a verdict. *)
Theorem scavenger_stops_at_first_parse (lib : PyLib) (skipped rest : list string)
    (blob : string) (data : pyval) (submission : gmap string pyval) :
  Forall (fun b => load_blob lib b submission = (Ok None, submission)) skipped ->
  load_blob lib blob submission = (Ok (Some data), submission) ->
  scavenge lib (skipped ++ blob :: rest) submission = extract_fields data submission
  /\ ((forall items, data <> PDict items) ->
      exists e,
        scavenge lib (skipped ++ blob :: rest) submission = (Raise e, submission)).
Proof.
  intros Hskip Hblob.
  assert (E : scavenge lib (skipped ++ blob :: rest) submission
              = extract_fields data submission).
  { induction Hskip as [| b skipped Hb _ IH]; simpl.
    - rewrite bind_run, Hblob. reflexivity.
    - rewrite bind_run, Hb. exact IH. }
  split; [exact E |]. intros Hnd. rewrite E.
  apply extract_fields_not_dict, Hnd.
Qed.

Lemma scavenger_stops_at_first_parse_witness :
  re_findall RefLib.lib CORRECT_BLOB_RE set_blob_output
  = ["{'correct': maybe}"; "{'correct'}"; "{'correct': True}"]
  /\ exists e,
      scavenge RefLib.lib (["{'correct': maybe}"] ++ "{'correct'}" :: ["{'correct': True}"])
        empty_submission
      = (Raise e, empty_submission).
Proof.
  split; [vm_compute; reflexivity |].
  apply (scavenger_stops_at_first_parse RefLib.lib ["{'correct': maybe}"]
           ["{'correct': True}"] "{'correct'}" (PSet [PStr "correct"])
           empty_submission).
  - constructor; [vm_compute; reflexivity | constructor].
  - vm_compute. reflexivity.
  - discriminate.
Defined.

(** X12.  A response that parses to something truthy that is not a
    dictionary (a list, a set, a number) makes the extraction raise, and
    so does a strict parse that raises anything else than
    [json.JSONDecodeError]; the outer handler then ends the parser.  The
    verdict is the submission as the status step left it: the three fields
    are [None], and the scavenger is not run, whatever the rest of the
    output contains. *)
Theorem non_dictionary_response_ends_the_parser (lib : PyLib) (output : string)
    (dict_str : string) :
  re_search lib RESPONSE_RE [DOTALL; IGNORECASE] output = Some dict_str ->
  no_fields (after_status_code lib output)
  /\ (forall data,
        (forall s, load_response lib dict_str s = (Ok data, s)) ->
        truthy data = true ->
        (forall items, data <> PDict items) ->
        _parse_submission_result lib output = Ok (after_status_code lib output))
  /\ (forall e,
        json_loads lib dict_str = Raise e ->
        is_JSONDecodeError e = false ->
        _parse_submission_result lib output = Ok (after_status_code lib output)).
Proof.
  intros Hm. split; [apply after_status_code_digits |].
  split.
  - intros data Hload Ht Hnd. rewrite parse_result. f_equal.
    unfold after_status_code, parse_steps. rewrite bind_run.
    destruct (parse_status_code lib output empty_submission) as [[[] | e1] s1];
      simpl; [| reflexivity].
    rewrite bind_run. unfold parse_response_body. rewrite Hm.
    rewrite bind_run, Hload, Ht.
    destruct (extract_fields_not_dict data s1 Hnd) as [e ->]. reflexivity.
  - intros e Hj He. rewrite parse_result. f_equal.
    unfold after_status_code, parse_steps. rewrite bind_run.
    destruct (parse_status_code lib output empty_submission) as [[[] | e1] s1];
      simpl; [| reflexivity].
    rewrite bind_run. unfold parse_response_body. rewrite Hm.
    rewrite bind_run. unfold load_response, try_except_if, lift.
    rewrite Hj, He. reflexivity.
Qed.

Lemma non_dictionary_response_ends_the_parser_witness :
  re_findall RefLib.lib CORRECT_BLOB_RE set_response_output = ["{'correct': True}"]
  /\ _parse_submission_result RefLib.lib set_response_output
     = Ok (<["status_code" := PInt 200]> empty_submission).
Proof.
  split; [vm_compute; reflexivity |].
  destruct (non_dictionary_response_ends_the_parser RefLib.lib set_response_output
              "{1, 2}") as (_ & H & _).
  - vm_compute. reflexivity.
  - rewrite (H (PSet [PInt 1; PInt 2])).
    + vm_compute. reflexivity.
    + intros s. vm_compute. reflexivity.
    + reflexivity.
    + discriminate.
Defined.

(** X13.  When [int] refuses the digits of the status line (CPython refuses
    more than 4300 of them), the parser ends there: all four fields of the
    verdict are [None], whatever response the output contains. *)
Theorem unreadable_status_hides_the_response (lib : PyLib) (output : string)
    (digits : string) (e : exn) :
  re_search lib STATUS_RE [IGNORECASE] output = Some digits ->
  py_int lib digits = Raise e ->
  _parse_submission_result lib output = Ok empty_submission.
Proof.
  intros Hm Hi. rewrite parse_result. f_equal.
  unfold parse_steps, parse_status_code. rewrite Hm. rewrite !bind_run.
  unfold lift. rewrite Hi. reflexivity.
Qed.

Lemma unreadable_status_hides_the_response_witness :
  re_search RefLib.lib RESPONSE_RE [DOTALL; IGNORECASE] long_status_output
  = Some "{'correct': True}"
  /\ _parse_submission_result RefLib.lib long_status_output = Ok empty_submission.
Proof.
  split; [vm_compute; reflexivity |].
  eapply (unreadable_status_hides_the_response RefLib.lib long_status_output).
  - vm_compute. reflexivity.
  - vm_compute. reflexivity.
Defined.

(** *** The texts the patterns match *)

Section Matcher.
Context {A : Type}.

Lemma star_greedy_sound p s (k : list ascii -> option A) x :
  RefLib.star_greedy p s k = Some x ->
  exists l s', s = l ++ s' /\ Forall (fun c => p c = true) l /\ k s' = Some x.
Proof.
  induction s as [| c s IH]; simpl.
  - intros H. exists [], []. auto.
  - destruct (p c) eqn:Hc.
    + destruct (RefLib.star_greedy p s k) as [y |] eqn:E.
      * intros [= ->]. destruct (IH eq_refl) as (l & s' & -> & Hl & Hk).
        exists (c :: l), s'. auto.
      * intros H. exists [], (c :: s). auto.
    + intros H. exists [], (c :: s). auto.
Qed.

Lemma star_lazy_sound p s (k : list ascii -> option A) x :
  RefLib.star_lazy p s k = Some x ->
  exists l s', s = l ++ s' /\ Forall (fun c => p c = true) l /\ k s' = Some x.
Proof.
  induction s as [| c s IH]; simpl.
  - destruct (k []) eqn:E; [| discriminate]. intros [= ->]. exists [], []. auto.
  - destruct (k (c :: s)) eqn:E.
    + intros [= ->]. exists [], (c :: s). auto.
    + destruct (p c) eqn:Hc; [| discriminate].
      intros H. destruct (IH H) as (l & s' & -> & Hl & Hk).
      exists (c :: l), s'. auto.
Qed.

(** The matcher is sound: what it consumes is in the language of the
    pattern, and the continuation accepted what follows. *)
Lemma rmatch_sound r :
  forall s (k : list ascii -> option A) x,
    RefLib.rmatch r s k = Some x ->
    exists l s', s = l ++ s' /\ denotes r l /\ k s' = Some x.
Proof.
  induction r as [p | r1 IH1 r2 IH2 | r1 IH1 r2 IH2 | | greedy p]; intros s k x; simpl.
  - destruct s as [| c s]; [discriminate |].
    destruct (p c) eqn:Hc; [| discriminate].
    intros H. exists [c], s. eauto.
  - intros H. destruct (IH1 _ _ _ H) as (l1 & s1 & -> & H1 & H').
    destruct (IH2 _ _ _ H') as (l2 & s2 & -> & H2 & Hk).
    exists (l1 ++ l2), s2.
    split; [apply app_assoc | split; [exists l1, l2; auto | exact Hk]].
  - destruct (RefLib.rmatch r1 s k) as [y |] eqn:E.
    + intros [= ->]. destruct (IH1 _ _ _ E) as (l & s' & -> & H1 & Hk).
      exists l, s'. auto.
    + intros H. destruct (IH2 _ _ _ H) as (l & s' & -> & H2 & Hk).
      exists l, s'. auto.
  - intros H. exists [], s. auto.
  - destruct greedy; [apply star_greedy_sound | apply star_lazy_sound].
Qed.

(** The lazy repetition before a closing brace stops at the first one the
    continuation accepts. *)
Lemma star_lazy_first_brace (k : list ascii -> option A) s x :
  (forall s', k s' <> None) ->
  RefLib.star_lazy RefLib.any_char s
    (fun s' => RefLib.rmatch (RefLib.RChar (RefLib.is_char "}")) s' k) = Some x ->
  exists body s2,
    s = body ++ "}"%char :: s2
    /\ Forall (fun c => c <> "}"%char) body
    /\ k s2 = Some x.
Proof.
  intros Hk. induction s as [| c s IH]; simpl; [discriminate |].
  unfold RefLib.is_char at 1. destruct (Ascii.eqb c "}") eqn:Hc.
  - apply Ascii.eqb_eq in Hc. subst c.
    destruct (k s) as [y |] eqn:E; [| destruct (Hk s E)].
    intros [= ->]. exists [], s. auto.
  - apply Ascii.eqb_neq in Hc. intros H.
    destruct (IH H) as (body & s2 & -> & Hb & Hs).
    exists (c :: body), s2. auto.
Qed.

(** A greedy repetition that meets a whole run of its class, followed by
    something outside the class, takes the run when the continuation
    accepts what follows. *)
Lemma star_greedy_run p l tl (k : list ascii -> option A) x :
  Forall (fun c => p c = true) l ->
  not_at p tl ->
  k tl = Some x ->
  RefLib.star_greedy p (l ++ tl) k = Some x.
Proof.
  intros Hl Htl Hk. induction Hl as [| c l Hc _ IH]; simpl.
  - destruct tl as [| c tl]; [exact Hk |]. simpl in *. rewrite Htl. exact Hk.
  - rewrite Hc, IH. reflexivity.
Qed.

End Matcher.

Lemma consumed_app (l s : list ascii) : RefLib.consumed (l ++ s) s = l.
Proof.
  unfold RefLib.consumed. rewrite length_app.
  replace (length l + length s - length s)%nat with (length l) by lia.
  rewrite firstn_app, Nat.sub_diag, firstn_all. simpl. apply app_nil_r.
Qed.

Lemma list_ascii_of_string_app (a b : string) :
  list_ascii_of_string (a +:+ b) = list_ascii_of_string a ++ list_ascii_of_string b.
Proof. induction a as [| c a IH]; simpl; [reflexivity | rewrite IH; reflexivity]. Qed.

Lemma match_here_sound pre grp s g rest :
  RefLib.match_here pre grp s = Some (g, rest) ->
  exists lp, denotes pre lp /\ denotes grp g
             /\ s = lp ++ g ++ rest
             /\ exists s1, RefLib.rmatch grp s1
                             (fun s2 => Some (RefLib.consumed s1 s2, s2))
                           = Some (g, rest).
Proof.
  unfold RefLib.match_here. intros H.
  destruct (rmatch_sound _ _ _ _ H) as (lp & s1 & -> & Hp & E1).
  pose proof E1 as E1'.
  destruct (rmatch_sound _ _ _ _ E1) as (lg & s2 & -> & Hg & Hfin).
  rewrite consumed_app in Hfin. injection Hfin as <- <-.
  exists lp. repeat split; eauto.
Qed.

(** A match of [search_from] is a match of the prefix and of the group at
    some position of the text. *)
Lemma search_from_sound pre grp s g rest :
  RefLib.search_from pre grp s = Some (g, rest) ->
  exists pos lp, denotes pre lp /\ denotes grp g
                 /\ s = pos ++ lp ++ g ++ rest
                 /\ exists s1, RefLib.rmatch grp s1
                                 (fun s2 => Some (RefLib.consumed s1 s2, s2))
                               = Some (g, rest).
Proof.
  induction s as [| c s IH]; simpl.
  - destruct (RefLib.match_here pre grp []) as [m |] eqn:E; [| discriminate].
    intros [= ->].
    destruct (match_here_sound _ _ _ _ _ E) as (lp & Hp & Hg & Hs & H1).
    exists [], lp. auto.
  - destruct (RefLib.match_here pre grp (c :: s)) as [m |] eqn:E.
    + intros [= ->].
      destruct (match_here_sound _ _ _ _ _ E) as (lp & Hp & Hg & Hs & H1).
      exists [], lp. auto.
    + intros H. destruct (IH H) as (pos & lp & Hp & Hg & -> & Hs1).
      exists (c :: pos), lp. auto.
Qed.

Lemma response_group_first_brace s1 g rest :
  RefLib.rmatch (RefLib.response_group true) s1
    (fun s2 => Some (RefLib.consumed s1 s2, s2)) = Some (g, rest) ->
  exists body, g = "{"%char :: body ++ ["}"%char]
               /\ Forall (fun c => c <> "}"%char) body.
Proof.
  simpl. destruct s1 as [| c t]; [discriminate |].
  unfold RefLib.is_char at 1. destruct (Ascii.eqb c "{") eqn:Hc; [| discriminate].
  apply Ascii.eqb_eq in Hc. subst c. intros H.
  apply star_lazy_first_brace in H; [| discriminate].
  destruct H as (body & s2 & -> & Hb & [= <- <-]).
  exists body. split; [| exact Hb].
  change ("{"%char :: body ++ "}"%char :: s2)
    with (("{"%char :: body) ++ "}"%char :: s2).
  replace (("{"%char :: body) ++ "}"%char :: s2)
    with (("{"%char :: body ++ ["}"%char]) ++ s2)
    by (simpl; rewrite <- app_assoc; reflexivity).
  apply consumed_app.
Qed.

Lemma not_brace_closing body :
  Forall (fun c => RefLib.not_brace c = true) body ->
  Forall (fun c => c <> "}"%char) body.
Proof.
  intros H. eapply Forall_impl; [exact H |]. intros c Hc ->. discriminate Hc.
Qed.

Lemma word_denotes w l :
  denotes (RefLib.word false w) l -> l = list_ascii_of_string w.
Proof.
  revert l. induction w as [| c w IH]; simpl; intros l.
  - intros ->. reflexivity.
  - intros (l1 & l2 & -> & (x & -> & Hx) & Hw).
    apply Ascii.eqb_eq in Hx. subst x. rewrite (IH _ Hw). reflexivity.
Qed.

Lemma correct_blob_flat g :
  denotes RefLib.correct_blob g ->
  exists body, g = "{"%char :: body ++ ["}"%char]
               /\ Forall (fun c => c <> "}"%char) body.
Proof.
  unfold RefLib.correct_blob.
  intros (l1 & l2 & -> & (c1 & -> & H1) & l3 & l4 & -> & Hb1 & l5 & l6 & -> &
          (q1 & -> & Hq1) & l7 & l8 & -> & Hw & l9 & l10 & -> & (q2 & -> & Hq2) &
          l11 & l12 & -> & Hb2 & c2 & -> & H2).
  apply Ascii.eqb_eq in H1, H2. subst c1 c2.
  apply word_denotes in Hw. subst l7.
  exists (l3 ++ [q1] ++ list_ascii_of_string "correct" ++ [q2] ++ l11). split.
  - simpl. rewrite <- !app_assoc. reflexivity.
  - assert (Hq : forall q, RefLib.is_quote q = true -> q <> "}"%char)
      by (intros q Hq ->; discriminate Hq).
    rewrite !Forall_app. repeat split;
      first [ apply not_brace_closing; assumption
            | constructor; [apply Hq; assumption | constructor]
            | simpl; repeat constructor; discriminate ].
Qed.

Lemma findall_from_flat fuel :
  forall s blob,
    blob ∈ RefLib.findall_from fuel RefLib.correct_blob s ->
    ends_at_first_brace blob.
Proof.
  induction fuel as [| fuel IH]; intros s blob; simpl.
  - intros H. inversion H.
  - destruct (RefLib.search_from RefLib.REps RefLib.correct_blob s)
      as [[g rest] |] eqn:E; [| intros H; inversion H].
    intros H. apply elem_of_cons in H. destruct H as [-> | H]; [| exact (IH _ _ H)].
    destruct (search_from_sound _ _ _ _ _ E) as (pos & lp & _ & Hg & _ & _).
    destruct (correct_blob_flat g Hg) as (body & -> & Hb).
    exists body. rewrite list_ascii_of_string_of_list_ascii. auto.
Qed.

(** X14.  Under the semantics of [re], every text the parser hands to
    [json.loads] and [ast.literal_eval] opens with a brace and ends at the
    first closing brace after it: the response pattern is lazy and the
    scavenger's pattern excludes braces.  A response with a nested object
    is therefore never read whole. *)
Theorem candidates_end_at_first_brace (output text : string) :
  text ∈ candidates RefLib.lib output -> ends_at_first_brace text.
Proof.
  unfold candidates. intros H. apply elem_of_app in H. destruct H as [H | H].
  - simpl in H. unfold RefLib.re_search in H. simpl in H.
    destruct (RefLib.search_from _ _ _) as [[g rest] |] eqn:E; [| inversion H].
    apply list_elem_of_singleton in H. subst text.
    destruct (search_from_sound _ _ _ _ _ E) as (pos & lp & _ & _ & _ & s1 & Hs1).
    destruct (response_group_first_brace _ _ _ Hs1) as (body & -> & Hb).
    exists body. rewrite list_ascii_of_string_of_list_ascii. auto.
  - simpl in H. unfold RefLib.re_findall in H. simpl in H.
    exact (findall_from_flat _ _ _ H).
Qed.

Lemma candidates_end_at_first_brace_witness :
  candidates RefLib.lib nested_output = ["{'correct': True, 'meta': {'attempt': 1}"]
  /\ ends_at_first_brace "{'correct': True, 'meta': {'attempt': 1}"
  /\ _parse_submission_result RefLib.lib nested_output
     = Ok (<["status_code" := PInt 200]> empty_submission).
Proof.
  assert (E : candidates RefLib.lib nested_output
              = ["{'correct': True, 'meta': {'attempt': 1}"])
    by (vm_compute; reflexivity).
  split; [exact E |]. split; [| vm_compute; reflexivity].
  apply (candidates_end_at_first_brace nested_output).
  rewrite E. apply list_elem_of_here.
Defined.

Lemma digit_not_space c : RefLib.is_digit c = true -> RefLib.is_space c = false.
Proof. destruct c as [[] [] [] [] [] [] [] []]; try discriminate; reflexivity. Qed.

Lemma search_from_here pre grp s m :
  RefLib.match_here pre grp s = Some m -> RefLib.search_from pre grp s = Some m.
Proof. intros H. destruct s; simpl; rewrite H; reflexivity. Qed.

(** The label [REQUEST_STATUS:] at the head of a text is matched by the
    third alternative of the status pattern; what is left to match is the
    white space and the group. *)
Lemma status_label {A} (k : list ascii -> option A) rest :
  RefLib.rmatch (RefLib.status_prefix true)
    (list_ascii_of_string "REQUEST_STATUS:" ++ rest) k
  = RefLib.star_greedy RefLib.is_space rest k.
Proof. reflexivity. Qed.

Lemma status_line_search (digits tail : string) :
  let ds := list_ascii_of_string digits in
  ds <> [] ->
  Forall (fun c => RefLib.is_digit c = true) ds ->
  not_at RefLib.is_digit (list_ascii_of_string tail) ->
  RefLib.re_search STATUS_RE [IGNORECASE] ("REQUEST_STATUS: " +:+ digits +:+ tail)
  = Some digits.
Proof.
  intros ds Hne Hds Htl. unfold RefLib.re_search.
  change (RefLib.compile STATUS_RE [IGNORECASE])
    with (Some (RefLib.status_prefix true, RefLib.status_group)).
  rewrite !list_ascii_of_string_app. fold ds.
  set (tl := list_ascii_of_string tail) in *.
  assert (E : RefLib.match_here (RefLib.status_prefix true) RefLib.status_group
                (list_ascii_of_string "REQUEST_STATUS: " ++ ds ++ tl)
              = Some (ds, tl)).
  { unfold RefLib.match_here.
    change (list_ascii_of_string "REQUEST_STATUS: " ++ ds ++ tl)
      with (list_ascii_of_string "REQUEST_STATUS:" ++ " "%char :: ds ++ tl).
    rewrite status_label.
    destruct Hds as [| d ds' Hd Hds']; [contradiction |].
    simpl RefLib.star_greedy.
    change (RefLib.is_space " ") with true. cbv iota.
    rewrite (digit_not_space d Hd). cbv beta.
    unfold RefLib.status_group, RefLib.plus. simpl RefLib.rmatch. rewrite Hd.
    erewrite star_greedy_run; [reflexivity | exact Hds' | exact Htl |].
    change (d :: ds' ++ tl) with ((d :: ds') ++ tl).
    rewrite consumed_app. reflexivity. }
  rewrite (search_from_here _ _ _ _ E).
  unfold ds. rewrite string_of_list_ascii_of_string. reflexivity.
Qed.

(** X15.  The status line the generated programs are told to print is read
    back: for an output that begins with [REQUEST_STATUS: ] followed by a
    run of at most 4300 decimal digits, the parser's [status_code] is the
    number the digits denote, whatever follows them (further status lines
    included: the first one wins). *)
Theorem status_line_is_read_back (digits tail : string) :
  let ds := list_ascii_of_string digits in
  ds <> [] ->
  Forall (fun c => RefLib.is_digit c = true) ds ->
  (length ds <= RefLib.int_max_str_digits)%nat ->
  not_at RefLib.is_digit (list_ascii_of_string tail) ->
  exists submission,
    _parse_submission_result RefLib.lib ("REQUEST_STATUS: " +:+ digits +:+ tail)
    = Ok submission
    /\ submission !! "status_code" = Some (PInt (RefLib.decimal ds)).
Proof.
  intros ds Hne Hds Hlen Htl.
  eexists. split; [apply parse_result |].
  rewrite (proj1 (final_status_code RefLib.lib _)).
  unfold after_status_code, parse_status_code.
  change (re_search RefLib.lib) with RefLib.re_search.
  rewrite (status_line_search digits tail Hne Hds Htl).
  change (py_int RefLib.lib digits) with (RefLib.int_of_digits ds).
  unfold RefLib.int_of_digits.
  rewrite (proj2 (Nat.leb_le _ _) Hlen).
  unfold lift, setitem, modify. rewrite bind_run. simpl snd.
  apply lookup_insert_eq.
Qed.

Lemma status_line_is_read_back_witness :
  exists submission,
    _parse_submission_result RefLib.lib
      ("REQUEST_STATUS: " +:+ "404" +:+ "
REQUEST_STATUS: 200")
    = Ok submission
    /\ submission !! "status_code" = Some (PInt 404).
Proof.
  apply (status_line_is_read_back "404" "
REQUEST_STATUS: 200").
  - discriminate.
  - repeat constructor.
  - unfold RefLib.int_max_str_digits. simpl. lia.
  - reflexivity.
Defined.

(** *** The cleaning of the model's answers *)

Section Strip.
Variable p : ascii -> bool.

Lemma skip_not_at s : not_at p (RefLib.skip p s).
Proof.
  induction s as [| c s IH]; simpl; [exact I |].
  destruct (p c) eqn:E; [exact IH | exact E].
Qed.

Lemma skip_split s :
  exists ws, s = ws ++ RefLib.skip p s /\ Forall (fun c => p c = true) ws.
Proof.
  induction s as [| c s (ws & E & H)]; simpl.
  - exists []. auto.
  - destruct (p c) eqn:Ec.
    + exists (c :: ws). simpl. rewrite <- E. auto.
    + exists []. auto.
Qed.

(** Dropping the trailing characters of the class keeps the head. *)
Lemma not_at_rev_skip_rev s : not_at p s -> not_at p (rev (RefLib.skip p (rev s))).
Proof.
  intros Hs. destruct (skip_split (rev s)) as (ws & E & Hws).
  apply (f_equal (@rev ascii)) in E. rewrite rev_involutive, rev_app_distr in E.
  destruct (rev (RefLib.skip p (rev s))) as [| c r]; [exact I |].
  rewrite E in Hs. exact Hs.
Qed.

End Strip.

Lemma strip_stripped s :
  not_at RefLib.is_space (LLMSolver.strip s)
  /\ not_at RefLib.is_space (rev (LLMSolver.strip s)).
Proof.
  unfold LLMSolver.strip. split.
  - apply not_at_rev_skip_rev, skip_not_at.
  - rewrite rev_involutive. apply skip_not_at.
Qed.

(** X16.  The code [_clean_code] returns never begins or ends with white
    space, whatever the model answered. *)
Theorem cleaned_code_is_stripped (code : string) :
  let cleaned := list_ascii_of_string (LLMSolver._clean_code code) in
  not_at RefLib.is_space cleaned /\ not_at RefLib.is_space (rev cleaned).
Proof.
  unfold LLMSolver._clean_code. rewrite list_ascii_of_string_of_list_ascii.
  apply strip_stripped.
Qed.

Section Fences.
Import LLMSolver.

Lemma line_start_after_cons bol c l :
  line_start_after bol (c :: l) = line_start_after (is_newline c) l.
Proof.
  unfold line_start_after. rewrite last_cons. destruct (last l); reflexivity.
Qed.

(** The two patterns of an opening fence match nothing that does not begin
    with a backtick. *)
Lemma opening_needs_backtick p bol c s :
  opening p -> c <> "`"%char -> match_at p bol (c :: s) = None.
Proof.
  intros [-> | ->] Hc; unfold match_at; simpl;
    destruct bol; simpl; try reflexivity;
    unfold RefLib.is_char; rewrite (proj2 (Ascii.eqb_neq _ _) Hc); reflexivity.
Qed.

Lemma sub_from_opening p l :
  opening p -> no_backtick l ->
  forall bol t,
    sub_from p bol 0 (l ++ t) = l ++ sub_from p (line_start_after bol l) 0 t.
Proof.
  intros Hp Hl. induction Hl as [| c l Hc Hl IH]; intros bol t; [reflexivity |].
  simpl. rewrite (opening_needs_backtick p bol c (l ++ t) Hp Hc).
  rewrite IH, line_start_after_cons. reflexivity.
Qed.

Lemma closing_needs_backtick bol c s :
  not_at (fun x => Ascii.eqb x "`") s -> s <> [] ->
  match_at CLOSING_FENCE bol (c :: s) = None.
Proof.
  intros Hs Hne. unfold match_at. simpl.
  destruct (is_newline c); [| reflexivity].
  destruct s as [| c' s']; [contradiction |]. simpl in Hs.
  unfold RefLib.is_char. rewrite Hs. reflexivity.
Qed.

Lemma closing_at_end bol c : match_at CLOSING_FENCE bol [c] = None.
Proof. unfold match_at. simpl. destruct (is_newline c); reflexivity. Qed.

Lemma sub_from_closing_none l :
  no_backtick l -> forall bol, sub_from CLOSING_FENCE bol 0 l = l.
Proof.
  intros Hl. induction Hl as [| c l Hc Hl IH]; intros bol; [reflexivity |].
  simpl sub_from.
  assert (E : match_at CLOSING_FENCE bol (c :: l) = None).
  { destruct l as [| c' l']; [apply closing_at_end |].
    apply closing_needs_backtick; [| discriminate].
    simpl. inversion Hl; subst. apply Ascii.eqb_neq. assumption. }
  rewrite E, IH. reflexivity.
Qed.

(** Code without a backtick goes through the three substitutions
    unchanged. *)
Lemma re_sub_no_backtick p l :
  opening p \/ p = CLOSING_FENCE -> no_backtick l -> re_sub p l = l.
Proof.
  intros [Hp | ->] Hl; unfold re_sub.
  - rewrite <- (app_nil_r l) at 1. rewrite (sub_from_opening p l Hp Hl).
    simpl. apply app_nil_r.
  - apply sub_from_closing_none, Hl.
Qed.

End Fences.

(** X17.  A model answer without any backtick is only stripped: the three
    substitutions of [_clean_code] leave it as it is. *)
Theorem code_without_fence_is_only_stripped (code : string) :
  no_backtick (list_ascii_of_string code) ->
  LLMSolver._clean_code code
  = string_of_list_ascii (LLMSolver.strip (list_ascii_of_string code)).
Proof.
  intros H. unfold LLMSolver._clean_code.
  rewrite (re_sub_no_backtick LLMSolver.OPENING_PYTHON_FENCE _
             (or_introl (or_introl eq_refl)) H).
  rewrite (re_sub_no_backtick LLMSolver.OPENING_FENCE _
             (or_introl (or_intror eq_refl)) H).
  rewrite (re_sub_no_backtick LLMSolver.CLOSING_FENCE _ (or_intror eq_refl) H).
  reflexivity.
Qed.

Lemma code_without_fence_is_only_stripped_witness :
  LLMSolver._clean_code "
  print(solve())
" = "print(solve())".
Proof.
  rewrite code_without_fence_is_only_stripped.
  - reflexivity.
  - unfold no_backtick. simpl. repeat constructor; discriminate.
Defined.

Section FencedBlock.
Import LLMSolver.

Lemma white_no_backtick ws : white ws -> no_backtick ws.
Proof.
  intros H. eapply Forall_impl; [exact H |]. intros c Hc ->. discriminate Hc.
Qed.

Lemma newline_is_space c : is_newline c = true -> RefLib.is_space c = true.
Proof. intros H. apply Ascii.eqb_eq in H. subst c. reflexivity. Qed.

Lemma not_space_not_newline c : RefLib.is_space c = false -> is_newline c = false.
Proof.
  intros H. destruct (is_newline c) eqn:E; [| reflexivity].
  rewrite (newline_is_space c E) in H. discriminate.
Qed.

(** White space either has no newline or splits at its last newline. *)
Lemma split_last_newline ws :
  white ws ->
  newline_free ws
  \/ exists pre post,
      ws = pre ++ "010"%char :: post /\ white pre /\ white post /\ newline_free post.
Proof.
  intros H. induction H as [| c ws Hc Hws IH]; [left; constructor |].
  destruct IH as [Hfree | (pre & post & -> & Hpre & Hpost & Hfree)].
  - destruct (is_newline c) eqn:E.
    + right. exists [], ws. apply Ascii.eqb_eq in E. subst c. repeat split; auto.
      constructor.
    + left. constructor; assumption.
  - right. exists (c :: pre), post. repeat split; auto. constructor; assumption.
Qed.

Section Greedy.
Context {A : Type}.
Variable k : list ascii -> option A.

Lemma star_no_newline post t :
  white post -> newline_free post -> not_at RefLib.is_space t ->
  RefLib.star_greedy RefLib.is_space (post ++ t) (then_newline k) = None.
Proof.
  intros Hw Hf Ht. induction Hw as [| c post Hc Hw IH]; simpl.
  - destruct t as [| c t]; [reflexivity |]. simpl in *. rewrite Ht.
    unfold then_newline. simpl. rewrite (not_space_not_newline c Ht). reflexivity.
  - inversion Hf as [| ? ? Hn Hf']; subst. rewrite Hc, (IH Hf').
    unfold then_newline. simpl. rewrite Hn. reflexivity.
Qed.

Lemma star_last_newline pre post t x :
  white pre -> white post -> newline_free post -> not_at RefLib.is_space t ->
  k (post ++ t) = Some x ->
  RefLib.star_greedy RefLib.is_space (pre ++ "010"%char :: post ++ t) (then_newline k)
  = Some x.
Proof.
  intros Hpre Hpost Hf Ht Hk. induction Hpre as [| c pre Hc Hpre IH]; simpl.
  - change (RefLib.is_space "010") with true. cbv iota.
    rewrite (star_no_newline post t Hpost Hf Ht).
    unfold then_newline. simpl. exact Hk.
  - rewrite Hc, IH. reflexivity.
Qed.

End Greedy.
End FencedBlock.

Section Substitution.
Import LLMSolver.

Lemma sub_from_skip p l :
  forall bol t,
    sub_from p bol (length l) (l ++ t) = sub_from p (line_start_after bol l) 0 t.
Proof.
  induction l as [| c l IH]; intros bol t; [reflexivity |].
  simpl. rewrite IH, line_start_after_cons. reflexivity.
Qed.

(** A match at the head of the text is dropped, and the scan resumes
    after it. *)
Lemma sub_from_match p bol m t :
  m <> [] ->
  match_at p bol (m ++ t) = Some t ->
  sub_from p bol 0 (m ++ t) = sub_from p (line_start_after bol m) 0 t.
Proof.
  intros Hm H. destruct m as [| c m]; [contradiction |].
  change ((c :: m) ++ t) with (c :: m ++ t) in *.
  cbn [sub_from]. rewrite H.
  assert (Hlt : (length t <? length (c :: m ++ t))%nat = true).
  { apply Nat.ltb_lt. simpl. rewrite length_app. lia. }
  rewrite Hlt.
  replace (length (c :: m ++ t) - length t - 1)%nat with (length m)
    by (simpl; rewrite length_app; lia).
  rewrite sub_from_skip, line_start_after_cons. reflexivity.
Qed.

Lemma sub_from_opening_all p l bol :
  opening p -> no_backtick l -> sub_from p bol 0 l = l.
Proof.
  intros Hp Hl. rewrite <- (app_nil_r l) at 1.
  rewrite (sub_from_opening p l Hp Hl). simpl. apply app_nil_r.
Qed.

(** An opening fence at the start of a line, the white space after it up
    to its last newline, and then something that is not white space: the
    match ends after that newline. *)
Lemma opening_fence_match p w pre post t :
  opening_fence p w ->
  white pre -> white post -> newline_free post -> not_at RefLib.is_space t ->
  match_at p true (w ++ pre ++ "010"%char :: post ++ t) = Some (post ++ t).
Proof.
  intros Hp Hpre Hpost Hf Ht.
  assert (E : match_at p true (w ++ pre ++ "010"%char :: post ++ t)
              = RefLib.star_greedy RefLib.is_space (pre ++ "010"%char :: post ++ t)
                  (then_newline Some))
    by (destruct Hp as [[-> ->] | [-> ->]]; reflexivity).
  rewrite E. apply star_last_newline; auto.
Qed.

Lemma space_not_p c : RefLib.is_space c = true -> Ascii.eqb c "p" = false.
Proof. destruct c as [[] [] [] [] [] [] [] []]; try discriminate; reflexivity. Qed.

Lemma opening_not_mid_line p s : opening p -> match_at p false s = None.
Proof. intros [-> | ->]; reflexivity. Qed.

(** A fence that an opening pattern does not match is kept. *)
Lemma fence_kept p rest bol :
  opening p ->
  match_at p true (fence ++ rest) = None ->
  sub_from p bol 0 (fence ++ rest) = fence ++ sub_from p false 0 rest.
Proof.
  intros Hp H.
  change (fence ++ rest) with ("`"%char :: "`"%char :: "`"%char :: rest) in *.
  assert (Hnl : is_newline "`" = false) by reflexivity.
  destruct bol; cbn [sub_from]; rewrite ?H, ?Hnl, ?(opening_not_mid_line p) by exact Hp;
    reflexivity.
Qed.

(** The python fence does not match a fence that something else than the
    letter p follows. *)
Lemma python_fence_alone rest :
  not_at (fun c => Ascii.eqb c "p") rest ->
  match_at OPENING_PYTHON_FENCE true (fence ++ rest) = None.
Proof.
  intros H. unfold match_at. simpl.
  destruct rest as [| c rest]; [reflexivity |]. simpl in H.
  unfold RefLib.is_char. rewrite H. reflexivity.
Qed.

Lemma white_not_p ws : white ws -> not_at (fun c => Ascii.eqb c "p") ws.
Proof. intros [| c ws' Hc _]; [exact I | exact (space_not_p c Hc)]. Qed.

(** The first substitution leaves a closing fence alone. *)
Lemma python_fence_keeps_closing l ws bol :
  no_backtick l -> white ws ->
  sub_from OPENING_PYTHON_FENCE bol 0 (l ++ closing_fence ws) = l ++ closing_fence ws.
Proof.
  intros Hl Hws.
  assert (Hp : opening OPENING_PYTHON_FENCE) by (left; reflexivity).
  rewrite sub_from_opening by assumption.
  f_equal. unfold closing_fence.
  cbn [sub_from]. rewrite opening_needs_backtick by (try discriminate; exact Hp).
  f_equal. change (is_newline "010") with true.
  rewrite fence_kept by (try apply python_fence_alone, white_not_p; assumption).
  rewrite sub_from_opening_all; auto using white_no_backtick.
Qed.

(** The second substitution takes a closing fence for an opening one when
    a newline follows it. *)
Lemma fence_at_closing l ws bol :
  no_backtick l -> white ws ->
  exists trailing,
    white trailing
    /\ (sub_from OPENING_FENCE bol 0 (l ++ closing_fence ws) = l ++ closing_fence trailing
        /\ newline_free trailing
        \/ sub_from OPENING_FENCE bol 0 (l ++ closing_fence ws)
           = l ++ "010"%char :: trailing).
Proof.
  intros Hl Hws.
  assert (Hp : opening OPENING_FENCE) by (right; reflexivity).
  assert (E0 : sub_from OPENING_FENCE bol 0 (l ++ closing_fence ws)
               = l ++ "010"%char :: sub_from OPENING_FENCE true 0 (fence ++ ws)).
  { rewrite sub_from_opening by assumption. f_equal. unfold closing_fence.
    cbn [sub_from]. rewrite opening_needs_backtick by (try discriminate; exact Hp).
    reflexivity. }
  rewrite E0. clear E0.
  destruct (split_last_newline ws Hws)
    as [Hfree | (pre & post & -> & Hpre & Hpost & Hfree)].
  - exists ws. split; [exact Hws |]. left. split; [| exact Hfree].
    f_equal. unfold closing_fence. f_equal.
    assert (E : match_at OPENING_FENCE true (fence ++ ws) = None).
    { change (match_at OPENING_FENCE true (fence ++ ws))
        with (RefLib.star_greedy RefLib.is_space ws (then_newline Some)).
      rewrite <- (app_nil_r ws). apply star_no_newline; auto. exact I. }
    rewrite fence_kept by (try exact E; exact Hp).
    rewrite sub_from_opening_all; auto using white_no_backtick.
  - exists post. split; [exact Hpost |]. right. f_equal. f_equal.
    assert (E : match_at OPENING_FENCE true
                  ((fence ++ pre ++ ["010"%char]) ++ post) = Some post).
    { rewrite <- (app_nil_r post) at 1. rewrite <- !app_assoc.
      change (["010"%char] ++ post ++ []) with ("010"%char :: post ++ []).
      rewrite (opening_fence_match OPENING_FENCE fence pre post []); auto.
      - rewrite app_nil_r. reflexivity.
      - right. split; reflexivity.
      - exact I. }
    replace (fence ++ pre ++ "010"%char :: post)
      with ((fence ++ pre ++ ["010"%char]) ++ post)
      by (rewrite <- !app_assoc; reflexivity).
    rewrite sub_from_match; [| discriminate | exact E].
    apply sub_from_opening_all; [exact Hp | apply white_no_backtick, Hpost].
Qed.

(** The third substitution removes a closing fence that ends the text. *)
Lemma closing_fence_match ws bol :
  white ws -> match_at CLOSING_FENCE bol (closing_fence ws ++ []) = Some [].
Proof.
  intros Hws. rewrite app_nil_r.
  change (match_at CLOSING_FENCE bol (closing_fence ws))
    with (RefLib.star_greedy RefLib.is_space ws
            (fun rest => if true && negb (end_of_text rest) then None else Some rest)).
  rewrite <- (app_nil_r ws). apply star_greedy_run; [exact Hws | exact I | reflexivity].
Qed.

Lemma closing_fence_removed l ws :
  no_backtick l -> white ws ->
  forall bol, sub_from CLOSING_FENCE bol 0 (l ++ closing_fence ws) = l.
Proof.
  intros Hl Hws. induction Hl as [| c l Hc Hl IH]; intros bol.
  - simpl app. rewrite <- (app_nil_r (closing_fence ws)).
    rewrite sub_from_match; [reflexivity | discriminate | apply closing_fence_match, Hws].
  - change ((c :: l) ++ closing_fence ws) with (c :: l ++ closing_fence ws).
    cbn [sub_from]. rewrite closing_needs_backtick.
    + rewrite IH. reflexivity.
    + destruct Hl as [| c' l' Hc' _]; simpl; [reflexivity |].
      apply Ascii.eqb_neq. exact Hc'.
    + destruct l; discriminate.
Qed.

(** The second and the third substitution on code that a closing fence
    follows: the fence goes, white space may stay. *)
Lemma closing_fence_cleaned l ws bol :
  no_backtick l -> white ws ->
  exists trailing,
    white trailing
    /\ re_sub CLOSING_FENCE (sub_from OPENING_FENCE bol 0 (l ++ closing_fence ws))
       = l ++ trailing.
Proof.
  intros Hl Hws.
  destruct (fence_at_closing l ws bol Hl Hws) as (tr & Htr & [[-> Hfree] | ->]).
  - exists []. split; [constructor |]. rewrite app_nil_r.
    apply closing_fence_removed; assumption.
  - exists ("010"%char :: tr). split; [constructor; [reflexivity | exact Htr] |].
    unfold re_sub. apply sub_from_closing_none.
    apply Forall_app. split; [exact Hl |].
    constructor; [discriminate | apply white_no_backtick, Htr].
Qed.

Lemma skip_white a y :
  white a -> RefLib.skip RefLib.is_space (a ++ y) = RefLib.skip RefLib.is_space y.
Proof. intros H. induction H as [| c a Hc _ IH]; simpl; [| rewrite Hc]; auto. Qed.

Lemma strip_white_prefix a y : white a -> strip (a ++ y) = strip y.
Proof. intros H. unfold strip. rewrite skip_white by exact H. reflexivity. Qed.

Lemma strip_white_suffix y b : white b -> strip (y ++ b) = strip y.
Proof.
  intros H. unfold strip.
  destruct (skip_split RefLib.is_space y) as (wy & E & Hwy).
  assert (Hcore := skip_not_at RefLib.is_space y).
  rewrite E at 1. rewrite <- app_assoc, skip_white by exact Hwy.
  destruct (RefLib.skip RefLib.is_space y) as [| c core] eqn:Ey.
  - simpl app. rewrite <- (app_nil_r b), skip_white by exact H. reflexivity.
  - assert (Hin : RefLib.skip RefLib.is_space ((c :: core) ++ b) = (c :: core) ++ b)
      by (simpl in *; rewrite Hcore; reflexivity).
    rewrite Hin, rev_app_distr, skip_white; [reflexivity |].
    apply Forall_rev, H.
Qed.

(** A fenced block: an opening fence on a line of its own, code without a
    backtick that is not all white space, and a closing fence on a line of
    its own that ends the text. *)
Lemma fenced_block_cleaned p w body ws :
  opening_fence p w ->
  no_backtick body -> strip body <> [] -> white ws ->
  cleaned (w ++ "010"%char :: body ++ closing_fence ws) = strip body.
Proof.
  intros Hp Hb Hne Hws.
  destruct (skip_split RefLib.is_space body) as (lead & Ebody & Hlead).
  remember (RefLib.skip RefLib.is_space body) as core eqn:Ecore.
  assert (Hcore : not_at RefLib.is_space core) by (subst core; apply skip_not_at).
  assert (Hcore_ne : core <> []).
  { intros E. apply Hne. unfold strip. rewrite <- Ecore, E. reflexivity. }
  assert (Hnb : no_backtick core).
  { unfold no_backtick in *. rewrite Ebody in Hb. apply Forall_app in Hb. tauto. }
  destruct (split_last_newline ("010"%char :: lead))
    as [Hfree | (pre & post & Erun & Hpre & Hpost & Hfree)];
    [constructor; [reflexivity | exact Hlead] | inversion Hfree; discriminate |].
  set (code := post ++ core).
  assert (Hcode : no_backtick code)
    by (apply Forall_app; split; [apply white_no_backtick, Hpost | exact Hnb]).
  assert (Hstart : not_at RefLib.is_space (core ++ closing_fence ws))
    by (destruct core; [contradiction | exact Hcore]).
  assert (Etext : w ++ "010"%char :: body ++ closing_fence ws
                  = (w ++ pre ++ ["010"%char]) ++ code ++ closing_fence ws).
  { rewrite Ebody. unfold code. rewrite <- !app_assoc.
    change ("010"%char :: lead ++ core ++ closing_fence ws)
      with (("010"%char :: lead) ++ core ++ closing_fence ws).
    rewrite Erun, <- !app_assoc. reflexivity. }
  assert (Ematch : match_at p true ((w ++ pre ++ ["010"%char]) ++ code ++ closing_fence ws)
                   = Some (code ++ closing_fence ws)).
  { unfold code. rewrite <- !app_assoc.
    change (["010"%char] ++ post ++ core ++ closing_fence ws)
      with ("010"%char :: post ++ core ++ closing_fence ws).
    apply opening_fence_match; assumption. }
  assert (Hm : w ++ pre ++ ["010"%char] <> [])
    by (destruct Hp as [[_ ->] | [_ ->]]; discriminate).
  assert (Estrip : forall trailing, white trailing -> strip (code ++ trailing) = strip body).
  { intros tr Htr. rewrite strip_white_suffix by exact Htr.
    unfold code. rewrite strip_white_prefix by exact Hpost.
    rewrite Ebody. rewrite strip_white_prefix by exact Hlead. reflexivity. }
  unfold cleaned. rewrite Etext.
  destruct Hp as [[-> ->] | [-> ->]].
  - (* the python fence is removed by the first substitution *)
    unfold re_sub at 3. rewrite sub_from_match; [| exact Hm | exact Ematch].
    rewrite python_fence_keeps_closing by assumption.
    unfold re_sub at 2.
    destruct (closing_fence_cleaned code ws true Hcode Hws) as (tr & Htr & ->).
    apply Estrip, Htr.
  - (* the plain fence is left by the first, removed by the second *)
    assert (E1 : re_sub OPENING_PYTHON_FENCE
                   ((fence ++ pre ++ ["010"%char]) ++ code ++ closing_fence ws)
                 = (fence ++ pre ++ ["010"%char]) ++ code ++ closing_fence ws).
    { unfold re_sub. rewrite <- !app_assoc.
      rewrite fence_kept; [| left; reflexivity |].
      - f_equal.
        assert (Ea : pre ++ ["010"%char] ++ code ++ closing_fence ws
                     = (pre ++ ["010"%char] ++ code) ++ closing_fence ws)
          by (rewrite <- !app_assoc; reflexivity).
        rewrite Ea. apply python_fence_keeps_closing; [| exact Hws].
        apply Forall_app. split; [apply white_no_backtick, Hpre |].
        apply Forall_app. split; [repeat constructor; discriminate | exact Hcode].
      - apply python_fence_alone.
        destruct Hpre as [| c pre Hc _]; [reflexivity | exact (space_not_p c Hc)]. }
    rewrite E1. unfold re_sub at 2. rewrite sub_from_match; [| exact Hm | exact Ematch].
    match goal with
    | |- context [sub_from OPENING_FENCE ?b 0 (code ++ closing_fence ws)] =>
        destruct (closing_fence_cleaned code ws b Hcode Hws) as (tr & Htr & ->)
    end.
    apply Estrip, Htr.
Qed.

End Substitution.

(** X18.  A model answer that is a fenced block is unwrapped: for an
    opening fence, with or without the word python, on the first line, code
    without a backtick that is not all white space, and a closing fence on
    the last line followed by nothing but white space, [_clean_code]
    returns the stripped code. *)
Theorem fenced_code_is_unwrapped (language code trailing : string) :
  language = "python" \/ language = "" ->
  no_backtick (list_ascii_of_string code) ->
  LLMSolver.strip (list_ascii_of_string code) <> [] ->
  white (list_ascii_of_string trailing) ->
  LLMSolver._clean_code
    (LLMSolver.backticks +:+ language +:+ "
" +:+ code +:+ "
" +:+ LLMSolver.backticks +:+ trailing)
  = string_of_list_ascii (LLMSolver.strip (list_ascii_of_string code)).
Proof.
  intros Hl Hb Hne Hws.
  change (LLMSolver._clean_code ?s)
    with (string_of_list_ascii (cleaned (list_ascii_of_string s))).
  f_equal. rewrite !list_ascii_of_string_app.
  set (body := list_ascii_of_string code) in *.
  set (ws := list_ascii_of_string trailing) in *.
  change (list_ascii_of_string "
") with ["010"%char].
  change (list_ascii_of_string LLMSolver.backticks) with fence.
  destruct Hl as [-> | ->].
  - rewrite (app_assoc fence).
    apply (fenced_block_cleaned LLMSolver.OPENING_PYTHON_FENCE); auto.
    left. split; reflexivity.
  - change (list_ascii_of_string "") with (@nil ascii). simpl app at 2.
    apply (fenced_block_cleaned LLMSolver.OPENING_FENCE); auto.
    right. split; reflexivity.
Qed.

Lemma fenced_code_is_unwrapped_witness :
  LLMSolver._clean_code "```python
print(solve())
```
" = "print(solve())".
Proof.
  apply (fenced_code_is_unwrapped "python" "print(solve())" "
").
  - left. reflexivity.
  - unfold no_backtick. simpl. repeat constructor; discriminate.
  - discriminate.
  - repeat constructor.
Defined.

(** A fenced block without code keeps a fence: the white space of the
    opening line takes the newline the closing pattern needs. *)
Example empty_fenced_block :
  LLMSolver._clean_code "```python

```" = "```".
Proof. vm_compute. reflexivity. Qed.

(** *** The prompt of a retry *)



(** *** The programs that are executed *)

Section Provenance.
Context {W : Type}.
Variable env : Env W.
Variable lib : PyLib.
Variable settings : Settings.

Let P := executes_answers env.

(** A sequence whose second part needs what the first part returned. *)
Lemma emits_bind_yields {A B} (Q : A -> Prop) (c : SE (State W) A)
    (f : A -> SE (State W) B) :
  emits P c -> yields Q c -> (forall a, Q a -> emits P (f a)) -> emits P (c ≫= f).
Proof.
  intros Hc Hq Hf st. rewrite bind_run. destruct (Hc st) as (e1 & T1 & F1).
  destruct (c st) as [[a | e] st1] eqn:E; simpl in *.
  - destruct (Hf a (Hq _ _ _ E) st1) as (e2 & T2 & F2). exists (e1 ++ e2).
    rewrite T2, T1, app_assoc. split; [reflexivity | apply Forall_app; split; assumption].
  - exists e1. split; assumption.
Qed.

Lemma generate_solution_yields question_data previous_error failed_code previous_output :
  yields (fun r => forall code, r = Some code -> model_answer env code)
    (generate_solution env question_data previous_error failed_code previous_output).
Proof.
  intros st r st' E code ->. unfold generate_solution, call in E.
  destruct (llm_generate env _ _ _ _ (world st)) as [r w] eqn:El.
  injection E as -> _. left.
  exists question_data, previous_error, failed_code, previous_output, (world st).
  rewrite El. reflexivity.
Qed.

Lemma analyze_error_and_retry_yields question_data code error :
  yields (model_answer env) (analyze_error_and_retry env question_data code error).
Proof.
  intros st fixed st' E. unfold analyze_error_and_retry, call_res, call in E.
  rewrite bind_run in E.
  destruct (llm_analyze env _ _ _ (world st)) as [r w] eqn:El.
  unfold lift in E. injection E as -> _. right.
  exists question_data, code, error, (world st). rewrite El. reflexivity.
Qed.

Lemma execute_code_answers code quiz_url :
  (forall program, code = Some program -> model_answer env program) ->
  emits P (execute_code env lib settings code quiz_url).
Proof.
  intros H. unfold execute_code, exec. apply emits_bind.
  - destruct code as [program |]; [| apply emits_ret].
    apply emits_call. apply H. reflexivity.
  - intros [out raised]. repeat emits_step.
Qed.

Lemma fallback_outcome_answers self quiz_url :
  emits P (fallback_outcome env settings self quiz_url).
Proof.
  intros st. rewrite fallback_outcome_run. eexists [_]. split; [reflexivity |].
  repeat constructor.
Qed.

Lemma retry_with_fix_answers self question_data quiz_url failed_code error start_time :
  emits P (retry_with_fix env lib settings self question_data quiz_url failed_code
             error start_time).
Proof.
  unfold retry_with_fix, now. apply emits_bind; [apply emits_silent | intros t].
  destruct (below_threshold _ _); [apply emits_ret |].
  apply emits_try; [| intros e; apply emits_ret].
  eapply emits_bind_yields;
    [apply emits_call_res; exact I | apply analyze_error_and_retry_yields |].
  intros fixed Hfixed. apply emits_bind.
  - apply execute_code_answers. intros program [= <-]. exact Hfixed.
  - intros er. repeat emits_step.
Qed.

Lemma retry_with_feedback_answers self question_data quiz_url reason failed_code
    previous_output start_time :
  emits P (retry_with_feedback env lib settings self question_data quiz_url reason
             failed_code previous_output start_time).
Proof.
  unfold retry_with_feedback, now. apply emits_bind; [apply emits_silent | intros t].
  destruct (below_threshold _ _); [apply emits_ret |].
  apply emits_try; [| intros e; apply emits_ret].
  eapply emits_bind_yields;
    [apply emits_call; exact I | apply generate_solution_yields |].
  intros retry_code Hcode. apply emits_bind.
  - apply execute_code_answers. exact Hcode.
  - intros er. repeat emits_step.
Qed.

Lemma generate_step_yields self quiz_url start_time :
  yields (fun generated =>
            match generated with
            | inl (_, code) => model_answer env code
            | inr _ => True
            end)
    (generate_step env settings self quiz_url start_time).
Proof.
  unfold generate_step.
  eapply yields_bind; [apply yields_any | intros q _].
  eapply yields_bind; [apply generate_solution_yields | intros [code |] Hcode].
  - apply yields_ret. apply Hcode. reflexivity.
  - eapply yields_bind; [apply yields_any | intros t _].
    destruct (enough_time _ _).
    + eapply yields_bind; [apply generate_solution_yields | intros [code |] Hcode2];
        apply yields_ret; [apply Hcode2; reflexivity | exact I].
    + eapply yields_bind; [apply yields_any | intros o _]. apply yields_ret. exact I.
Qed.

Lemma generate_step_answers self quiz_url start_time :
  emits P (generate_step env settings self quiz_url start_time).
Proof.
  unfold generate_step, visit_quiz_page, generate_solution, now.
  repeat first [ apply fallback_outcome_answers | emits_step ]; exact I.
Qed.

Lemma solve_single_quiz_answers self quiz_url time_remaining start_time :
  emits P (solve_single_quiz env lib settings self quiz_url time_remaining start_time).
Proof.
  unfold solve_single_quiz. apply emits_try; [| intros e; apply emits_ret].
  eapply emits_bind_yields;
    [apply generate_step_answers | apply generate_step_yields |].
  intros [[question_data code] | outcome] Hg; [| apply emits_ret].
  unfold execute_solution, decide_outcome, now.
  apply emits_bind.
  - apply execute_code_answers. intros program [= <-]. exact Hg.
  - intros er.
    repeat first [ apply fallback_outcome_answers | apply retry_with_fix_answers
                 | apply retry_with_feedback_answers | emits_step ].
Qed.

Lemma chain_loop_answers fuel self :
  forall current_url stats,
    emits P (chain_loop env lib settings fuel self current_url stats).
Proof.
  induction fuel as [| fuel IH]; intros current_url stats; simpl.
  - destruct (truthy current_url); apply emits_ret.
  - destruct (truthy current_url); [| apply emits_ret].
    unfold now.
    repeat first [ apply solve_single_quiz_answers | apply IH | emits_step ].
Qed.

Lemma handle_quiz_answers fuel request :
  emits P (handle_quiz env lib settings fuel request).
Proof.
  unfold handle_quiz, solve_quiz_sequence, now.
  repeat first [ apply chain_loop_answers | emits_step ].
Qed.

End Provenance.

(** X20.  With [LLMSolver] for the model, every program the controller
    executes went through [_clean_code]: [generate_solution] returns the
    cleaned text of the model's answer, or [None] when the call raises, and
    [analyze_error_and_retry] returns the cleaned text or raises again. *)
Theorem executed_programs_are_cleaned {W} (lib : PyLib) (settings : Settings)
    (str : pyval -> string) (generate_content : string -> W -> Res string * W)
    (clock : W -> Z * W) (browse : pyval -> W -> Res (string * string) * W)
    (run : string -> Injected -> W -> (string * option exn) * W)
    (http_post : pyval -> Payload -> W -> Res Response * W)
    (fuel : nat) (request : QuizRequest) (st : State W) :
  let env := LLMSolver.env settings str generate_content clock browse run http_post in
  exists result st' evs,
    handle_quiz env lib settings fuel request st = (Ok result, st')
    /\ trace st' = trace st ++ evs
    /\ Forall executes_cleaned evs.
Proof.
  intros env.
  destruct (handle_quiz_returns env lib settings fuel request st) as (r & st' & E).
  destruct (handle_quiz_answers env lib settings fuel request st) as (evs & T & F).
  rewrite E in T. exists r, st', evs. split; [exact E |]. split; [exact T |].
  eapply Forall_impl; [exact F |].
  intros [] H; try exact I. simpl in *.
  destruct H as [(q & prev & fc & po & w & H) | (q & fc & err & w & H)]; simpl in H.
  - unfold LLMSolver.generate_solution in H.
    destruct (generate_content _ w) as [[text | e] w']; [| discriminate].
    injection H as <-. eauto.
  - unfold LLMSolver.analyze_error_and_retry in H.
    destruct (generate_content _ w) as [[text | e] w']; [| discriminate].
    injection H as <-. eauto.
Qed.

(** *** The endpoint and the configuration *)

(** X21.  The endpoint always replies, and only an accepted request has
    any effect: with every other reply no chain is started and nothing is
    visited, generated, executed or posted.  A body that is not JSON is
    answered with 400; a body that is JSON but not an object (a list, a
    string, a number, null) is answered with 500, not 400, because the
    [TypeError] of the unpacking is not a [ValidationError]. *)
Theorem only_accepted_requests_have_effects {W} (env : Env W) (lib : PyLib)
    (settings : Settings) (validate : list (pyval * pyval) -> option QuizRequest)
    (not_a_mapping : pyval -> string) (fuel : nat) (body : Res pyval)
    (st : State W) :
  exists reply stats st',
    handle_quiz_request env lib settings validate not_a_mapping fuel body st
    = (Ok (reply, stats), st')
    /\ (is_accepted reply = false -> stats = None /\ trace st' = trace st)
    /\ (forall e, body = Raise e -> reply = Rejected 400 "Invalid JSON payload")
    /\ (forall payload,
          body = Ok payload ->
          (forall items, payload <> PDict items) ->
          reply = Rejected 500 ("Internal server error: " +:+ not_a_mapping payload)).
Proof.
  destruct body as [payload | e]; simpl.
  - destruct payload as [| | | | | | | | | | | items];
      try (rewrite bind_run, now_run; do 3 eexists; split; [reflexivity |];
           split; [intros _; split; reflexivity |];
           split; [discriminate | intros p [= <-] _; reflexivity]).
    destruct (validate items) as [request |].
    + unfold handle_quiz. rewrite bind_run, now_run.
      destruct (negb _) eqn:Hs; simpl.
      * do 3 eexists. split; [reflexivity |]. split; [auto |].
        split; [discriminate |]. intros p [= <-] H. destruct (H items eq_refl).
      * rewrite bind_run.
        match goal with
        | |- context [try_except ?c ?h ?s] =>
            assert (R : returns (try_except c h))
              by (apply returns_try; intros _; apply returns_ret);
            destruct (R s) as (stats & st' & ->)
        end.
        do 3 eexists. split; [reflexivity |]. split; [discriminate |].
        split; [discriminate |]. intros p [= <-] H. destruct (H items eq_refl).
    + rewrite bind_run, now_run. do 3 eexists. split; [reflexivity |].
      split; [intros _; split; reflexivity |].
      split; [discriminate |]. intros p [= <-] H. destruct (H items eq_refl).
  - rewrite bind_run, now_run. do 3 eexists. split; [reflexivity |].
    split; [intros _; split; reflexivity |].
    split; [reflexivity | discriminate].
Qed.

(** X22.  [validate_settings] refuses an empty secret, so once the
    configuration has been imported a request with an empty secret is
    never accepted: it is answered with 403. *)
Theorem empty_secret_is_never_accepted {W} (env : Env W) (lib : PyLib)
    (settings : Settings) (GEMINI_API_KEY : string) (fuel : nat)
    (request : QuizRequest) (st : State W) :
  validate_settings GEMINI_API_KEY settings = Ok tt ->
  req_secret request = "" ->
  exists st',
    handle_quiz env lib settings fuel request st
    = (Ok (Rejected 403 "Invalid secret", None), st')
    /\ trace st' = trace st.
Proof.
  unfold validate_settings. intros Hv Hs.
  destruct (String.eqb GEMINI_API_KEY ""); [discriminate |].
  destruct (String.eqb (STUDENT_EMAIL settings) ""); [discriminate |].
  destruct (String.eqb (STUDENT_SECRET settings) "") eqn:E; [discriminate |].
  unfold handle_quiz. rewrite bind_run, now_run, Hs.
  rewrite String.eqb_sym, E. simpl. eexists. split; reflexivity.
Qed.

Lemma empty_secret_is_never_accepted_witness :
  exists st',
    handle_quiz Scripted.env RefLib.lib Scripted.settings 3
      {| req_email := "24f1001827@ds.study.iitm.ac.in"; req_secret := "";
         req_url := "https://x/q1" |} world_chain
    = (Ok (Rejected 403 "Invalid secret", None), st')
    /\ trace st' = trace world_chain.
Proof.
  apply (empty_secret_is_never_accepted Scripted.env RefLib.lib Scripted.settings
           "key").
  - reflexivity.
  - reflexivity.
Defined.

(** *** A question that starts late *)

Section Late.
Context {W : Type}.
Variable env : Env W.
Variable lib : PyLib.
Variable settings : Settings.
Variable w : Kind -> nat.

(** What follows a reading of the clock is given a time that the clock
    shows in some world. *)
Lemma costs_now_bind {A} n (f : Z -> SE (State W) A) :
  (forall world, costs w n (f (fst (clock env world)))) ->
  costs w n (now env ≫= f).
Proof.
  intros H st. rewrite bind_run, now_run.
  destruct (H (world st) {| world := snd (clock env (world st)); trace := trace st |})
    as (evs & T & Hw).
  exists evs. split; [exact T | exact Hw].
Qed.

End Late.

Ltac costs_late H :=
  unfold solve_single_quiz, generate_step, execute_solution, decide_outcome,
    visit_quiz_page, generate_solution;
  repeat first [ apply costs_now_bind; intros ?; rewrite H; cbv iota
               | costs_step costs_helper ].

Section LateQuestion.
Context {W : Type}.
Variable env : Env W.
Variable lib : PyLib.
Variable settings : Settings.
Variable start_time : Z.
Hypothesis Hlate : too_late env settings start_time.

Lemma late_model_calls self quiz_url time_remaining :
  costs model_calls 1
    (solve_single_quiz env lib settings self quiz_url time_remaining start_time).
Proof. costs_late Hlate. Qed.

Lemma late_executions self quiz_url time_remaining :
  costs executions 1
    (solve_single_quiz env lib settings self quiz_url time_remaining start_time).
Proof. costs_late Hlate. Qed.

End LateQuestion.

(** X23.  A question for which it is always too late to retry gets one
    attempt: when no more than twice the threshold is left at every
    reading of the clock, the model is called at most once in all (no
    second generation, no error analysis, no feedback retry), at most one
    program is executed, and at most one fallback POST is made. *)
Theorem late_question_gets_one_attempt {W} (env : Env W) (lib : PyLib)
    (settings : Settings) (self : QuizHandler) (quiz_url : pyval)
    (time_remaining start_time : Z) (st : State W) :
  too_late env settings start_time ->
  exists outcome st' evs,
    solve_single_quiz env lib settings self quiz_url time_remaining start_time st
    = (Ok outcome, st')
    /\ trace st' = trace st ++ EvVisit quiz_url :: evs
    /\ (weight model_calls evs <= 1)%nat
    /\ (weight executions evs <= 1)%nat
    /\ (weight posts evs <= 1)%nat.
Proof.
  intros Hlate.
  destruct (solve_single_quiz_one_visit env lib settings self quiz_url time_remaining
              start_time st) as (o & st' & evs & E & T & Hw).
  exists o, st', evs. split; [exact E |]. split; [exact T |].
  pose proof (Hw _ _ (late_model_calls env lib settings start_time Hlate _ _ _)) as H1.
  pose proof (Hw _ _ (late_executions env lib settings start_time Hlate _ _ _)) as H2.
  pose proof (Hw _ _ (solve_single_quiz_posts_and_analyses env lib settings _ _ _ _))
    as H3.
  simpl in H1, H2, H3.
  assert (Hp : (weight posts evs <= weight posts_and_analyses evs)%nat).
  { clear. induction evs as [| [] evs IH]; simpl; lia. }
  repeat split; lia.
Qed.

Lemma late_question_gets_one_attempt_witness :
  exists outcome st' evs,
    solve_single_quiz (stopped_clock (seconds 170) Scripted.env) RefLib.lib
      Scripted.settings Scripted.handler Scripted.quiz_url (seconds 10) 0 world_E
    = (Ok outcome, st')
    /\ trace st' = trace world_E ++ EvVisit Scripted.quiz_url :: evs
    /\ (weight model_calls evs <= 1)%nat
    /\ (weight executions evs <= 1)%nat
    /\ (weight posts evs <= 1)%nat.
Proof.
  apply (late_question_gets_one_attempt (stopped_clock (seconds 170) Scripted.env)).
  intros w. reflexivity.
Defined.
